(** * Fintra Monte-Carlo engine (mc_engine): model and verified properties

    Shallow embedding of [mc_engine/include/monte_carlo.h] and
    [mc_engine/src/monte_carlo.cpp].

    - C++ [double] is IEEE-754 binary64, modelled by Rocq's primitive [float]:
      every arithmetic expression below is evaluated with the rounding the
      compiled code performs.
    - [int] and [uint32_t] values are integers of [Z]; conversions that can
      wrap are written with [to_int].  A counter that is incremented once
      per element of a vector ([wins], [count_better]) is left unbounded: it
      stays below the size of the vector.
    - The C++ standard library facilities the engine calls ([std::mt19937_64],
      [std::shuffle], [std::uniform_int_distribution], [std::sort]) are not
      part of the repository.  They are taken through two interfaces that
      carry exactly what the C++ standard guarantees of them.
    - [std::vector::reserve] throws [std::length_error] when it is asked for
      more than [max_size()] elements, which is what a negative [int]
      argument converts to; this is the only exception the engine can raise
      short of memory exhaustion, and it is modelled by [result].
    - [simulateEquityCurve] is declared in the header and defined nowhere;
      it is not modelled.  [prices_] is stored and never read.

    The first part holds the model, the second its properties. *)

From Stdlib Require Import String.
From Stdlib Require Import ZArith List Bool Lia Permutation Sorted.
From Stdlib Require Import Floats.
From Stdlib Require Uint63.

Set Warnings "-inexact-float".
Import ListNotations.

Local Open Scope Z_scope.

(** ** Machine integers *)

Definition INT_MAX : Z := 2147483647.
Definition UINT32_MAX : Z := 4294967295.

(** Conversion to [int] (two's complement, modular). *)
Definition to_int (z : Z) : Z := (z + 2 ^ 31) mod 2 ^ 32 - 2 ^ 31.

(** The values a [uint32_t] object can hold. *)
Definition is_uint32 (z : Z) : Prop := 0 <= z <= UINT32_MAX.

(** ** Doubles *)

Definition double : Type := float.

(** [static_cast<double>] of a [size_t]. *)
Definition double_of_size (n : nat) : double :=
  of_uint63 (Uint63.of_Z (Z.of_nat n)).

(** [static_cast<double>] of an [int]. *)
Definition double_of_int (z : Z) : double :=
  if z <? 0 then (- of_uint63 (Uint63.of_Z (- z)))%float
  else of_uint63 (Uint63.of_Z z).

(** Truncation toward zero of a finite double; [None] for NaN and the
    infinities. *)
Definition trunc_double (x : double) : option Z :=
  match Prim2SF x with
  | S754_zero _ => Some 0
  | S754_finite s m e => Some (cond_Zopp s (Z.shiftl (Zpos m) e))
  | S754_infinity _ | S754_nan => None
  end.

(** [static_cast<int>] of a double.  The conversion is undefined in C++ when
    the truncated value does not fit; the model then answers [INT_MIN], the
    "integer indefinite" value of the x86-64 conversion instruction. *)
Definition static_cast_int (x : double) : Z :=
  match trunc_double x with
  | Some z => if (- 2 ^ 31 <=? z) && (z <=? INT_MAX) then z else - 2 ^ 31
  | None => - 2 ^ 31
  end.

(** [static_cast<size_t>] of a double (undefined for negative values and
    NaN, which the model sends to 0). *)
Definition static_cast_size (x : double) : nat :=
  match trunc_double x with
  | Some z => Z.to_nat z
  | None => 0%nat
  end.

(** ** Exceptions *)

Inductive exception : Type := length_error.

Inductive result (A : Type) : Type :=
| Returned (a : A)
| Thrown (ex : exception).
Arguments Returned {A} a.
Arguments Thrown {A} ex.

Definition bind {A B : Type} (r : result A) (k : A -> result B) : result B :=
  match r with
  | Returned a => k a
  | Thrown ex => Thrown ex
  end.

Notation "x <- r ;; k" := (bind r (fun x => k))
  (at level 61, r at next level, right associativity).
Notation "' p <- r ;; k" := (bind r (fun p => k))
  (at level 61, p pattern, r at next level, right associativity).

(** [v.reserve(n)] with an [int] argument [n]: a negative [n] converts to a
    [size_type] above [max_size()]. *)
Definition reserve (n : Z) : result unit :=
  if n <? 0 then Thrown length_error else Returned tt.

(** ** Data model (monte_carlo.h) *)

Record SimulationConfig : Type := {
  num_simulations : Z;
  seed : Z;
  initial_capital : double;
  risk_per_trade : double;
  atr_multiplier : double;
  tax_rate : double;
  use_position_shuffle : bool;
  use_return_permutation : bool;
  use_bootstrap : bool
}.

Definition default_config : SimulationConfig := {|
  num_simulations := 1000;
  seed := 0;
  initial_capital := 100000%float;
  risk_per_trade := 0.02%float;
  atr_multiplier := 3%float;
  tax_rate := 0.002%float;
  use_position_shuffle := true;
  use_return_permutation := true;
  use_bootstrap := true
|}.

Record Trade : Type := {
  entry_price : double;
  exit_price : double;
  days_held : Z;
  pnl_pct : double;
  is_win : bool
}.

Record SimulationResult : Type := {
  final_value : double;
  total_return_pct : double;
  max_drawdown_pct : double;
  num_trades : Z;
  win_rate : double;
  sharpe_ratio : double
}.

(** [MonteCarloAnalysis] has no member initialisers: after
    [MonteCarloAnalysis result;] the two vectors are empty and every scalar
    member is indeterminate until it is assigned.  A scalar member is
    therefore an [option]: [None] is "never assigned". *)
Record MonteCarloAnalysis : Type := {
  simulations : list SimulationResult;
  p_value_strategy_vs_random : option double;
  p_value_strategy_vs_bootstrap : option double;
  percentile_5 : option double;
  percentile_25 : option double;
  percentile_50 : option double;
  percentile_75 : option double;
  percentile_95 : option double;
  ci_lower_95 : option double;
  ci_upper_95 : option double;
  original_return : option double;
  original_sharpe : option double;
  original_max_dd : option double;
  return_distribution : list Z;
  distribution_min : option double;
  distribution_max : option double;
  seed_used : option Z;
  num_trials : option Z
}.

(** The object [MonteCarloAnalysis result;] before any assignment. *)
Definition uninitialised : MonteCarloAnalysis :=
  {| simulations := [];
     p_value_strategy_vs_random := None;
     p_value_strategy_vs_bootstrap := None;
     percentile_5 := None;
     percentile_25 := None;
     percentile_50 := None;
     percentile_75 := None;
     percentile_95 := None;
     ci_lower_95 := None;
     ci_upper_95 := None;
     original_return := None;
     original_sharpe := None;
     original_max_dd := None;
     return_distribution := [];
     distribution_min := None;
     distribution_max := None;
     seed_used := None;
     num_trials := None |}.

(** Assignments to members of a [MonteCarloAnalysis]. *)
Definition set_seed_used (r : MonteCarloAnalysis) (v : Z) : MonteCarloAnalysis :=
  {| simulations := simulations r;
     p_value_strategy_vs_random := p_value_strategy_vs_random r;
     p_value_strategy_vs_bootstrap := p_value_strategy_vs_bootstrap r;
     percentile_5 := percentile_5 r;
     percentile_25 := percentile_25 r;
     percentile_50 := percentile_50 r;
     percentile_75 := percentile_75 r;
     percentile_95 := percentile_95 r;
     ci_lower_95 := ci_lower_95 r;
     ci_upper_95 := ci_upper_95 r;
     original_return := original_return r;
     original_sharpe := original_sharpe r;
     original_max_dd := original_max_dd r;
     return_distribution := return_distribution r;
     distribution_min := distribution_min r;
     distribution_max := distribution_max r;
     seed_used := Some v;
     num_trials := num_trials r |}.

Definition set_num_trials (r : MonteCarloAnalysis) (v : Z) : MonteCarloAnalysis :=
  {| simulations := simulations r;
     p_value_strategy_vs_random := p_value_strategy_vs_random r;
     p_value_strategy_vs_bootstrap := p_value_strategy_vs_bootstrap r;
     percentile_5 := percentile_5 r;
     percentile_25 := percentile_25 r;
     percentile_50 := percentile_50 r;
     percentile_75 := percentile_75 r;
     percentile_95 := percentile_95 r;
     ci_lower_95 := ci_lower_95 r;
     ci_upper_95 := ci_upper_95 r;
     original_return := original_return r;
     original_sharpe := original_sharpe r;
     original_max_dd := original_max_dd r;
     return_distribution := return_distribution r;
     distribution_min := distribution_min r;
     distribution_max := distribution_max r;
     seed_used := seed_used r;
     num_trials := Some v |}.

Definition set_simulations (r : MonteCarloAnalysis) (v : list SimulationResult) : MonteCarloAnalysis :=
  {| simulations := v;
     p_value_strategy_vs_random := p_value_strategy_vs_random r;
     p_value_strategy_vs_bootstrap := p_value_strategy_vs_bootstrap r;
     percentile_5 := percentile_5 r;
     percentile_25 := percentile_25 r;
     percentile_50 := percentile_50 r;
     percentile_75 := percentile_75 r;
     percentile_95 := percentile_95 r;
     ci_lower_95 := ci_lower_95 r;
     ci_upper_95 := ci_upper_95 r;
     original_return := original_return r;
     original_sharpe := original_sharpe r;
     original_max_dd := original_max_dd r;
     return_distribution := return_distribution r;
     distribution_min := distribution_min r;
     distribution_max := distribution_max r;
     seed_used := seed_used r;
     num_trials := num_trials r |}.

Definition set_percentiles (r : MonteCarloAnalysis) (v5 v25 v50 v75 v95 : double) : MonteCarloAnalysis :=
  {| simulations := simulations r;
     p_value_strategy_vs_random := p_value_strategy_vs_random r;
     p_value_strategy_vs_bootstrap := p_value_strategy_vs_bootstrap r;
     percentile_5 := Some v5;
     percentile_25 := Some v25;
     percentile_50 := Some v50;
     percentile_75 := Some v75;
     percentile_95 := Some v95;
     ci_lower_95 := ci_lower_95 r;
     ci_upper_95 := ci_upper_95 r;
     original_return := original_return r;
     original_sharpe := original_sharpe r;
     original_max_dd := original_max_dd r;
     return_distribution := return_distribution r;
     distribution_min := distribution_min r;
     distribution_max := distribution_max r;
     seed_used := seed_used r;
     num_trials := num_trials r |}.

Definition set_ci_lower_95 (r : MonteCarloAnalysis) (v : option double) : MonteCarloAnalysis :=
  {| simulations := simulations r;
     p_value_strategy_vs_random := p_value_strategy_vs_random r;
     p_value_strategy_vs_bootstrap := p_value_strategy_vs_bootstrap r;
     percentile_5 := percentile_5 r;
     percentile_25 := percentile_25 r;
     percentile_50 := percentile_50 r;
     percentile_75 := percentile_75 r;
     percentile_95 := percentile_95 r;
     ci_lower_95 := v;
     ci_upper_95 := ci_upper_95 r;
     original_return := original_return r;
     original_sharpe := original_sharpe r;
     original_max_dd := original_max_dd r;
     return_distribution := return_distribution r;
     distribution_min := distribution_min r;
     distribution_max := distribution_max r;
     seed_used := seed_used r;
     num_trials := num_trials r |}.

Definition set_ci_upper_95 (r : MonteCarloAnalysis) (v : option double) : MonteCarloAnalysis :=
  {| simulations := simulations r;
     p_value_strategy_vs_random := p_value_strategy_vs_random r;
     p_value_strategy_vs_bootstrap := p_value_strategy_vs_bootstrap r;
     percentile_5 := percentile_5 r;
     percentile_25 := percentile_25 r;
     percentile_50 := percentile_50 r;
     percentile_75 := percentile_75 r;
     percentile_95 := percentile_95 r;
     ci_lower_95 := ci_lower_95 r;
     ci_upper_95 := v;
     original_return := original_return r;
     original_sharpe := original_sharpe r;
     original_max_dd := original_max_dd r;
     return_distribution := return_distribution r;
     distribution_min := distribution_min r;
     distribution_max := distribution_max r;
     seed_used := seed_used r;
     num_trials := num_trials r |}.

Definition set_return_distribution (r : MonteCarloAnalysis) (v : list Z) : MonteCarloAnalysis :=
  {| simulations := simulations r;
     p_value_strategy_vs_random := p_value_strategy_vs_random r;
     p_value_strategy_vs_bootstrap := p_value_strategy_vs_bootstrap r;
     percentile_5 := percentile_5 r;
     percentile_25 := percentile_25 r;
     percentile_50 := percentile_50 r;
     percentile_75 := percentile_75 r;
     percentile_95 := percentile_95 r;
     ci_lower_95 := ci_lower_95 r;
     ci_upper_95 := ci_upper_95 r;
     original_return := original_return r;
     original_sharpe := original_sharpe r;
     original_max_dd := original_max_dd r;
     return_distribution := v;
     distribution_min := distribution_min r;
     distribution_max := distribution_max r;
     seed_used := seed_used r;
     num_trials := num_trials r |}.

Definition set_distribution_min (r : MonteCarloAnalysis) (v : option double) : MonteCarloAnalysis :=
  {| simulations := simulations r;
     p_value_strategy_vs_random := p_value_strategy_vs_random r;
     p_value_strategy_vs_bootstrap := p_value_strategy_vs_bootstrap r;
     percentile_5 := percentile_5 r;
     percentile_25 := percentile_25 r;
     percentile_50 := percentile_50 r;
     percentile_75 := percentile_75 r;
     percentile_95 := percentile_95 r;
     ci_lower_95 := ci_lower_95 r;
     ci_upper_95 := ci_upper_95 r;
     original_return := original_return r;
     original_sharpe := original_sharpe r;
     original_max_dd := original_max_dd r;
     return_distribution := return_distribution r;
     distribution_min := v;
     distribution_max := distribution_max r;
     seed_used := seed_used r;
     num_trials := num_trials r |}.

Definition set_distribution_max (r : MonteCarloAnalysis) (v : option double) : MonteCarloAnalysis :=
  {| simulations := simulations r;
     p_value_strategy_vs_random := p_value_strategy_vs_random r;
     p_value_strategy_vs_bootstrap := p_value_strategy_vs_bootstrap r;
     percentile_5 := percentile_5 r;
     percentile_25 := percentile_25 r;
     percentile_50 := percentile_50 r;
     percentile_75 := percentile_75 r;
     percentile_95 := percentile_95 r;
     ci_lower_95 := ci_lower_95 r;
     ci_upper_95 := ci_upper_95 r;
     original_return := original_return r;
     original_sharpe := original_sharpe r;
     original_max_dd := original_max_dd r;
     return_distribution := return_distribution r;
     distribution_min := distribution_min r;
     distribution_max := v;
     seed_used := seed_used r;
     num_trials := num_trials r |}.

(** ** The standard library, as the C++ standard specifies it *)

(** [std::mt19937_64] with the two algorithms that draw from it.  The
    standard fixes neither the permutation [std::shuffle] picks nor the
    number of draws it makes, only that the result is a rearrangement of its
    input; [std::uniform_int_distribution<size_t>(0, hi)] yields a value of
    the closed range. *)
Class StdRandom : Type := {
  rng_state : Type;
  mt19937_64 : Z -> rng_state;
  std_shuffle : list double -> rng_state -> list double * rng_state;
  uniform_int_distribution : nat -> rng_state -> nat * rng_state;
  std_shuffle_permutation :
    forall l g, Permutation l (fst (std_shuffle l g));
  uniform_int_distribution_range :
    forall hi g, (fst (uniform_int_distribution hi g) <= hi)%nat
}.

Definition not_nan (x : double) : Prop := is_nan x = false.

Definition double_le (x y : double) : Prop := (x <=? y)%float = true.

(** [std::sort] with the default [operator<].  On doubles [<] is a strict
    weak ordering exactly when no NaN is present, which is the precondition
    under which the standard promises a sorted range; the result is always
    a rearrangement (the algorithm only swaps and moves elements). *)
Class StdSort : Type := {
  std_sort : list double -> list double;
  std_sort_permutation : forall l, Permutation l (std_sort l);
  std_sort_sorted :
    forall l, Forall not_nan l -> Sorted double_le (std_sort l)
}.

(** ** Path evaluator (monte_carlo.cpp) *)

Section PathEvaluator.

Local Open Scope float_scope.

(** The compounding loop shared, textually, by the three generators:
    [capital *= (1.0 + r); equity_curve.push_back(capital);]. *)
Fixpoint compound (capital : double) (equity_curve : list double)
    (rets : list double) : double * list double :=
  match rets with
  | [] => (capital, equity_curve)
  | r :: rest =>
      let capital := capital * (1 + r) in
      compound capital (equity_curve ++ [capital]) rest
  end.

(** The loop [for (size_t i = 1; i < equity_curve.size(); ++i)] of
    [calculateSharpeRatio]. *)
Definition step_returns (equity_curve : list double) : list double :=
  map (fun i =>
         (nth i equity_curve 0 - nth (i - 1) equity_curve 0)
         / nth (i - 1) equity_curve 0)
      (seq 1 (length equity_curve - 1)).

(** [calculateSharpeRatio], returning next to its value the divisors with
    which the division [mean / std_dev] was executed. *)
Definition calculateSharpeRatio_logged (equity_curve : list double)
    : double * list double :=
  if (length equity_curve <? 2)%nat then (0, [])
  else
    let returns := step_returns equity_curve in
    match returns with
    | [] => (0, [])
    | _ :: _ =>
        let sum := fold_left PrimFloat.add returns 0 in
        let mean := sum / double_of_size (length returns) in
        let sq_sum :=
          fold_left (fun acc r => acc + (r - mean) * (r - mean)) returns 0 in
        let std_dev := sqrt (sq_sum / double_of_size (length returns)) in
        if std_dev =? 0 then (0, [])
        else (mean / std_dev * sqrt 252, [std_dev])
    end.

Definition calculateSharpeRatio (equity_curve : list double) : double :=
  fst (calculateSharpeRatio_logged equity_curve).

Definition calculateMaxDrawdown (equity_curve : list double) : double :=
  match equity_curve with
  | [] => 0
  | first :: _ =>
      let step (st : double * double) (value : double) :=
        let '(max_dd, peak) := st in
        let peak := if peak <? value then value else peak in
        let drawdown := (peak - value) / peak in
        (if max_dd <? drawdown then drawdown else max_dd, peak) in
      fst (fold_left step equity_curve (0, first)) * 100
  end.

(** [int wins = 0; for (double pnl : pnls) if (pnl > 0) wins++;] *)
Definition count_wins (pnls : list double) : Z :=
  fold_left (fun wins pnl => if 0 <? pnl then (wins + 1)%Z else wins) pnls 0%Z.

(** Body of the loops of [runPositionShuffle] and [runBootstrap] after the
    outcome sequence has been drawn (the two bodies are the same text). *)
Definition trade_path_result (pnls : list double) : SimulationResult :=
  let '(capital, equity_curve) := compound 100000 [100000] pnls in
  {| final_value := capital;
     total_return_pct := ((capital - 100000) / 100000) * 100;
     max_drawdown_pct := calculateMaxDrawdown equity_curve;
     num_trades := to_int (Z.of_nat (length pnls));
     win_rate :=
       match pnls with
       | [] => 0
       | _ :: _ =>
           (double_of_int (count_wins pnls) / double_of_size (length pnls))
           * 100
       end;
     sharpe_ratio := calculateSharpeRatio equity_curve |}.

(** Body of the loop of [runReturnPermutation] after the shuffle;
    [equity_curve.reserve(num_days + 1)] takes an [int]. *)
Definition return_path_result (num_days : Z) (permuted_returns : list double)
    : result SimulationResult :=
  _ <- reserve (num_days + 1) ;;
  let '(capital, equity_curve) := compound 100000 [100000] permuted_returns in
  Returned
    {| final_value := capital;
       total_return_pct := ((capital - 100000) / 100000) * 100;
       max_drawdown_pct := calculateMaxDrawdown equity_curve;
       num_trades := Z.quot num_days 20;
       win_rate := 50;
       sharpe_ratio := calculateSharpeRatio equity_curve |}.

End PathEvaluator.

(** ** Aggregation helpers (monte_carlo.cpp) *)

Section Statistics.

Local Open Scope float_scope.

(** The lambda [get_percentile] of [computePercentiles]; [values] is the
    sorted vector it captures. *)
Definition percentile_index (p : double) (size : nat) : nat :=
  static_cast_size (p * double_of_size (size - 1) / 100).

Definition get_percentile (values : list double) (p : double) : double :=
  match values with
  | [] => 0
  | _ :: _ => nth (percentile_index p (length values)) values 0
  end.

(** [std::min_element] and [std::max_element]: the first smallest and the
    first largest element under [<]. *)
Definition min_element (l : list double) : option double :=
  match l with
  | [] => None
  | x :: rest => Some (fold_left (fun m y => if y <? m then y else m) rest x)
  end.

Definition max_element (l : list double) : option double :=
  match l with
  | [] => None
  | x :: rest => Some (fold_left (fun m y => if m <? y then y else m) rest x)
  end.

(** [hist[bin]++] on a vector. *)
Fixpoint increment (bin : nat) (hist : list Z) : list Z :=
  match hist, bin with
  | [], _ => []
  | c :: rest, O => (c + 1)%Z :: rest
  | c :: rest, S b => c :: increment b rest
  end.

(** One round of the histogram loop of [runAnalysis]. *)
Definition histogram_add (dmin bin_width : double) (hist : list Z)
    (ret : double) : list Z :=
  let bin := static_cast_int ((ret - dmin) / bin_width) in
  if ((0 <=? bin) && (bin <? 20))%Z then increment (Z.to_nat bin) hist
  else hist.

(** [v.resize(n, value)] on a vector of counters. *)
Definition resize (n : nat) (value : Z) (v : list Z) : list Z :=
  firstn n v ++ repeat value (n - length v).

(** The test [bin >= 0 && bin < 20] of the histogram loop, on the bucket
    index computed for [ret]. *)
Definition counted (dmin bin_width ret : double) : bool :=
  let bin := static_cast_int ((ret - dmin) / bin_width) in
  ((0 <=? bin) && (bin <? 20))%Z.

(** The block "Build histogram (20 bins)" of [runAnalysis]:
    [return_distribution.resize(20, 0)], then the two bounds and the
    buckets, which are assigned only for a non-empty pool. *)
Definition build_histogram (returns : list double)
    (result : MonteCarloAnalysis) : MonteCarloAnalysis :=
  let result :=
    set_return_distribution result
      (resize 20 0%Z (return_distribution result)) in
  match min_element returns, max_element returns with
  | Some dmin, Some dmax =>
      let result := set_distribution_min result (Some dmin) in
      let result := set_distribution_max result (Some dmax) in
      let bin_width := (dmax - dmin) / 20 in
      if 0 <? bin_width
      then
        set_return_distribution result
          (fold_left (histogram_add dmin bin_width) returns
             (return_distribution result))
      else result
  | _, _ => result
  end.

Definition computePValue (observed_value : double)
    (simulated_values : list double) : double :=
  match simulated_values with
  | [] => 1
  | _ :: _ =>
      let count_better :=
        fold_left
          (fun count sim_val =>
             if observed_value <=? sim_val then (count + 1)%Z else count)
          simulated_values 0%Z in
      double_of_int count_better / double_of_size (length simulated_values)
  end.

End Statistics.

(** ** The engine (monte_carlo.cpp) *)

Section Engine.

Context {RNG : StdRandom} {SORT : StdSort}.

Local Open Scope float_scope.

Record MonteCarloEngine : Type := {
  rng_ : rng_state;
  original_trades_ : list Trade;
  daily_returns_ : list double;
  prices_ : list double
}.

(** The constructor.  [entropy] is the value [std::random_device{}()]
    yields at that moment; it is consulted only for [seed == 0]. *)
Definition new_engine (seed entropy : Z) : MonteCarloEngine :=
  {| rng_ := mt19937_64 (if (seed =? 0)%Z then entropy else seed);
     original_trades_ := [];
     daily_returns_ := [];
     prices_ := [] |}.

Definition setTrades (trades : list Trade) (e : MonteCarloEngine) :=
  {| rng_ := rng_ e;
     original_trades_ := trades;
     daily_returns_ := daily_returns_ e;
     prices_ := prices_ e |}.

Definition setReturns (returns : list double) (e : MonteCarloEngine) :=
  {| rng_ := rng_ e;
     original_trades_ := original_trades_ e;
     daily_returns_ := returns;
     prices_ := prices_ e |}.

Definition setPrices (prices : list double) (e : MonteCarloEngine) :=
  {| rng_ := rng_ e;
     original_trades_ := original_trades_ e;
     daily_returns_ := daily_returns_ e;
     prices_ := prices |}.

(** The engine after its generator has advanced to [g]. *)
Definition with_rng (e : MonteCarloEngine) (g : rng_state) :=
  {| rng_ := g;
     original_trades_ := original_trades_ e;
     daily_returns_ := daily_returns_ e;
     prices_ := prices_ e |}.

(** [trade_pnls]: the P&L percentages of the stored trades as fractions. *)
Definition trade_pnls_of (trades : list Trade) : list double :=
  map (fun trade => pnl_pct trade / 100) trades.

(** *** runPositionShuffle *)

Fixpoint position_shuffle_loop (count : nat) (trade_pnls : list double)
    (g : rng_state) : list SimulationResult * rng_state :=
  match count with
  | O => ([], g)
  | S count' =>
      let '(shuffled_pnls, g1) := std_shuffle trade_pnls g in
      let sim := trade_path_result shuffled_pnls in
      let '(results, g2) := position_shuffle_loop count' trade_pnls g1 in
      (sim :: results, g2)
  end.

Definition runPositionShuffle (num_simulations : Z) (e : MonteCarloEngine)
    : result (list SimulationResult * MonteCarloEngine) :=
  _ <- reserve num_simulations ;;
  match original_trades_ e with
  | [] => Returned ([], e)
  | _ :: _ =>
      let trade_pnls := trade_pnls_of (original_trades_ e) in
      let '(results, g) :=
        position_shuffle_loop (Z.to_nat num_simulations) trade_pnls (rng_ e) in
      Returned (results, with_rng e g)
  end.

(** *** runReturnPermutation *)

Fixpoint return_permutation_loop (count : nat) (num_days : Z)
    (daily_returns : list double) (g : rng_state)
    : result (list SimulationResult * rng_state) :=
  match count with
  | O => Returned ([], g)
  | S count' =>
      let '(permuted_returns, g1) := std_shuffle daily_returns g in
      sim <- return_path_result num_days permuted_returns ;;
      '(results, g2) <-
        return_permutation_loop count' num_days daily_returns g1 ;;
      Returned (sim :: results, g2)
  end.

Definition runReturnPermutation (num_simulations : Z) (e : MonteCarloEngine)
    : result (list SimulationResult * MonteCarloEngine) :=
  _ <- reserve num_simulations ;;
  match daily_returns_ e with
  | [] => Returned ([], e)
  | _ :: _ =>
      let num_days := to_int (Z.of_nat (length (daily_returns_ e))) in
      '(results, g) <-
        return_permutation_loop (Z.to_nat num_simulations) num_days
          (daily_returns_ e) (rng_ e) ;;
      Returned (results, with_rng e g)
  end.

(** *** runBootstrap *)

(** The inner loop [for (size_t j = 0; j < trade_pnls.size(); ++j)], with
    [dist] ranging over [0 .. trade_pnls.size() - 1]. *)
Fixpoint bootstrap_sample (draws : nat) (trade_pnls : list double)
    (g : rng_state) : list double * rng_state :=
  match draws with
  | O => ([], g)
  | S draws' =>
      let '(idx, g1) :=
        uniform_int_distribution (length trade_pnls - 1) g in
      let '(sample, g2) := bootstrap_sample draws' trade_pnls g1 in
      (nth idx trade_pnls 0 :: sample, g2)
  end.

Fixpoint bootstrap_loop (count : nat) (trade_pnls : list double)
    (g : rng_state) : list SimulationResult * rng_state :=
  match count with
  | O => ([], g)
  | S count' =>
      let '(bootstrapped_pnls, g1) :=
        bootstrap_sample (length trade_pnls) trade_pnls g in
      let sim := trade_path_result bootstrapped_pnls in
      let '(results, g2) := bootstrap_loop count' trade_pnls g1 in
      (sim :: results, g2)
  end.

Definition runBootstrap (num_simulations : Z) (e : MonteCarloEngine)
    : result (list SimulationResult * MonteCarloEngine) :=
  _ <- reserve num_simulations ;;
  match original_trades_ e with
  | [] => Returned ([], e)
  | _ :: _ =>
      let trade_pnls := trade_pnls_of (original_trades_ e) in
      let '(results, g) :=
        bootstrap_loop (Z.to_nat num_simulations) trade_pnls (rng_ e) in
      Returned (results, with_rng e g)
  end.

(** *** The outcome sequences behind the paths

    The sequences the generators draw are local to their loops.  The
    functions below replay the draws and return the sequences themselves, in
    path order; [position_shuffle_loop_sequences] and its two siblings (in
    the properties) show that each generator's results are the evaluations
    of exactly these sequences. *)

Fixpoint shuffle_sequences (count : nat) (l : list double) (g : rng_state)
    : list (list double) :=
  match count with
  | O => []
  | S count' =>
      let '(shuffled, g1) := std_shuffle l g in
      shuffled :: shuffle_sequences count' l g1
  end.

Fixpoint bootstrap_sequences (count : nat) (trade_pnls : list double)
    (g : rng_state) : list (list double) :=
  match count with
  | O => []
  | S count' =>
      let '(sample, g1) :=
        bootstrap_sample (length trade_pnls) trade_pnls g in
      sample :: bootstrap_sequences count' trade_pnls g1
  end.

(** Outcome sequences of [runPositionShuffle], [runReturnPermutation] and
    [runBootstrap] called on [e] for [n] paths. *)
Definition position_shuffle_outcomes (n : Z) (e : MonteCarloEngine) :=
  match original_trades_ e with
  | [] => []
  | _ :: _ =>
      shuffle_sequences (Z.to_nat n) (trade_pnls_of (original_trades_ e))
        (rng_ e)
  end.

Definition return_permutation_outcomes (n : Z) (e : MonteCarloEngine) :=
  match daily_returns_ e with
  | [] => []
  | _ :: _ => shuffle_sequences (Z.to_nat n) (daily_returns_ e) (rng_ e)
  end.

Definition bootstrap_outcomes (n : Z) (e : MonteCarloEngine) :=
  match original_trades_ e with
  | [] => []
  | _ :: _ =>
      bootstrap_sequences (Z.to_nat n) (trade_pnls_of (original_trades_ e))
        (rng_ e)
  end.

(** *** computePercentiles *)

(** [computePercentiles(values, result)] sorts [values] in place and
    assigns the five percentile members of [result]. *)
Definition computePercentiles (values : list double)
    (result : MonteCarloAnalysis) : list double * MonteCarloAnalysis :=
  match values with
  | [] => (values, set_percentiles result 0 0 0 0 0)
  | _ :: _ =>
      let values := std_sort values in
      (values,
       set_percentiles result
         (get_percentile values 5) (get_percentile values 25)
         (get_percentile values 50) (get_percentile values 75)
         (get_percentile values 95))
  end.

(** *** runAnalysis *)

(** The second half of [runAnalysis] ("Combine all results" to the end of
    the histogram block): the work on [result] once the three generators
    have returned. *)
Definition aggregate (result : MonteCarloAnalysis)
    (shuffle_results perm_results bootstrap_results : list SimulationResult)
    : MonteCarloAnalysis :=
  let result :=
    set_simulations result
      (((simulations result ++ shuffle_results) ++ perm_results)
       ++ bootstrap_results) in
  let returns := map total_return_pct (simulations result) in
  let '(returns, result) := computePercentiles returns result in
  let result := set_ci_lower_95 result (percentile_5 result) in
  let result := set_ci_upper_95 result (percentile_95 result) in
  build_histogram returns result.

Definition runAnalysis (config : SimulationConfig) (e : MonteCarloEngine)
    : result (MonteCarloAnalysis * MonteCarloEngine) :=
  let result := uninitialised in
  let result := set_seed_used result (seed config) in
  let result := set_num_trials result (num_simulations config) in
  let per_generator := to_int (num_simulations config / 3) in
  '(shuffle_results, e1) <- runPositionShuffle per_generator e ;;
  '(perm_results, e2) <- runReturnPermutation per_generator e1 ;;
  '(bootstrap_results, e3) <- runBootstrap per_generator e2 ;;
  Returned
    (aggregate result shuffle_results perm_results bootstrap_results, e3).

(** The pooled [total_return_pct] values of a report. *)
Definition pooled_returns (report : MonteCarloAnalysis) : list double :=
  map total_return_pct (simulations report).

(** What a generator leaves behind when it returns: at most the requested
    number of paths, and an engine holding the same input. *)
Definition generator_post (n : Z) (e : MonteCarloEngine)
    (r : result (list SimulationResult * MonteCarloEngine)) : Prop :=
  match r with
  | Returned (sims, e') =>
      0 <= n
      /\ (length sims <= Z.to_nat n)%nat
      /\ original_trades_ e' = original_trades_ e
      /\ daily_returns_ e' = daily_returns_ e
  | Thrown _ => True
  end.

(** Two reports carry the same statistics: the per-path results, the
    percentiles, the confidence interval and the histogram with its
    bounds. *)
Definition same_statistics (r1 r2 : MonteCarloAnalysis) : Prop :=
  simulations r1 = simulations r2
  /\ percentile_5 r1 = percentile_5 r2
  /\ percentile_25 r1 = percentile_25 r2
  /\ percentile_50 r1 = percentile_50 r2
  /\ percentile_75 r1 = percentile_75 r2
  /\ percentile_95 r1 = percentile_95 r2
  /\ ci_lower_95 r1 = ci_lower_95 r2
  /\ ci_upper_95 r1 = ci_upper_95 r2
  /\ return_distribution r1 = return_distribution r2
  /\ distribution_min r1 = distribution_min r2
  /\ distribution_max r1 = distribution_max r2.

(** Two calls of [runAnalysis], under configurations [c1] and [c2], that
    went the same way: both threw the same exception, or both returned,
    leaving the same engine state and reports that differ at most in the
    metadata copied from the configuration; [paths_max] bounds the number
    of paths. *)
Definition same_analysis (c1 c2 : SimulationConfig) (paths_max : Z)
    (run1 run2 : result (MonteCarloAnalysis * MonteCarloEngine)) : Prop :=
  match run1, run2 with
  | Returned (r1, e1), Returned (r2, e2) =>
      e1 = e2
      /\ same_statistics r1 r2
      /\ seed_used r1 = Some (seed c1)
      /\ seed_used r2 = Some (seed c2)
      /\ num_trials r1 = Some (num_simulations c1)
      /\ num_trials r2 = Some (num_simulations c2)
      /\ Z.of_nat (length (simulations r1)) <= paths_max
  | Thrown ex1, Thrown ex2 => ex1 = ex2
  | _, _ => False
  end.


End Engine.

(** ** A reference implementation of the two interfaces

    A 64-bit linear congruential generator with a selection shuffle, and
    insertion sort.  They show that the interfaces can be met and let the
    engine be run on concrete inputs. *)

Module Reference.

Definition lcg_next (g : Z) : Z :=
  (g * 6364136223846793005 + 1442695040888963407) mod 2 ^ 64.

(** [extract k x l] takes the [k]-th element out of [x :: l]. *)
Fixpoint extract (k : nat) (x : double) (l : list double)
    : double * list double :=
  match k, l with
  | S k', y :: l' => let '(z, rest) := extract k' y l' in (z, x :: rest)
  | _, _ => (x, l)
  end.

Fixpoint shuffle_aux (fuel : nat) (l : list double) (g : Z)
    : list double * Z :=
  match fuel, l with
  | S fuel', x :: l' =>
      let g1 := lcg_next g in
      let '(z, rest) :=
        extract (Z.to_nat (g1 mod Z.of_nat (length l))) x l' in
      let '(tail, g2) := shuffle_aux fuel' rest g1 in
      (z :: tail, g2)
  | _, _ => (l, g)
  end.

Definition shuffle (l : list double) (g : Z) : list double * Z :=
  shuffle_aux (length l) l g.

Definition uniform (hi : nat) (g : Z) : nat * Z :=
  let g1 := lcg_next g in
  (Z.to_nat (g1 mod (Z.of_nat hi + 1)), g1).

Fixpoint insert (x : double) (l : list double) : list double :=
  match l with
  | [] => [x]
  | y :: rest => if (x <? y)%float then x :: l else y :: insert x rest
  end.

Fixpoint insertion_sort (l : list double) : list double :=
  match l with
  | [] => []
  | x :: rest => insert x (insertion_sort rest)
  end.

End Reference.

(** ** The quantities of the specification

    Definitions that follow the wording of the specification, to be
    compared with the functions translated from the source. *)

Module Spec.

Local Open Scope float_scope.

(** "fraction of a given simulated-value population whose value is >= the
    observed value". *)
Definition at_least (observed v : double) : bool := observed <=? v.

Definition count_at_least (observed : double) (simulated : list double)
    : nat :=
  length (filter (at_least observed) simulated).

Definition p_value (observed : double) (simulated : list double) : double :=
  match simulated with
  | [] => 1
  | _ :: _ =>
      double_of_size (count_at_least observed simulated)
      / double_of_size (length simulated)
  end.

(** "step-over-step returns from the equity curve
    ((v[i]-v[i-1])/v[i-1])". *)
Fixpoint step_returns_from (prev : double) (rest : list double)
    : list double :=
  match rest with
  | [] => []
  | v :: rest' => (v - prev) / prev :: step_returns_from v rest'
  end.

Definition step_returns (curve : list double) : list double :=
  match curve with
  | [] => []
  | v0 :: rest => step_returns_from v0 rest
  end.

Definition sum (xs : list double) : double := fold_left PrimFloat.add xs 0.

Definition mean (xs : list double) : double :=
  sum xs / double_of_size (length xs).

(** Population standard deviation: the root of the mean squared
    deviation from the mean. *)
Definition population_stddev (xs : list double) : double :=
  let m := mean xs in
  sqrt (fold_left (fun acc x => acc + (x - m) * (x - m)) xs 0
        / double_of_size (length xs)).

(** "mean/stddev * sqrt(252) ... 0 when fewer than 2 equity points exist
    or when standard deviation is exactly zero". *)
Definition sharpe_ratio (curve : list double) : double :=
  if (length curve <? 2)%nat then 0
  else
    let rs := step_returns curve in
    if population_stddev rs =? 0 then 0
    else mean rs / population_stddev rs * sqrt 252.

End Spec.

(** ** Sample inputs *)

Module Samples.

Local Open Scope float_scope.

Definition trade (pnl : double) : Trade :=
  {| entry_price := 100;
     exit_price := 100 + pnl;
     days_held := 5;
     pnl_pct := pnl;
     is_win := 0 <? pnl |}.

Definition trades : list Trade := map trade [5; -3; 2; 7; -1; 4].

Definition returns : list double := [0.01; -0.02; 0.03; 0.015; -0.01].

Definition config (n sd : Z) : SimulationConfig :=
  {| num_simulations := n;
     seed := sd;
     initial_capital := 100000;
     risk_per_trade := 0.02;
     atr_multiplier := 3;
     tax_rate := 0.002;
     use_position_shuffle := true;
     use_return_permutation := true;
     use_bootstrap := true |}.

(** A configuration with every unused member changed. *)
Definition other_config (n sd : Z) : SimulationConfig :=
  {| num_simulations := n;
     seed := sd;
     initial_capital := 5000;
     risk_per_trade := 0.5;
     atr_multiplier := 1;
     tax_rate := 0.3;
     use_position_shuffle := false;
     use_return_permutation := false;
     use_bootstrap := false |}.

End Samples.

(** ** Binary64 encodings used in the proofs *)

(** A shift record with no bit lost so far. *)
Definition exact_record (m : Z) : shr_record :=
  {| shr_m := m; shr_r := false; shr_s := false |}.

(** The binary64 encoding of an integer [0 < K < 2^53]: a 53-bit mantissa
    and the matching exponent. *)
Definition canon (K : Z) : spec_float :=
  S754_finite false (Z.to_pos (K * 2 ^ (52 - Z.log2 K))) (Z.log2 K - 52).

(** The place of a double that is not a NaN in the order of [<]: its class
    first (negative infinity, negative, zero, positive, positive
    infinity), then exponent and mantissa. *)
Definition sf_rank (x : spec_float) : Z * Z * Z :=
  match x with
  | S754_zero _ => (0, 0, 0)
  | S754_infinity false => (2, 0, 0)
  | S754_infinity true => (-2, 0, 0)
  | S754_nan => (0, 0, 0)
  | S754_finite false m e => (1, e, Zpos m)
  | S754_finite true m e => (-1, - e, - Zpos m)
  end.

Definition double_rank (x : double) : Z * Z * Z := sf_rank (Prim2SF x).

Definition lex_compare (a b : Z * Z * Z) : comparison :=
  let '(a1, a2, a3) := a in
  let '(b1, b2, b3) := b in
  match a1 ?= b1 with
  | Eq => match a2 ?= b2 with Eq => a3 ?= b3 | c => c end
  | c => c
  end.

(** ** Relations between runs *)

Section Runs.

Context {RNG : StdRandom}.

(** Two engines hold the same input as far as the generators read it: the
    same generator state, the same P&L percentages trade by trade, and the
    same daily returns. *)
Definition same_read_input (e1 e2 : MonteCarloEngine) : Prop :=
  rng_ e1 = rng_ e2
  /\ map pnl_pct (original_trades_ e1) = map pnl_pct (original_trades_ e2)
  /\ daily_returns_ e1 = daily_returns_ e2.

(** Two calls that went the same way: the same exception, or the same
    value returned with engines that still hold the same read input. *)
Definition same_outcome {A : Type}
    (run1 run2 : result (A * MonteCarloEngine)) : Prop :=
  match run1, run2 with
  | Returned (a1, e1), Returned (a2, e2) => a1 = a2 /\ same_read_input e1 e2
  | Thrown ex1, Thrown ex2 => ex1 = ex2
  | _, _ => False
  end.

End Runs.

(** ** The binding layer (bindings.cpp) *)

(** The texts [runMonteCarlo] chooses its interpretation from. *)
Definition STRONG_SIGNAL : string :=
  "STRONG_SIGNAL: Strategy significantly outperforms random permutations (>95th percentile). Results are likely NOT due to luck."%string.

Definition MODERATE_SIGNAL : string :=
  "MODERATE_SIGNAL: Strategy performs better than 75% of random permutations. Results suggest skill over luck."%string.

Definition WEAK_SIGNAL : string :=
  "WEAK_SIGNAL: Strategy performs above median but not exceptionally. Results may have some skill component."%string.

Definition NO_SIGNAL : string :=
  "NO_SIGNAL: Strategy does not outperform random permutations. Results likely due to luck."%string.

(** The object [runMonteCarlo] builds, one member per key and in the order
    of its [result.set] calls.  A member copied or computed from a member
    of the analysis that was never assigned is indeterminate too
    ([None]). *)
Record MonteCarloResultObject : Type := {
  js_seed_used : option Z;
  js_num_trials : option Z;
  js_original_return : option double;
  js_original_sharpe : option double;
  js_original_max_dd : option double;
  js_percentile_5 : option double;
  js_percentile_25 : option double;
  js_percentile_50 : option double;
  js_percentile_75 : option double;
  js_percentile_95 : option double;
  js_ci_lower_95 : option double;
  js_ci_upper_95 : option double;
  js_p_value_strategy_vs_random : option double;
  js_p_value_strategy_vs_bootstrap : option double;
  js_return_distribution : list Z;
  js_distribution_min : option double;
  js_distribution_max : option double;
  sample_simulations : list SimulationResult;
  mean_return : double;
  mean_sharpe : double;
  mean_max_drawdown : double;
  interpretation : option string
}.

(** The configuration [runMonteCarlo] builds: the defaults of
    [SimulationConfig] with its two arguments stored; the [int] argument
    is converted to the [uint32_t] member. *)
Definition binding_config (requested seed_arg : Z) : SimulationConfig :=
  {| num_simulations := requested mod 2 ^ 32;
     seed := seed_arg;
     initial_capital := initial_capital default_config;
     risk_per_trade := risk_per_trade default_config;
     atr_multiplier := atr_multiplier default_config;
     tax_rate := tax_rate default_config;
     use_position_shuffle := use_position_shuffle default_config;
     use_return_permutation := use_return_permutation default_config;
     use_bootstrap := use_bootstrap default_config |}.

Section Binding.

Context {RNG : StdRandom} {SORT : StdSort}.

Local Open Scope float_scope.

(** The chain of comparisons under "Interpretation". *)
Definition interpret (original_return percentile_95 percentile_75
    percentile_50 : double) : string :=
  if percentile_95 <? original_return then STRONG_SIGNAL
  else if percentile_75 <? original_return then MODERATE_SIGNAL
  else if percentile_50 <? original_return then WEAK_SIGNAL
  else NO_SIGNAL.

Definition interpretation_of (analysis : MonteCarloAnalysis)
    : option string :=
  match original_return analysis, percentile_95 analysis,
        percentile_75 analysis, percentile_50 analysis with
  | Some o, Some q95, Some q75, Some q50 => Some (interpret o q95 q75 q50)
  | _, _, _, _ => None
  end.

(** "Add individual simulation results (limited to first 100 for
    performance)": [sim_count] is an [int]. *)
Definition sample_of (sims : list SimulationResult)
    : list SimulationResult :=
  let sim_count := Z.min 100 (to_int (Z.of_nat (length sims))) in
  firstn (Z.to_nat sim_count) sims.

(** One of the three summary means: the sum over all simulations, divided
    by their number when there is one. *)
Definition summary_mean (member : SimulationResult -> double)
    (sims : list SimulationResult) : double :=
  let total := fold_left (fun acc sim => acc + member sim) sims 0 in
  match sims with
  | [] => total
  | _ :: _ => total / double_of_size (length sims)
  end.

(** [MonteCarloSimulatorJS::runMonteCarlo(int num_simulations,
    uint32_t seed)]; the [int] is converted to the [uint32_t] member of the
    configuration. *)
Definition runMonteCarlo (num_simulations seed : Z)
    (engine_ : MonteCarloEngine)
    : result (MonteCarloResultObject * MonteCarloEngine) :=
  let config :=
    binding_config num_simulations seed in
  '(analysis, engine_) <- runAnalysis config engine_ ;;
  Returned
    ({| js_seed_used := seed_used analysis;
        js_num_trials := num_trials analysis;
        js_original_return := original_return analysis;
        js_original_sharpe := original_sharpe analysis;
        js_original_max_dd := original_max_dd analysis;
        js_percentile_5 := percentile_5 analysis;
        js_percentile_25 := percentile_25 analysis;
        js_percentile_50 := percentile_50 analysis;
        js_percentile_75 := percentile_75 analysis;
        js_percentile_95 := percentile_95 analysis;
        js_ci_lower_95 := ci_lower_95 analysis;
        js_ci_upper_95 := ci_upper_95 analysis;
        js_p_value_strategy_vs_random :=
          p_value_strategy_vs_random analysis;
        js_p_value_strategy_vs_bootstrap :=
          p_value_strategy_vs_bootstrap analysis;
        js_return_distribution := return_distribution analysis;
        js_distribution_min := distribution_min analysis;
        js_distribution_max := distribution_max analysis;
        sample_simulations := sample_of (simulations analysis);
        mean_return := summary_mean total_return_pct (simulations analysis);
        mean_sharpe := summary_mean sharpe_ratio (simulations analysis);
        mean_max_drawdown :=
          summary_mean max_drawdown_pct (simulations analysis);
        interpretation := interpretation_of analysis |}, engine_).

Definition runQuickAnalysis (num_simulations seed : Z)
    (engine_ : MonteCarloEngine) :=
  runMonteCarlo num_simulations seed engine_.

End Binding.

(** Assignment to the key [seed_used] of the object. *)
Definition with_js_seed_used (o : MonteCarloResultObject) (v : option Z)
    : MonteCarloResultObject :=
  {| js_seed_used := v;
     js_num_trials := js_num_trials o;
     js_original_return := js_original_return o;
     js_original_sharpe := js_original_sharpe o;
     js_original_max_dd := js_original_max_dd o;
     js_percentile_5 := js_percentile_5 o;
     js_percentile_25 := js_percentile_25 o;
     js_percentile_50 := js_percentile_50 o;
     js_percentile_75 := js_percentile_75 o;
     js_percentile_95 := js_percentile_95 o;
     js_ci_lower_95 := js_ci_lower_95 o;
     js_ci_upper_95 := js_ci_upper_95 o;
     js_p_value_strategy_vs_random := js_p_value_strategy_vs_random o;
     js_p_value_strategy_vs_bootstrap := js_p_value_strategy_vs_bootstrap o;
     js_return_distribution := js_return_distribution o;
     js_distribution_min := js_distribution_min o;
     js_distribution_max := js_distribution_max o;
     sample_simulations := sample_simulations o;
     mean_return := mean_return o;
     mean_sharpe := mean_sharpe o;
     mean_max_drawdown := mean_max_drawdown o;
     interpretation := interpretation o |}.

(** * Properties *)

(** ** Comparison of doubles *)

Lemma Prim2SF_nan (x : double) : is_nan x = false -> Prim2SF x <> S754_nan.
Proof.
  unfold Prim2SF. intros ->.
  destruct (is_zero x); [discriminate|].
  destruct (is_infinity x); [discriminate|].
  destruct (Z.frexp x) as [r ex].
  destruct (shr_fexp _ _ _ _ _) as [sh e'].
  destruct (shr_m sh); discriminate.
Qed.

Lemma SFcompare_antisym (x y : spec_float) :
  SFcompare y x = option_map CompOpp (SFcompare x y).
Proof.
  destruct x as [sx|sx| |sx mx ex], y as [sy|sy| |sy my ey]; simpl;
    try destruct sx; try destruct sy; try reflexivity;
    rewrite (Z.compare_antisym ex ey);
    destruct (ex ?= ey)%Z; simpl; try reflexivity;
    rewrite (Pos.compare_cont_antisym mx my Eq); simpl;
    destruct (Pos.compare_cont Eq mx my); reflexivity.
Qed.

Lemma SFcompare_defined (x y : spec_float) :
  x <> S754_nan -> y <> S754_nan -> exists c, SFcompare x y = Some c.
Proof.
  destruct x as [sx|sx| |sx mx ex], y as [sy|sy| |sy my ey]; simpl;
    intros Hx Hy; try congruence; eauto.
Qed.

Lemma ltb_leb (x y : double) :
  (x <? y)%float = true -> (x <=? y)%float = true.
Proof.
  rewrite ltb_spec, leb_spec. unfold SFltb, SFleb.
  destruct (SFcompare _ _) as [[]|]; congruence.
Qed.

Lemma ltb_false_leb (x y : double) :
  not_nan x -> not_nan y ->
  (x <? y)%float = false -> (y <=? x)%float = true.
Proof.
  intros Hx Hy. rewrite ltb_spec, leb_spec. unfold SFltb, SFleb.
  rewrite (SFcompare_antisym (Prim2SF x) (Prim2SF y)).
  destruct (SFcompare_defined (Prim2SF x) (Prim2SF y)) as [c ->];
    auto using Prim2SF_nan.
  destruct c; simpl; congruence.
Qed.

(** ** The reference implementation meets the interfaces *)

Lemma extract_permutation (k : nat) (x : double) (l : list double) :
  Permutation (x :: l)
    (fst (Reference.extract k x l) :: snd (Reference.extract k x l)).
Proof.
  revert x l. induction k as [|k IH]; intros x [|y l]; simpl; auto.
  specialize (IH y l). destruct (Reference.extract k y l) as [z rest].
  simpl in *.
  apply (perm_trans (l' := x :: z :: rest)); [now apply perm_skip|].
  apply perm_swap.
Qed.

Lemma shuffle_aux_permutation (fuel : nat) (l : list double) (g : Z) :
  Permutation l (fst (Reference.shuffle_aux fuel l g)).
Proof.
  revert l g. induction fuel as [|fuel IH]; intros [|x l] g; simpl; auto.
  pose proof
    (extract_permutation
       (Z.to_nat (Reference.lcg_next g mod Z.of_nat (S (length l)))) x l)
    as Hex.
  destruct (Reference.extract _ x l) as [z rest]. simpl in Hex.
  specialize (IH rest (Reference.lcg_next g)).
  destruct (Reference.shuffle_aux fuel rest _) as [tail g2]. simpl in *.
  rewrite Hex. now apply perm_skip.
Qed.

Lemma uniform_range (hi : nat) (g : Z) :
  (fst (Reference.uniform hi g) <= hi)%nat.
Proof.
  unfold Reference.uniform. simpl.
  pose proof (Z.mod_pos_bound (Reference.lcg_next g) (Z.of_nat hi + 1)).
  lia.
Qed.

Lemma insert_permutation (x : double) (l : list double) :
  Permutation (x :: l) (Reference.insert x l).
Proof.
  induction l as [|y l IH]; simpl; auto.
  destruct (x <? y)%float; auto.
  rewrite perm_swap. now apply perm_skip.
Qed.

Lemma insertion_sort_permutation (l : list double) :
  Permutation l (Reference.insertion_sort l).
Proof.
  induction l as [|x l IH]; simpl; auto.
  rewrite <- insert_permutation. now apply perm_skip.
Qed.

Lemma insert_sorted (x : double) (l : list double) :
  not_nan x -> Forall not_nan l ->
  Sorted double_le l -> Sorted double_le (Reference.insert x l).
Proof.
  intros Hx Hl Hs. induction Hs as [|y l Hs IH Hhd]; simpl.
  - repeat constructor.
  - inversion Hl as [|? ? Hy Hl']; subst.
    destruct (x <? y)%float eqn:E.
    + constructor; [now constructor|].
      constructor. now apply ltb_leb.
    + constructor; [now apply IH|].
      destruct l as [|z l]; simpl.
      * constructor. now apply ltb_false_leb.
      * destruct (x <? z)%float; constructor.
        -- now apply ltb_false_leb.
        -- now inversion Hhd.
Qed.

Lemma insertion_sort_sorted (l : list double) :
  Forall not_nan l -> Sorted double_le (Reference.insertion_sort l).
Proof.
  induction 1 as [|x l Hx Hl IH]; simpl; [constructor|].
  apply insert_sorted; auto.
  eapply Permutation_Forall; [apply insertion_sort_permutation|assumption].
Qed.

#[export] Instance reference_random : StdRandom := {|
  rng_state := Z;
  mt19937_64 := fun seed => seed mod 2 ^ 64;
  std_shuffle := Reference.shuffle;
  uniform_int_distribution := Reference.uniform;
  std_shuffle_permutation :=
    fun l g => shuffle_aux_permutation (length l) l g;
  uniform_int_distribution_range := uniform_range
|}.

#[export] Instance reference_sort : StdSort := {|
  std_sort := Reference.insertion_sort;
  std_sort_permutation := insertion_sort_permutation;
  std_sort_sorted := insertion_sort_sorted
|}.

(** ** Machine integers *)

Lemma to_int_small (z : Z) : - 2 ^ 31 <= z <= INT_MAX -> to_int z = z.
Proof.
  unfold to_int, INT_MAX. intros H.
  rewrite Z.mod_small by lia. lia.
Qed.

Lemma reserve_nonneg (n : Z) : 0 <= n -> reserve n = Returned tt.
Proof.
  unfold reserve. intros H. destruct (Z.ltb_spec n 0); [lia|reflexivity].
Qed.

Lemma reserve_negative (n : Z) : n < 0 -> reserve n = Thrown length_error.
Proof.
  unfold reserve. intros H. destruct (Z.ltb_spec n 0); [reflexivity|lia].
Qed.

(** ** The generators and their outcome sequences *)

Section Generators.

Context {RNG : StdRandom} {SORT : StdSort}.

Lemma shuffle_sequences_length (count : nat) (l : list double) (g : rng_state) :
  length (shuffle_sequences count l g) = count.
Proof.
  revert g. induction count as [|count IH]; intros g; simpl; [reflexivity|].
  destruct (std_shuffle l g) as [s g1]. simpl. now rewrite IH.
Qed.

Lemma shuffle_sequences_permutation (count : nat) (l : list double)
    (g : rng_state) :
  Forall (Permutation l) (shuffle_sequences count l g).
Proof.
  revert g. induction count as [|count IH]; intros g; simpl; [constructor|].
  pose proof (std_shuffle_permutation l g) as Hp.
  destruct (std_shuffle l g) as [s g1]. simpl in Hp.
  constructor; auto.
Qed.

Lemma bootstrap_sample_length (draws : nat) (l : list double) (g : rng_state) :
  length (fst (bootstrap_sample draws l g)) = draws.
Proof.
  revert g. induction draws as [|draws IH]; intros g; simpl; [reflexivity|].
  destruct (uniform_int_distribution _ g) as [idx g1].
  specialize (IH g1). destruct (bootstrap_sample draws l g1) as [sample g2].
  simpl in *. now rewrite IH.
Qed.

Lemma bootstrap_sequences_length (count : nat) (l : list double)
    (g : rng_state) :
  length (bootstrap_sequences count l g) = count.
Proof.
  revert g. induction count as [|count IH]; intros g; simpl; [reflexivity|].
  destruct (bootstrap_sample _ l g) as [s g1]. simpl. now rewrite IH.
Qed.

Lemma bootstrap_sequences_sizes (count : nat) (l : list double)
    (g : rng_state) :
  Forall (fun seq => length seq = length l) (bootstrap_sequences count l g).
Proof.
  revert g. induction count as [|count IH]; intros g; simpl; [constructor|].
  pose proof (bootstrap_sample_length (length l) l g) as Hlen.
  destruct (bootstrap_sample _ l g) as [s g1]. simpl in Hlen.
  constructor; auto.
Qed.

(** The results of the shuffle loop are the evaluations of its sequences. *)
Lemma position_shuffle_loop_sequences (count : nat) (l : list double)
    (g : rng_state) :
  fst (position_shuffle_loop count l g)
  = map trade_path_result (shuffle_sequences count l g).
Proof.
  revert g. induction count as [|count IH]; intros g; simpl; [reflexivity|].
  destruct (std_shuffle l g) as [s g1]. specialize (IH g1).
  destruct (position_shuffle_loop count l g1) as [rs g2]. simpl in *.
  now rewrite IH.
Qed.

Lemma bootstrap_loop_sequences (count : nat) (l : list double)
    (g : rng_state) :
  fst (bootstrap_loop count l g)
  = map trade_path_result (bootstrap_sequences count l g).
Proof.
  revert g. induction count as [|count IH]; intros g; simpl; [reflexivity|].
  destruct (bootstrap_sample _ l g) as [s g1]. specialize (IH g1).
  destruct (bootstrap_loop count l g1) as [rs g2]. simpl in *.
  now rewrite IH.
Qed.

(** The permutation loop returns when [reserve (num_days + 1)] does, and
    its results are the evaluations of its sequences. *)
Lemma return_permutation_loop_sequences (count : nat) (num_days : Z)
    (l : list double) (g : rng_state) :
  0 <= num_days + 1 ->
  exists sims g',
    return_permutation_loop count num_days l g = Returned (sims, g')
    /\ Forall2 (fun seq sim => return_path_result num_days seq = Returned sim)
         (shuffle_sequences count l g) sims.
Proof.
  intros Hnd. revert g.
  induction count as [|count IH]; intros g; simpl.
  - exists [], g. split; [reflexivity|constructor].
  - destruct (std_shuffle l g) as [s g1].
    destruct (IH g1) as (sims & g' & Hloop & Hall).
    unfold return_path_result at 1. rewrite (reserve_nonneg _ Hnd). simpl.
    destruct (compound _ _ s) as [capital curve] eqn:Hc.
    simpl. rewrite Hloop. simpl.
    eexists _, g'. split; [reflexivity|].
    constructor; [|exact Hall].
    unfold return_path_result. rewrite (reserve_nonneg _ Hnd). simpl.
    now rewrite Hc.
Qed.

Lemma return_path_result_num_trades (num_days : Z) (seq : list double)
    (sim : SimulationResult) :
  return_path_result num_days seq = Returned sim ->
  num_trades sim = Z.quot num_days 20.
Proof.
  unfold return_path_result, reserve.
  destruct (num_days + 1 <? 0); simpl; [discriminate|].
  destruct (compound _ _ seq) as [capital curve].
  intros [= <-]. reflexivity.
Qed.

Lemma trade_path_result_num_trades (pnls : list double) :
  num_trades (trade_path_result pnls) = to_int (Z.of_nat (length pnls)).
Proof.
  unfold trade_path_result.
  destruct (compound _ _ pnls) as [capital curve]. reflexivity.
Qed.

Lemma trade_path_result_win_rate (pnls : list double) :
  win_rate (trade_path_result pnls)
  = match pnls with
    | [] => 0%float
    | _ :: _ =>
        (double_of_int (count_wins pnls) / double_of_size (length pnls)
         * 100)%float
    end.
Proof.
  unfold trade_path_result.
  destruct (compound _ _ pnls) as [capital curve]. reflexivity.
Qed.

End Generators.

Lemma Forall2_map_right {A B : Type} (f : A -> B) (P : A -> B -> Prop)
    (l : list A) :
  Forall (fun x => P x (f x)) l -> Forall2 P l (map f l).
Proof. induction 1; simpl; constructor; auto. Qed.

Lemma Forall2_weaken {A B : Type} (P Q : A -> B -> Prop) (l : list A)
    (l' : list B) :
  (forall x y, In x l -> P x y -> Q x y) -> Forall2 P l l' -> Forall2 Q l l'.
Proof.
  intros H HP. induction HP; constructor.
  - apply H; simpl; auto.
  - apply IHHP. intros; apply H; simpl; auto.
Qed.

Lemma count_wins_filter (pnls : list double) :
  count_wins pnls
  = Z.of_nat (length (filter (fun pnl => (0 <? pnl)%float) pnls)).
Proof.
  unfold count_wins.
  enough (H : forall acc,
             fold_left
               (fun wins pnl => if (0 <? pnl)%float then wins + 1 else wins)
               pnls acc
             = acc + Z.of_nat
                       (length (filter (fun pnl => (0 <? pnl)%float) pnls)))
    by (rewrite H; lia).
  induction pnls as [|pnl pnls IH]; intros acc; simpl; [lia|].
  rewrite IH. destruct (0 <? pnl)%float; simpl; lia.
Qed.

Section GeneratorResults.

Context {RNG : StdRandom} {SORT : StdSort}.

Lemma runPositionShuffle_returns (n : Z) (e : MonteCarloEngine) :
  0 <= n ->
  exists e',
    runPositionShuffle n e
    = Returned (map trade_path_result (position_shuffle_outcomes n e), e').
Proof.
  intros Hn. unfold runPositionShuffle, position_shuffle_outcomes.
  rewrite (reserve_nonneg _ Hn). cbn [bind].
  destruct (original_trades_ e) as [|t ts]; [now exists e|].
  pose proof (position_shuffle_loop_sequences (Z.to_nat n)
                (trade_pnls_of (t :: ts)) (rng_ e)) as H.
  destruct (position_shuffle_loop _ _ _) as [rs g]. simpl in H. subst rs.
  now exists (with_rng e g).
Qed.

Lemma runBootstrap_returns (n : Z) (e : MonteCarloEngine) :
  0 <= n ->
  exists e',
    runBootstrap n e
    = Returned (map trade_path_result (bootstrap_outcomes n e), e').
Proof.
  intros Hn. unfold runBootstrap, bootstrap_outcomes.
  rewrite (reserve_nonneg _ Hn). cbn [bind].
  destruct (original_trades_ e) as [|t ts]; [now exists e|].
  pose proof (bootstrap_loop_sequences (Z.to_nat n)
                (trade_pnls_of (t :: ts)) (rng_ e)) as H.
  destruct (bootstrap_loop _ _ _) as [rs g]. simpl in H. subst rs.
  now exists (with_rng e g).
Qed.

Lemma runReturnPermutation_returns (n : Z) (e : MonteCarloEngine) :
  0 <= n ->
  Z.of_nat (length (daily_returns_ e)) < INT_MAX ->
  exists sims e',
    runReturnPermutation n e = Returned (sims, e')
    /\ Forall2
         (fun seq sim =>
            return_path_result (Z.of_nat (length (daily_returns_ e))) seq
            = Returned sim)
         (return_permutation_outcomes n e) sims.
Proof.
  intros Hn Hlen. unfold runReturnPermutation, return_permutation_outcomes.
  rewrite (reserve_nonneg _ Hn). cbn [bind].
  destruct (daily_returns_ e) as [|r rs] eqn:Hd.
  - exists [], e. split; [reflexivity|constructor].
  - rewrite to_int_small by (unfold INT_MAX in *; lia).
    destruct (return_permutation_loop_sequences (Z.to_nat n)
                (Z.of_nat (length (r :: rs))) (r :: rs) (rng_ e))
      as (sims & g' & Hloop & Hall); [lia|].
    rewrite Hloop. cbn [bind]. exists sims, (with_rng e g').
    split; [reflexivity|exact Hall].
Qed.

Lemma position_shuffle_outcomes_length (n : Z) (e : MonteCarloEngine) :
  original_trades_ e <> [] ->
  length (position_shuffle_outcomes n e) = Z.to_nat n.
Proof.
  unfold position_shuffle_outcomes.
  destruct (original_trades_ e); [congruence|].
  intros _. apply shuffle_sequences_length.
Qed.

Lemma position_shuffle_outcomes_permutation (n : Z) (e : MonteCarloEngine) :
  Forall (Permutation (trade_pnls_of (original_trades_ e)))
    (position_shuffle_outcomes n e).
Proof.
  unfold position_shuffle_outcomes.
  destruct (original_trades_ e); [constructor|].
  apply shuffle_sequences_permutation.
Qed.

Lemma return_permutation_outcomes_permutation (n : Z) (e : MonteCarloEngine) :
  Forall (Permutation (daily_returns_ e)) (return_permutation_outcomes n e).
Proof.
  unfold return_permutation_outcomes.
  destruct (daily_returns_ e); [constructor|].
  apply shuffle_sequences_permutation.
Qed.

Lemma bootstrap_outcomes_sizes (n : Z) (e : MonteCarloEngine) :
  Forall (fun seq => length seq = length (original_trades_ e))
    (bootstrap_outcomes n e).
Proof.
  unfold bootstrap_outcomes.
  destruct (original_trades_ e) as [|t ts] eqn:Ht; [constructor|].
  pose proof (bootstrap_sequences_sizes (Z.to_nat n)
                (trade_pnls_of (t :: ts)) (rng_ e)) as H.
  eapply Forall_impl; [|exact H].
  intros seq ->. unfold trade_pnls_of. apply length_map.
Qed.

End GeneratorResults.

(** ** Claims on the generators *)

Section GeneratorClaims.

Context {RNG : StdRandom} {SORT : StdSort}.

(** C1 (amended): for [n >= 0] requested paths and stored vectors whose
    sizes fit an [int], every result of [runPositionShuffle] and of
    [runBootstrap] is the evaluation of its outcome sequence and has
    [num_trades] equal to the length of that sequence; every result of
    [runReturnPermutation] is the evaluation of its permuted sequence and
    has [num_trades] equal to that length divided by 20, rounded down. *)
Theorem generators_num_trades (n : Z) (e : MonteCarloEngine) :
  0 <= n ->
  Z.of_nat (length (original_trades_ e)) <= INT_MAX ->
  Z.of_nat (length (daily_returns_ e)) < INT_MAX ->
  (exists sims e',
      runPositionShuffle n e = Returned (sims, e')
      /\ Forall2
           (fun seq sim =>
              sim = trade_path_result seq
              /\ num_trades sim = Z.of_nat (length seq))
           (position_shuffle_outcomes n e) sims)
  /\ (exists sims e',
         runBootstrap n e = Returned (sims, e')
         /\ Forall2
              (fun seq sim =>
                 sim = trade_path_result seq
                 /\ num_trades sim = Z.of_nat (length seq))
              (bootstrap_outcomes n e) sims)
  /\ (exists sims e',
         runReturnPermutation n e = Returned (sims, e')
         /\ Forall2
              (fun seq sim =>
                 return_path_result
                   (Z.of_nat (length (daily_returns_ e))) seq
                 = Returned sim
                 /\ num_trades sim = Z.of_nat (length seq) / 20)
              (return_permutation_outcomes n e) sims).
Proof.
  intros Hn Htrades Hdays. split; [|split].
  - destruct (runPositionShuffle_returns n e Hn) as [e' Hrun].
    eexists _, e'. split; [exact Hrun|].
    apply Forall2_map_right.
    eapply Forall_impl; [|apply position_shuffle_outcomes_permutation].
    intros seq Hperm. split; [reflexivity|].
    rewrite trade_path_result_num_trades.
    apply Permutation_length in Hperm.
    unfold trade_pnls_of in Hperm. rewrite length_map in Hperm.
    apply to_int_small. unfold INT_MAX in *. lia.
  - destruct (runBootstrap_returns n e Hn) as [e' Hrun].
    eexists _, e'. split; [exact Hrun|].
    apply Forall2_map_right.
    eapply Forall_impl; [|apply bootstrap_outcomes_sizes].
    intros seq Hlen. split; [reflexivity|].
    rewrite trade_path_result_num_trades.
    apply to_int_small. unfold INT_MAX in *. lia.
  - destruct (runReturnPermutation_returns n e Hn Hdays)
      as (sims & e' & Hrun & Hall).
    exists sims, e'. split; [exact Hrun|].
    pose proof (return_permutation_outcomes_permutation n e) as Hperm.
    rewrite Forall_forall in Hperm.
    eapply Forall2_weaken; [|exact Hall].
    intros seq sim Hin Hres. split; [exact Hres|].
    rewrite (return_path_result_num_trades _ _ _ Hres).
    rewrite <- (Permutation_length (Hperm seq Hin)).
    apply Z.quot_div_nonneg; lia.
Qed.

(** C6: for a non-empty stored trade list (of a size that fits an [int])
    and [n >= 0], [runPositionShuffle] returns [n] results; each is the
    evaluation of an outcome sequence that is a permutation of the
    fractional P&L sequence of the stored trades, its [num_trades] is the
    number of stored trades, and its [win_rate] is the number of positive
    entries of the shuffled sequence over its length, times 100. *)
Theorem runPositionShuffle_paths (n : Z) (e : MonteCarloEngine) :
  0 <= n ->
  original_trades_ e <> [] ->
  Z.of_nat (length (original_trades_ e)) <= INT_MAX ->
  exists sims e',
    runPositionShuffle n e = Returned (sims, e')
    /\ length sims = Z.to_nat n
    /\ Forall2
         (fun seq sim =>
            sim = trade_path_result seq
            /\ Permutation (trade_pnls_of (original_trades_ e)) seq
            /\ num_trades sim = Z.of_nat (length (original_trades_ e))
            /\ win_rate sim
               = (double_of_int
                    (Z.of_nat
                       (length (filter (fun pnl => (0 <? pnl)%float) seq)))
                  / double_of_size (length seq) * 100)%float)
         (position_shuffle_outcomes n e) sims.
Proof.
  intros Hn Hne Hlen.
  destruct (runPositionShuffle_returns n e Hn) as [e' Hrun].
  eexists _, e'. split; [exact Hrun|]. split.
  - rewrite length_map. now apply position_shuffle_outcomes_length.
  - apply Forall2_map_right.
    eapply Forall_impl; [|apply position_shuffle_outcomes_permutation].
    intros seq Hperm. split; [reflexivity|]. split; [exact Hperm|].
    pose proof (Permutation_length Hperm) as Hl.
    unfold trade_pnls_of in Hl. rewrite length_map in Hl.
    split.
    + rewrite trade_path_result_num_trades.
      rewrite <- Hl. apply to_int_small. unfold INT_MAX in *. lia.
    + rewrite trade_path_result_win_rate.
      destruct seq as [|pnl seq].
      * destruct (original_trades_ e); [congruence|discriminate].
      * now rewrite count_wins_filter.
Qed.

End GeneratorClaims.

(** ** Claims on the statistics *)

Lemma double_of_int_of_nat (n : nat) :
  double_of_int (Z.of_nat n) = double_of_size n.
Proof.
  unfold double_of_int, double_of_size.
  destruct (Z.ltb_spec (Z.of_nat n) 0); [lia|reflexivity].
Qed.

Lemma eqb_leb (x y : double) :
  (x =? y)%float = true -> (y <=? x)%float = true.
Proof.
  rewrite eqb_spec, leb_spec. unfold SFeqb, SFleb.
  rewrite (SFcompare_antisym (Prim2SF x) (Prim2SF y)).
  destruct (SFcompare (Prim2SF x) (Prim2SF y)) as [[]|]; simpl; congruence.
Qed.

Lemma count_better_filter (observed : double) (simulated : list double) :
  fold_left
    (fun count sim_val =>
       if (observed <=? sim_val)%float then count + 1 else count)
    simulated 0
  = Z.of_nat (Spec.count_at_least observed simulated).
Proof.
  unfold Spec.count_at_least, Spec.at_least.
  enough (H : forall acc,
             fold_left
               (fun count sim_val =>
                  if (observed <=? sim_val)%float then count + 1 else count)
               simulated acc
             = acc + Z.of_nat
                       (length
                          (filter (fun v => (observed <=? v)%float)
                             simulated)))
    by (exact (H 0)).
  induction simulated as [|v vs IH]; intros acc; simpl; [lia|].
  rewrite IH. destruct (observed <=? v)%float; simpl; lia.
Qed.

(** C8: [computePValue observed simulated] is the number of simulated
    values that are [>=] the observed one, divided by the number of
    simulated values; a simulated value equal to the observed one is
    counted; and the result is 1 for an empty population. *)
Theorem computePValue_spec (observed : double) (simulated : list double) :
  computePValue observed simulated = Spec.p_value observed simulated
  /\ (forall v, (v =? observed)%float = true -> Spec.at_least observed v = true)
  /\ computePValue observed [] = 1%float.
Proof.
  split; [|split].
  - unfold computePValue, Spec.p_value.
    destruct simulated as [|v vs]; [reflexivity|].
    now rewrite count_better_filter, double_of_int_of_nat.
  - intros v Hv. unfold Spec.at_least. now apply eqb_leb.
  - reflexivity.
Qed.

Lemma step_returns_cons (v0 v1 : double) (rest : list double) :
  step_returns (v0 :: v1 :: rest)
  = ((v1 - v0) / v0)%float :: step_returns (v1 :: rest).
Proof.
  unfold step_returns. cbn [length Nat.sub].
  rewrite Nat.sub_0_r.
  change (seq 1 (S (length rest))) with (1 :: seq 2 (length rest))%nat.
  cbn [map nth Nat.sub]. f_equal.
  rewrite <- (seq_shift (length rest) 1), map_map.
  apply map_ext_in. intros i Hi. apply in_seq in Hi.
  destruct i as [|i]; [lia|].
  cbn [nth Nat.sub]. now rewrite Nat.sub_0_r.
Qed.

Lemma step_returns_spec (curve : list double) :
  step_returns curve = Spec.step_returns curve.
Proof.
  destruct curve as [|v0 rest]; [reflexivity|].
  revert v0. induction rest as [|v1 rest IH]; intros v0; [reflexivity|].
  rewrite step_returns_cons, IH. reflexivity.
Qed.

Lemma step_returns_length (curve : list double) :
  length (step_returns curve) = (length curve - 1)%nat.
Proof. unfold step_returns. now rewrite length_map, length_seq. Qed.

(** C9: [calculateSharpeRatio] is the Sharpe ratio of the specification
    (mean over population standard deviation of the step-over-step
    returns, times the square root of 252); it is 0 for a curve of fewer
    than 2 points and when the standard deviation compares equal to zero;
    and every divisor the division [mean / std_dev] was executed with is
    the standard deviation and is different from zero. *)
Theorem calculateSharpeRatio_spec (equity_curve : list double) :
  calculateSharpeRatio equity_curve = Spec.sharpe_ratio equity_curve
  /\ ((length equity_curve < 2)%nat ->
      calculateSharpeRatio equity_curve = 0%float)
  /\ ((Spec.population_stddev (Spec.step_returns equity_curve) =? 0)%float
      = true ->
      calculateSharpeRatio equity_curve = 0%float)
  /\ Forall
       (fun divisor =>
          divisor = Spec.population_stddev (Spec.step_returns equity_curve)
          /\ (divisor =? 0)%float = false)
       (snd (calculateSharpeRatio_logged equity_curve)).
Proof.
  unfold calculateSharpeRatio, calculateSharpeRatio_logged, Spec.sharpe_ratio.
  destruct (Nat.ltb_spec (length equity_curve) 2) as [Hlt|Hge].
  - repeat split; auto.
  - pose proof (step_returns_length equity_curve) as Hlen.
    rewrite <- step_returns_spec.
    destruct (step_returns equity_curve) as [|r rs] eqn:Hrs;
      [simpl in Hlen; lia|].
    change (sqrt
              (fold_left
                 (fun acc r0 =>
                    acc
                    + (r0
                       - fold_left PrimFloat.add (r :: rs) 0
                         / double_of_size (length (r :: rs)))
                      * (r0
                         - fold_left PrimFloat.add (r :: rs) 0
                           / double_of_size (length (r :: rs))))
                 (r :: rs) 0 / double_of_size (length (r :: rs))))%float
      with (Spec.population_stddev (r :: rs)).
    change (fold_left PrimFloat.add (r :: rs) 0
            / double_of_size (length (r :: rs)))%float
      with (Spec.mean (r :: rs)).
    destruct (Spec.population_stddev (r :: rs) =? 0)%float eqn:Hsd; simpl.
    + repeat split; auto.
    + split; [reflexivity|]. split; [intros; lia|].
      split; [intros; congruence|].
      constructor; [split; [reflexivity|assumption]|constructor].
Qed.

(** ** Binary64 arithmetic on small integers

    [Prim2SF] maps a double to its sign, mantissa and exponent, and the
    axioms of the standard library give each primitive operation as the
    correctly rounded operation on these.  The lemmas below follow the
    rounding algorithm on the products and quotients that
    [percentile_index] computes. *)

Lemma digits2_pos_size (p : positive) : digits2_pos p = Pos.size p.
Proof. induction p; simpl; congruence. Qed.

Lemma Zdigits2_log2 (x : Z) : 0 < x -> Zdigits2 x = Z.log2 x + 1.
Proof.
  destruct x as [|p|p]; try lia. intros _. simpl.
  rewrite digits2_pos_size.
  destruct p; simpl; lia.
Qed.

Lemma Zdigits2_unique (x d : Z) : 2 ^ (d - 1) <= x < 2 ^ d -> 0 < d -> Zdigits2 x = d.
Proof.
  intros Hx Hd.
  assert (0 < 2 ^ (d - 1)) by (apply Z.pow_pos_nonneg; lia).
  rewrite Zdigits2_log2 by lia.
  rewrite (Z.log2_unique x (d - 1)); [lia|lia|].
  replace (Z.succ (d - 1)) with d by lia. exact Hx.
Qed.

Lemma iter_pos_nat {A : Type} (f : A -> A) (p : positive) (x : A) :
  iter_pos f p x = Nat.iter (Pos.to_nat p) f x.
Proof.
  revert x. induction p as [p IH|p IH|]; intros x; cbn [iter_pos].
  - rewrite !IH, Pos2Nat.inj_xI.
    rewrite <- Nat.iter_succ_r, <- Nat.iter_add. f_equal. lia.
  - rewrite !IH, Pos2Nat.inj_xO, <- Nat.iter_add. f_equal. lia.
  - reflexivity.
Qed.

Lemma shr_1_double (m : Z) : 0 <= m -> shr_1 (exact_record (2 * m)) = exact_record m.
Proof. destruct m as [|p|p]; try lia; reflexivity. Qed.

Lemma iter_shr_1_exact (k : nat) (m : Z) :
  0 <= m -> Nat.iter k shr_1 (exact_record (m * 2 ^ Z.of_nat k)) = exact_record m.
Proof.
  intros Hm. induction k as [|k IH].
  - simpl. f_equal. lia.
  - rewrite Nat.iter_succ_r.
    replace (m * 2 ^ Z.of_nat (S k)) with (2 * (m * 2 ^ Z.of_nat k))
      by (rewrite Nat2Z.inj_succ, Z.pow_succ_r; lia).
    rewrite shr_1_double by (apply Z.mul_nonneg_nonneg; [lia|apply Z.pow_nonneg; lia]).
    exact IH.
Qed.

Lemma shr_exact (m e s : Z) :
  0 <= m -> 0 <= s -> shr (exact_record (m * 2 ^ s)) e s = (exact_record m, e + s).
Proof.
  intros Hm Hs. destruct s as [|p|p]; try lia.
  - simpl. rewrite Z.mul_1_r, Z.add_0_r. reflexivity.
  - unfold shr. rewrite iter_pos_nat.
    rewrite <- (positive_nat_Z p) at 1.
    now rewrite iter_shr_1_exact.
Qed.

Lemma fexp_normal (e : Z) : -1021 <= e -> fexp prec emax e = e - 53.
Proof. unfold fexp, SpecFloat.emin, prec, emax. lia. Qed.

Lemma pow2_pos (n : Z) : 0 <= n -> 0 < 2 ^ n.
Proof. intros. apply Z.pow_pos_nonneg; lia. Qed.

Lemma Zdigits2_scaled (M s : Z) :
  2 ^ 52 <= M < 2 ^ 53 -> 0 <= s -> Zdigits2 (M * 2 ^ s) = 53 + s.
Proof.
  intros HM Hs. apply Zdigits2_unique; [|lia].
  replace (53 + s - 1) with (52 + s) by lia.
  rewrite !Z.pow_add_r by lia.
  pose proof (pow2_pos s Hs). nia.
Qed.

Lemma shr_fexp_exact (M s E : Z) :
  2 ^ 52 <= M < 2 ^ 53 -> 0 <= s -> -1074 <= E + s ->
  shr_fexp prec emax (M * 2 ^ s) E loc_Exact = (exact_record M, E + s).
Proof.
  intros HM Hs HE. unfold shr_fexp.
  rewrite Zdigits2_scaled by assumption.
  rewrite fexp_normal by lia.
  replace (53 + s + E - 53 - E) with s by lia.
  apply shr_exact; lia.
Qed.

Lemma binary_round_aux_exact (sx : bool) (M s E : Z) :
  2 ^ 52 <= M < 2 ^ 53 -> 0 <= s -> -1074 <= E + s <= 971 ->
  binary_round_aux prec emax sx (M * 2 ^ s) E loc_Exact
  = S754_finite sx (Z.to_pos M) (E + s).
Proof.
  intros HM Hs HE. unfold binary_round_aux.
  rewrite shr_fexp_exact by lia.
  cbn [exact_record shr_m loc_of_shr_record round_nearest_even].
  pose proof (shr_fexp_exact M 0 (E + s) HM) as H0.
  rewrite Z.mul_1_r, Z.add_0_r in H0. rewrite H0 by lia.
  cbn [exact_record shr_m].
  destruct M as [|p|p]; try lia.
  destruct (Z.leb_spec (E + s) (emax - prec)) as [_|H];
    [reflexivity|unfold emax, prec in H; lia].
Qed.

Lemma log2_below_53 (K : Z) : 0 < K < 2 ^ 53 -> 0 <= Z.log2 K <= 52.
Proof.
  intros HK. pose proof (Z.log2_nonneg K).
  assert (Z.log2 K < 53) by (apply Z.log2_lt_pow2; lia). lia.
Qed.

Lemma canon_mantissa (K : Z) :
  0 < K < 2 ^ 53 -> 2 ^ 52 <= K * 2 ^ (52 - Z.log2 K) < 2 ^ 53.
Proof.
  intros HK. pose proof (log2_below_53 K HK) as HL.
  destruct (Z.log2_spec K) as [Hlo Hhi]; [lia|].
  rewrite Z.pow_succ_r in Hhi by lia.
  pose proof (pow2_pos (52 - Z.log2 K)) as Hp.
  replace (2 ^ 53) with (2 * 2 ^ 52) by reflexivity.
  replace (2 ^ 52) with (2 ^ Z.log2 K * 2 ^ (52 - Z.log2 K))
    by (rewrite <- Z.pow_add_r by lia; f_equal; lia).
  nia.
Qed.

Lemma pos_iter_xO (m k : positive) :
  Zpos (Pos.iter xO m k) = Zpos m * 2 ^ Zpos k.
Proof.
  induction k as [|k IH] using Pos.peano_ind.
  - simpl. lia.
  - rewrite Pos.iter_succ, Pos2Z.inj_succ, Z.pow_succ_r by lia.
    rewrite Pos2Z.inj_xO, IH. lia.
Qed.

Lemma binary_normalize_canon (K : Z) :
  0 < K < 2 ^ 53 -> binary_normalize prec emax K 0 false = canon K.
Proof.
  intros HK. pose proof (log2_below_53 K HK) as HL.
  pose proof (canon_mantissa K HK) as HM.
  destruct K as [|m|m]; try lia.
  unfold binary_normalize, binary_round, shl_align, canon.
  change (Zpos (digits2_pos m)) with (Zdigits2 (Zpos m)).
  rewrite Zdigits2_log2, Z.add_0_r by lia.
  rewrite fexp_normal by lia.
  set (L := Z.log2 (Zpos m)) in *.
  replace (L + 1 - 53) with (L - 52) by lia. rewrite Z.sub_0_r.
  destruct (L - 52) as [|d|d] eqn:Hd; try lia.
  - replace (52 - L) with 0 in * by lia.
    rewrite Z.mul_1_r in *.
    pose proof (binary_round_aux_exact false (Zpos m) 0 0) as H.
    rewrite Z.mul_1_r in H. rewrite H by lia. reflexivity.
  - replace (52 - L) with (Zpos d) in * by lia.
    rewrite pos_iter_xO.
    pose proof (binary_round_aux_exact false (Zpos m * 2 ^ Zpos d) 0 (Zneg d))
      as H.
    rewrite Z.mul_1_r in H. rewrite H by lia.
    rewrite Z.add_0_r. reflexivity.
Qed.

Lemma Prim2SF_of_Z (K : Z) :
  0 < K < 2 ^ 53 -> Prim2SF (of_uint63 (Uint63.of_Z K)) = canon K.
Proof.
  intros HK. rewrite of_uint63_spec.
  change (Uint63Axioms.to_Z (Uint63.of_Z K)) with (Uint63.to_Z (Uint63.of_Z K)).
  rewrite Uint63.of_Z_spec.
  rewrite Z.mod_small.
  - now apply binary_normalize_canon.
  - change Uint63.wB with (2 ^ 63). 
    assert (2 ^ 53 < 2 ^ 63) by reflexivity. lia.
Qed.

Lemma SFmul_canon (K1 K2 : Z) :
  0 < K1 -> 0 < K2 -> K1 * K2 < 2 ^ 53 ->
  SFmul prec emax (canon K1) (canon K2) = canon (K1 * K2).
Proof.
  intros H1 H2 HK.
  assert (HK1 : 0 < K1 < 2 ^ 53) by nia.
  assert (HK2 : 0 < K2 < 2 ^ 53) by nia.
  assert (HK12 : 0 < K1 * K2 < 2 ^ 53) by nia.
  pose proof (log2_below_53 _ HK1) as HL1.
  pose proof (log2_below_53 _ HK2) as HL2.
  pose proof (log2_below_53 _ HK12) as HL.
  pose proof (canon_mantissa _ HK1) as HM1.
  pose proof (canon_mantissa _ HK2) as HM2.
  pose proof (canon_mantissa _ HK12) as HM.
  pose proof (Z.log2_mul_below K1 K2 H1 H2) as Hlo.
  pose proof (Z.log2_mul_above K1 K2) as Hhi.
  unfold canon, SFmul. cbn [xorb].
  rewrite Pos2Z.inj_mul, !Z2Pos.id by lia.
  set (L1 := Z.log2 K1) in *. set (L2 := Z.log2 K2) in *.
  set (L := Z.log2 (K1 * K2)) in *.
  replace (K1 * 2 ^ (52 - L1) * (K2 * 2 ^ (52 - L2)))
    with (K1 * K2 * 2 ^ (52 - L) * 2 ^ (52 + L - L1 - L2)).
  - rewrite binary_round_aux_exact by lia.
    f_equal. lia.
  - rewrite <- !Z.mul_assoc. f_equal.
    rewrite (Z.mul_comm (2 ^ (52 - L1))), <- !Z.mul_assoc. f_equal.
    rewrite <- !Z.pow_add_r by lia. f_equal. lia.
Qed.

Lemma shr_1_positive (q : Z) (r s : bool) :
  0 < q ->
  shr_1 {| shr_m := q; shr_r := r; shr_s := s |}
  = {| shr_m := q / 2; shr_r := Z.odd q; shr_s := r || s |}.
Proof.
  intros Hq. destruct q as [|p|p]; try lia.
  destruct p as [p|p|]; cbn [shr_1 Z.odd]; f_equal.
  - rewrite Pos2Z.inj_xI. apply (Z.div_unique _ 2 _ 1); lia.
  - rewrite Pos2Z.inj_xO. apply (Z.div_unique _ 2 _ 0); lia.
Qed.

(** Last stage of [binary_round_aux]: the rounded mantissa is renormalised
    and packed. *)
Lemma round_finish (q E : Z) :
  2 ^ 52 <= q <= 2 ^ 53 -> -1074 <= E <= 970 ->
  exists m e,
    (let '(mrs, e') := shr_fexp prec emax q E loc_Exact in
     match shr_m mrs with
     | Z0 => S754_zero false
     | Zpos m => if e' <=? emax - prec then S754_finite false m e'
                 else S754_infinity false
     | Zneg _ => S754_nan
     end) = S754_finite false m e
    /\ E <= e <= E + 1
    /\ Zpos m * 2 ^ (e - E) = q.
Proof.
  intros Hq HE.
  destruct (Z.eq_dec q (2 ^ 53)) as [->|Hne].
  - pose proof (shr_fexp_exact (2 ^ 52) 1 E) as H.
    change (2 ^ 52 * 2 ^ 1) with (2 ^ 53) in H. rewrite H by lia.
    cbn [exact_record shr_m].
    destruct (Z.leb_spec (E + 1) (emax - prec)) as [_|H'];
      [|unfold emax, prec in H'; lia].
    eexists _, (E + 1). split; [reflexivity|]. split; [lia|].
    replace (E + 1 - E) with 1 by lia. reflexivity.
  - pose proof (shr_fexp_exact q 0 E) as H.
    rewrite Z.mul_1_r, Z.add_0_r in H. rewrite H by lia.
    cbn [exact_record shr_m].
    destruct q as [|p|p]; try lia.
    destruct (Z.leb_spec E (emax - prec)) as [_|H'];
      [|unfold emax, prec in H'; lia].
    exists p, E. split; [reflexivity|]. split; [lia|].
    rewrite Z.sub_diag. lia.
Qed.

Lemma round_nearest_even_bounds (m : Z) (l : location) :
  m <= round_nearest_even m l <= m + 1.
Proof.
  destruct l as [|[]]; cbn [round_nearest_even]; try lia.
  destruct (Z.even m); lia.
Qed.

Lemma loc_of_shr_record_of_loc (m : Z) (l : location) :
  loc_of_shr_record (shr_record_of_loc m l) = l
  /\ shr_m (shr_record_of_loc m l) = m.
Proof. destruct l as [|[]]; split; reflexivity. Qed.

(** Rounding a 53- or 54-bit mantissa moves it by less than two units. *)
Lemma binary_round_aux_bounds (q E : Z) (l : location) :
  2 ^ 52 <= q < 2 ^ 54 -> -1074 <= E <= 960 ->
  exists m e,
    binary_round_aux prec emax false q E l = S754_finite false m e
    /\ E <= e <= E + 2
    /\ q - 1 <= Zpos m * 2 ^ (e - E) <= q + 2
    /\ (l = loc_Exact -> Z.even q = true -> Zpos m * 2 ^ (e - E) = q).
Proof.
  intros Hq HE. unfold binary_round_aux.
  destruct (Z_lt_le_dec q (2 ^ 53)) as [Hlt|Hge].
  - (* 53 bits: no first shift *)
    unfold shr_fexp at 1.
    rewrite (Zdigits2_unique q 53) by (change (53 - 1) with 52; lia).
    rewrite fexp_normal by lia.
    replace (53 + E - 53 - E) with 0 by lia. cbn [shr].
    destruct (loc_of_shr_record_of_loc q l) as [-> ->].
    pose proof (round_nearest_even_bounds q l) as Hr.
    destruct (round_finish (round_nearest_even q l) E) as (m & e & -> & He & Hv);
      [lia|lia|].
    exists m, e. split; [reflexivity|]. split; [lia|]. split; [lia|].
    intros -> _. exact Hv.
  - (* 54 bits: one shift *)
    unfold shr_fexp at 1.
    rewrite (Zdigits2_unique q 54) by (change (54 - 1) with 53; lia).
    rewrite fexp_normal by lia.
    replace (54 + E - 53 - E) with 1 by lia.
    cbn [shr iter_pos].
    assert (Hrec : shr_record_of_loc q l
                   = {| shr_m := q;
                        shr_r := shr_r (shr_record_of_loc q l);
                        shr_s := shr_s (shr_record_of_loc q l) |})
      by (destruct l as [|[]]; reflexivity).
    rewrite Hrec, shr_1_positive by lia.
    set (rec := {| shr_m := q / 2; shr_r := _; shr_s := _ |}).
    pose proof (round_nearest_even_bounds (q / 2) (loc_of_shr_record rec))
      as Hr.
    change (shr_m rec) with (q / 2).
    assert (Hhalf : 2 ^ 52 <= q / 2 < 2 ^ 53).
    { clear - Hq Hge. split.
      - apply Z.div_le_lower_bound; lia.
      - apply Z.div_lt_upper_bound; lia. }
    destruct (round_finish (round_nearest_even (q / 2) (loc_of_shr_record rec))
                (E + 1)) as (m & e & -> & He & Hv); [lia|lia|].
    exists m, e. split; [reflexivity|]. split; [lia|].
    replace (e - E) with (1 + (e - (E + 1))) by lia.
    rewrite Z.pow_add_r by lia. change (2 ^ 1) with 2.
    assert (Hv2 : Zpos m * (2 * 2 ^ (e - (E + 1)))
                  = 2 * round_nearest_even (q / 2) (loc_of_shr_record rec))
      by lia.
    rewrite Hv2. split; [clear - Hr; Z.div_mod_to_equations; lia|].
    intros -> Heven.
    assert (Hodd : Z.odd q = false) by (rewrite <- Z.negb_even, Heven; reflexivity).
    subst rec. cbn [shr_record_of_loc shr_r shr_s]. rewrite Hodd.
    cbn [orb loc_of_shr_record round_nearest_even].
    apply Z.even_spec in Heven. destruct Heven as [k ->].
    clear. Z.div_mod_to_equations. lia.
Qed.

Lemma div_eucl_div_mod (a b : Z) : Z.div_eucl a b = (a / b, a mod b).
Proof. unfold Z.div, Z.modulo. now destruct (Z.div_eucl a b). Qed.

Lemma new_location_zero (n : Z) : new_location n 0 = loc_Exact.
Proof.
  unfold new_location, new_location_even, new_location_odd.
  destruct (Z.even n); reflexivity.
Qed.

Lemma canon_100 : canon 100 = S754_finite false 7036874417766400 (-46).
Proof. reflexivity. Qed.

(** Dividing an integer below [2^40] by 100 in binary64 and truncating gives
    the integer quotient. *)
Lemma SFdiv_canon_100 (K : Z) :
  0 < K < 2 ^ 40 ->
  exists m e,
    SFdiv prec emax (canon K) (canon 100) = S754_finite false m e
    /\ Z.shiftl (Zpos m) e = K / 100.
Proof.
  intros HK.
  assert (HK53 : 0 < K < 2 ^ 53)
    by (assert (2 ^ 40 < 2 ^ 53) by reflexivity; lia).
  pose proof (log2_below_53 K HK53) as HL53.
  assert (HL : Z.log2 K < 40) by (apply Z.log2_lt_pow2; lia).
  pose proof (canon_mantissa K HK53) as HM.
  rewrite canon_100. unfold canon.
  set (L := Z.log2 K) in *. set (M := K * 2 ^ (52 - L)) in *.
  set (N := 2 ^ (59 - L)).
  assert (HN : 2 ^ 20 <= N)
    by (apply Z.pow_le_mono_r; lia).
  assert (HMN : M * 128 = K * N).
  { unfold M, N. replace (59 - L) with (52 - L + 7) by lia.
    rewrite Z.pow_add_r by lia. change (2 ^ 7) with 128. ring. }
  cbn [SFdiv xorb]. rewrite Z2Pos.id by lia.
  assert (Hcore :
            SFdiv_core_binary prec emax M (L - 52) 7036874417766400 (-46)
            = (K * N / 100, L - 59,
               new_location 7036874417766400
                 ((K * N) mod 100 * 70368744177664))).
  { unfold SFdiv_core_binary.
    rewrite (Zdigits2_unique M 53) by (change (53 - 1) with 52; lia).
    change (Zdigits2 7036874417766400) with 53.
    replace (53 + (L - 52) - (53 + -46)) with (L - 6) by lia.
    rewrite fexp_normal by lia.
    replace (L - 52 - -46) with (L - 6) by lia.
    rewrite Z.min_l by lia.
    replace (L - 6 - (L - 6 - 53)) with 53 by lia.
    cbv iota. rewrite Z.shiftl_mul_pow2 by lia.
    rewrite div_eucl_div_mod.
    replace (M * 2 ^ 53) with (M * 128 * 70368744177664)
      by (rewrite <- Z.mul_assoc; reflexivity).
    change 7036874417766400 with (100 * 70368744177664).
    rewrite Z.div_mul_cancel_r, Z.mul_mod_distr_r by lia.
    rewrite HMN. f_equal. f_equal. lia. }
  rewrite Hcore.
  set (q := K * N / 100) in *.
  set (loc := new_location _ _).
  assert (Hq100 : 100 * q <= K * N < 100 * q + 100)
    by (unfold q; Z.div_mod_to_equations; lia).
  assert (Hq : 2 ^ 52 <= q < 2 ^ 54).
  { change (2 ^ 52) with 4503599627370496 in *.
    change (2 ^ 53) with 9007199254740992 in *.
    change (2 ^ 54) with 18014398509481984. lia. }
  destruct (binary_round_aux_bounds q (L - 59) loc Hq)
    as (m & e & -> & He & Hv & Hexact); [lia|].
  exists m, e. split; [reflexivity|].
  rewrite <- (Z.opp_involutive e), Z.shiftl_opp_r, Z.shiftr_div_pow2 by lia.
  set (V := Zpos m * 2 ^ (e - (L - 59))) in *.
  assert (HV : Zpos m / 2 ^ (- e) = V / N).
  { unfold V, N. replace (59 - L) with (- e + (e - (L - 59))) by lia.
    rewrite Z.pow_add_r by lia.
    rewrite Z.div_mul_cancel_r; [reflexivity| |];
      apply Z.pow_nonzero; lia. }
  rewrite HV.
  assert (HNpos : 0 < N) by (assert (0 < 2 ^ 20) by reflexivity; lia).
  pose proof (Z.div_mod K 100) as HKdiv.
  pose proof (Z.mod_pos_bound K 100) as HR.
  set (Q := K / 100) in *. set (R := K mod 100) in *.
  assert (HKN : K * N = 100 * (Q * N) + R * N) by (rewrite HKdiv by lia; ring).
  symmetry. apply (Z.div_unique_pos V N Q (V - N * Q)); [|ring].
  change (2 ^ 20) with 1048576 in HN.
  destruct (Z.eq_dec R 0) as [HR0|HR0].
  - (* the quotient is an integer: the division is exact *)
    assert (Hqe : q = Q * N) by (rewrite HR0 in HKN; lia).
    rewrite Hexact; [lia| |].
    + unfold loc. rewrite HKN, HR0. 
      replace (100 * (Q * N) + 0 * N) with (Q * N * 100) by ring.
      rewrite Z.mod_mul by lia. apply new_location_zero.
    + rewrite Hqe. unfold N. replace (59 - L) with (Z.succ (58 - L)) by lia.
      rewrite Z.pow_succ_r by lia.
      rewrite !Z.even_mul. change (Z.even 2) with true.
      cbn [orb]. apply orb_true_r.
  - assert (HRN : N <= R * N <= 99 * N) by nia.
    lia.
Qed.

Lemma Prim2SF_double_of_size (n : nat) :
  0 < Z.of_nat n < 2 ^ 53 -> Prim2SF (double_of_size n) = canon (Z.of_nat n).
Proof. intros Hn. unfold double_of_size. now apply Prim2SF_of_Z. Qed.

Lemma percentile_index_exact (p : double) (P : Z) (size : nat) :
  Prim2SF p = canon P -> 0 < P <= 100 ->
  (1 <= size)%nat -> Z.of_nat size <= 2 ^ 32 ->
  percentile_index p size
  = Z.to_nat (P * (Z.of_nat size - 1) / 100).
Proof.
  intros Hp HP Hsize Hmax.
  unfold percentile_index, static_cast_size, trunc_double.
  rewrite div_spec, mul_spec, Hp.
  change (Prim2SF 100) with (canon 100).
  replace (Z.of_nat size - 1) with (Z.of_nat (size - 1)) by lia.
  destruct (size - 1)%nat as [|k] eqn:Hk.
  - change (Prim2SF (double_of_size 0)) with (S754_zero false).
    unfold canon at 1. cbn [SF64mul SFmul SF64div SFdiv xorb].
    rewrite canon_100. cbn [SFdiv]. rewrite Z.mul_0_r. reflexivity.
  - set (m := Z.of_nat (S k)).
    assert (Hm : 0 < m < 2 ^ 32) by (unfold m; lia).
    assert (H32 : 2 ^ 32 = 4294967296) by reflexivity.
    assert (H40 : 2 ^ 40 = 1099511627776) by reflexivity.
    assert (H53 : 2 ^ 53 = 9007199254740992) by reflexivity.
    rewrite Prim2SF_double_of_size by (fold m; lia). fold m.
    unfold SF64mul, SF64div.
    rewrite SFmul_canon by nia.
    destruct (SFdiv_canon_100 (P * m)) as (mz & ez & -> & Hz); [nia|].
    cbn [cond_Zopp]. now rewrite Hz.
Qed.

(** ** The report assembled by [runAnalysis] *)

Section Analysis.

Context {RNG : StdRandom} {SORT : StdSort}.

(** What [computePercentiles] leaves in [values]. *)
Lemma computePercentiles_values (values : list double)
    (r : MonteCarloAnalysis) :
  fst (computePercentiles values r)
  = match values with [] => [] | _ :: _ => std_sort values end.
Proof. destruct values; reflexivity. Qed.

Lemma aggregate_simulations (r : MonteCarloAnalysis)
    (s1 s2 s3 : list SimulationResult) :
  simulations (aggregate r s1 s2 s3) = ((simulations r ++ s1) ++ s2) ++ s3.
Proof.
  unfold aggregate, computePercentiles, build_histogram.
  cbn [simulations set_simulations].
  destruct (map total_return_pct _) as [|v vs]; cbn -[std_sort];
    repeat match goal with
           | |- context [match ?x with _ => _ end] => destruct x
           end; reflexivity.
Qed.

(** The percentile and confidence-interval members after [aggregate]. *)
Lemma aggregate_percentiles (r : MonteCarloAnalysis)
    (s1 s2 s3 : list SimulationResult) :
  let report := aggregate r s1 s2 s3 in
  let pool := map total_return_pct (((simulations r ++ s1) ++ s2) ++ s3) in
  let values := match pool with [] => [] | _ :: _ => std_sort pool end in
  percentile_5 report = Some (get_percentile values 5%float)
  /\ percentile_25 report = Some (get_percentile values 25%float)
  /\ percentile_50 report = Some (get_percentile values 50%float)
  /\ percentile_75 report = Some (get_percentile values 75%float)
  /\ percentile_95 report = Some (get_percentile values 95%float)
  /\ ci_lower_95 report = percentile_5 report
  /\ ci_upper_95 report = percentile_95 report.
Proof.
  unfold aggregate, computePercentiles, build_histogram.
  cbn [simulations set_simulations].
  destruct (map total_return_pct _) as [|v vs]; cbn -[std_sort get_percentile];
    repeat match goal with
           | |- context [match ?x with _ => _ end] => destruct x
           end; repeat split; reflexivity.
Qed.

(** The members [aggregate] never assigns. *)
Lemma aggregate_untouched (r : MonteCarloAnalysis)
    (s1 s2 s3 : list SimulationResult) :
  let report := aggregate r s1 s2 s3 in
  p_value_strategy_vs_random report = p_value_strategy_vs_random r
  /\ p_value_strategy_vs_bootstrap report = p_value_strategy_vs_bootstrap r
  /\ original_return report = original_return r
  /\ original_sharpe report = original_sharpe r
  /\ original_max_dd report = original_max_dd r
  /\ seed_used report = seed_used r
  /\ num_trials report = num_trials r.
Proof.
  unfold aggregate, computePercentiles, build_histogram.
  cbn [simulations set_simulations].
  destruct (map total_return_pct _) as [|v vs]; cbn -[std_sort get_percentile];
    repeat match goal with
           | |- context [match ?x with _ => _ end] => destruct x
           end; repeat split; reflexivity.
Qed.

(** [aggregate] reads neither [seed_used] nor [num_trials]. *)
Lemma aggregate_metadata (r : MonteCarloAnalysis) (sd n : Z)
    (s1 s2 s3 : list SimulationResult) :
  aggregate (set_num_trials (set_seed_used r sd) n) s1 s2 s3
  = set_num_trials (set_seed_used (aggregate r s1 s2 s3) sd) n.
Proof.
  unfold aggregate, computePercentiles, build_histogram.
  cbn [simulations set_simulations set_num_trials set_seed_used].
  destruct (map total_return_pct _) as [|v vs]; cbn -[std_sort get_percentile];
    repeat match goal with
           | |- context [match ?x with _ => _ end] => destruct x
           end; reflexivity.
Qed.


Lemma position_shuffle_loop_length (count : nat) (l : list double)
    (g : rng_state) :
  length (fst (position_shuffle_loop count l g)) = count.
Proof.
  now rewrite position_shuffle_loop_sequences, length_map,
    shuffle_sequences_length.
Qed.

Lemma bootstrap_loop_length (count : nat) (l : list double) (g : rng_state) :
  length (fst (bootstrap_loop count l g)) = count.
Proof.
  now rewrite bootstrap_loop_sequences, length_map,
    bootstrap_sequences_length.
Qed.

Lemma return_permutation_loop_length (count : nat) (num_days : Z)
    (l : list double) (g g' : rng_state) (sims : list SimulationResult) :
  return_permutation_loop count num_days l g = Returned (sims, g') ->
  length sims = count.
Proof.
  revert g g' sims. induction count as [|count IH]; intros g g' sims; simpl.
  - intros [= <- _]. reflexivity.
  - destruct (std_shuffle l g) as [s g1].
    destruct (return_path_result num_days s) as [sim|ex]; [|discriminate].
    cbn [bind].
    destruct (return_permutation_loop count num_days l g1) as [[rs g2]|ex]
      eqn:Hloop; [|discriminate].
    cbn [bind]. intros [= <- _]. simpl. f_equal. eapply IH. exact Hloop.
Qed.

Lemma runPositionShuffle_post (n : Z) (e : MonteCarloEngine) :
  generator_post n e (runPositionShuffle n e).
Proof.
  unfold runPositionShuffle, reserve.
  destruct (Z.ltb_spec n 0) as [Hn|Hn]; cbn [bind]; [exact I|].
  destruct (original_trades_ e) as [|t ts] eqn:Ht.
  - cbn. rewrite Ht. repeat split; auto; lia.
  - pose proof (position_shuffle_loop_length (Z.to_nat n)
                  (trade_pnls_of (t :: ts)) (rng_ e)) as Hlen.
    destruct (position_shuffle_loop _ _ _) as [rs g]. cbn in *.
    rewrite Ht. repeat split; auto; lia.
Qed.

Lemma runBootstrap_post (n : Z) (e : MonteCarloEngine) :
  generator_post n e (runBootstrap n e).
Proof.
  unfold runBootstrap, reserve.
  destruct (Z.ltb_spec n 0) as [Hn|Hn]; cbn [bind]; [exact I|].
  destruct (original_trades_ e) as [|t ts] eqn:Ht.
  - cbn. rewrite Ht. repeat split; auto; lia.
  - pose proof (bootstrap_loop_length (Z.to_nat n)
                  (trade_pnls_of (t :: ts)) (rng_ e)) as Hlen.
    destruct (bootstrap_loop _ _ _) as [rs g]. cbn in *.
    rewrite Ht. repeat split; auto; lia.
Qed.

Lemma runReturnPermutation_post (n : Z) (e : MonteCarloEngine) :
  generator_post n e (runReturnPermutation n e).
Proof.
  unfold runReturnPermutation, reserve.
  destruct (Z.ltb_spec n 0) as [Hn|Hn]; cbn [bind]; [exact I|].
  destruct (daily_returns_ e) as [|r rs] eqn:Hd.
  - cbn. rewrite Hd. repeat split; auto; lia.
  - destruct (return_permutation_loop _ _ _ _) as [[sims g]|ex] eqn:Hloop;
      cbn [bind generator_post]; [|exact I].
    apply return_permutation_loop_length in Hloop.
    cbn [with_rng original_trades_ daily_returns_].
    repeat split; auto; lia.
Qed.

Lemma per_generator_range (n : Z) :
  is_uint32 n -> to_int (n / 3) = n / 3 /\ 0 <= n / 3 /\ 3 * (n / 3) <= n.
Proof.
  unfold is_uint32, UINT32_MAX. intros Hn.
  assert (0 <= n / 3 <= 1431655765) by (Z.div_mod_to_equations; lia).
  split; [|Z.div_mod_to_equations; lia].
  apply to_int_small. unfold INT_MAX. lia.
Qed.

(** [runAnalysis] returns whenever the requested count is a [uint32_t]
    value and the day count fits an [int]; its report is [aggregate] of
    the three generators' results. *)
Lemma runAnalysis_returns (config : SimulationConfig) (e : MonteCarloEngine) :
  is_uint32 (num_simulations config) ->
  Z.of_nat (length (daily_returns_ e)) < INT_MAX ->
  exists s1 s2 s3 e',
    runAnalysis config e
    = Returned
        (aggregate
           (set_num_trials (set_seed_used uninitialised (seed config))
              (num_simulations config)) s1 s2 s3, e')
    /\ (length s1 + length s2 + length s3
        <= 3 * Z.to_nat (num_simulations config / 3))%nat.
Proof.
  intros Hn Hdays. unfold runAnalysis.
  destruct (per_generator_range _ Hn) as (-> & Hper & _).
  set (per := num_simulations config / 3) in *.
  pose proof (runPositionShuffle_post per e) as H1.
  destruct (runPositionShuffle_returns per e Hper) as [e1 Hr1].
  rewrite Hr1 in H1 |- *. cbn [bind]. destruct H1 as (_ & Hl1 & Ht1 & Hd1).
  pose proof (runReturnPermutation_post per e1) as H2.
  destruct (runReturnPermutation_returns per e1 Hper) as (s2 & e2 & Hr2 & _);
    [rewrite Hd1; exact Hdays|].
  rewrite Hr2 in H2 |- *. cbn [bind]. destruct H2 as (_ & Hl2 & Ht2 & Hd2).
  pose proof (runBootstrap_post per e2) as H3.
  destruct (runBootstrap_returns per e2 Hper) as [e3 Hr3].
  rewrite Hr3 in H3 |- *. cbn [bind]. destruct H3 as (_ & Hl3 & _).
  eexists _, s2, _, e3. split; [reflexivity|]. lia.
Qed.

(** [runAnalysis] changes nothing of the engine but the state of its
    generator: the stored trades and returns are those it was called
    with. *)
Lemma runAnalysis_keeps_input (config : SimulationConfig)
    (e e' : MonteCarloEngine) (report : MonteCarloAnalysis) :
  runAnalysis config e = Returned (report, e') ->
  original_trades_ e' = original_trades_ e
  /\ daily_returns_ e' = daily_returns_ e.
Proof.
  unfold runAnalysis.
  set (per := to_int (num_simulations config / 3)).
  pose proof (runPositionShuffle_post per e) as H1.
  destruct (runPositionShuffle per e) as [[s1 e1]|ex]; cbn [bind];
    [|discriminate].
  pose proof (runReturnPermutation_post per e1) as H2.
  destruct (runReturnPermutation per e1) as [[s2 e2]|ex]; cbn [bind];
    [|discriminate].
  pose proof (runBootstrap_post per e2) as H3.
  destruct (runBootstrap per e2) as [[s3 e3]|ex]; cbn [bind];
    [|discriminate].
  intros [= _ <-].
  destruct H1 as (_ & _ & Ht1 & Hd1), H2 as (_ & _ & Ht2 & Hd2),
    H3 as (_ & _ & Ht3 & Hd3).
  split; congruence.
Qed.

End Analysis.

(** ** Claims on [runAnalysis] *)

Section AnalysisClaims.

Context {RNG : StdRandom} {SORT : StdSort}.

Lemma get_percentile_rank (values : list double) (p : double) (P : Z) :
  Prim2SF p = canon P -> 0 < P <= 100 ->
  values <> [] -> Z.of_nat (length values) <= 2 ^ 32 ->
  get_percentile values p
  = nth (Z.to_nat (P * (Z.of_nat (length values) - 1) / 100)) values 0%float
  /\ (Z.to_nat (P * (Z.of_nat (length values) - 1) / 100) < length values)%nat.
Proof.
  intros Hp HP Hne Hmax. destruct values as [|v vs]; [congruence|].
  unfold get_percentile. split.
  - rewrite (percentile_index_exact p P) by (auto; simpl; lia). reflexivity.
  - set (n := Z.of_nat (length (v :: vs))).
    assert (0 < n) by (unfold n; simpl; lia).
    assert (0 <= P * (n - 1) / 100 <= n - 1)
      by (Z.div_mod_to_equations; nia).
    lia.
Qed.

(** C7: [runAnalysis] sorts the pooled [total_return_pct] values ascending
    and reports, for p in 5, 25, 50, 75, 95, the element at index
    [floor(p * (count - 1) / 100)] of the sorted pool (an index inside the
    pool); the five percentiles are 0 for an empty pool; and [ci_lower_95]
    and [ci_upper_95] equal [percentile_5] and [percentile_95]. *)
Theorem runAnalysis_percentiles (config : SimulationConfig)
    (e : MonteCarloEngine) :
  is_uint32 (num_simulations config) ->
  Z.of_nat (length (daily_returns_ e)) < INT_MAX ->
  exists report e',
    runAnalysis config e = Returned (report, e')
    /\ let pool := pooled_returns report in
       let sorted := std_sort pool in
       let rank (p : Z) :=
         Z.to_nat (p * (Z.of_nat (length pool) - 1) / 100) in
       Permutation pool sorted
       /\ (Forall not_nan pool -> Sorted double_le sorted)
       /\ (pool <> [] ->
           percentile_5 report = Some (nth (rank 5) sorted 0%float)
           /\ percentile_25 report = Some (nth (rank 25) sorted 0%float)
           /\ percentile_50 report = Some (nth (rank 50) sorted 0%float)
           /\ percentile_75 report = Some (nth (rank 75) sorted 0%float)
           /\ percentile_95 report = Some (nth (rank 95) sorted 0%float)
           /\ (rank 95%Z < length pool)%nat)
       /\ (pool = [] ->
           percentile_5 report = Some 0%float
           /\ percentile_25 report = Some 0%float
           /\ percentile_50 report = Some 0%float
           /\ percentile_75 report = Some 0%float
           /\ percentile_95 report = Some 0%float)
       /\ ci_lower_95 report = percentile_5 report
       /\ ci_upper_95 report = percentile_95 report.
Proof.
  intros Hn Hdays.
  destruct (runAnalysis_returns config e Hn Hdays)
    as (s1 & s2 & s3 & e' & Hrun & Hlen).
  eexists _, e'. split; [exact Hrun|].
  set (r0 := set_num_trials _ _) in *.
  pose proof (aggregate_percentiles r0 s1 s2 s3) as Hp.
  pose proof (aggregate_simulations r0 s1 s2 s3) as Hs.
  unfold pooled_returns. rewrite Hs.
  cbv zeta in Hp |- *.
  set (pool := map total_return_pct _) in *.
  destruct Hp as (H5 & H25 & H50 & H75 & H95 & Hlo & Hhi).
  split; [apply std_sort_permutation|].
  split; [apply std_sort_sorted|].
  assert (Hcount : Z.of_nat (length pool) <= 2 ^ 32).
  { unfold pool. rewrite length_map, !length_app. cbn [length r0 simulations
      set_num_trials set_seed_used uninitialised].
    destruct (per_generator_range _ Hn) as (_ & Hper & Hle).
    unfold is_uint32, UINT32_MAX in Hn.
    assert (2 ^ 32 = 4294967296) as -> by reflexivity. lia. }
  split; [|split; [|split; assumption]].
  - intros Hne.
    destruct pool as [|v vs] eqn:Hpool; [congruence|].
    rewrite <- Hpool in *.
    pose proof (std_sort_permutation pool) as Hperm.
    pose proof (Permutation_length Hperm) as Hl.
    assert (Hsne : std_sort pool <> []).
    { intros Hnil. rewrite Hnil, Hpool in Hl. discriminate. }
    rewrite Hl.
    destruct (get_percentile_rank (std_sort pool) 5%float 5) as [E5 _];
      [reflexivity|lia|assumption|lia|].
    destruct (get_percentile_rank (std_sort pool) 25%float 25) as [E25 _];
      [reflexivity|lia|assumption|lia|].
    destruct (get_percentile_rank (std_sort pool) 50%float 50) as [E50 _];
      [reflexivity|lia|assumption|lia|].
    destruct (get_percentile_rank (std_sort pool) 75%float 75) as [E75 _];
      [reflexivity|lia|assumption|lia|].
    destruct (get_percentile_rank (std_sort pool) 95%float 95) as [E95 B95];
      [reflexivity|lia|assumption|lia|].
    rewrite Hpool in H5, H25, H50, H75, H95. rewrite <- Hpool in *.
    rewrite H5, H25, H50, H75, H95, E5, E25, E50, E75, E95.
    repeat split; auto.
  - intros Hnil. rewrite Hnil in *. repeat split; assumption.
Qed.




(** C5: for every engine state, two configurations that agree on
    [num_simulations] (a [uint32_t] value) make [runAnalysis] behave alike:
    both calls throw the same exception, or both return, leaving the same
    engine state and reports with the same simulations, percentiles,
    confidence interval and histogram.  [seed_used] is [config.seed],
    [num_trials] is [config.num_simulations], and the number of paths is at
    most [3 * floor(num_simulations / 3)]. *)
Theorem runAnalysis_config_fields (e : MonteCarloEngine)
    (c1 c2 : SimulationConfig) :
  is_uint32 (num_simulations c1) ->
  num_simulations c1 = num_simulations c2 ->
  same_analysis c1 c2 (3 * (num_simulations c1 / 3))
    (runAnalysis c1 e) (runAnalysis c2 e).
Proof.
  intros Hn Hagree. unfold same_analysis, runAnalysis. rewrite <- Hagree.
  destruct (per_generator_range _ Hn) as (-> & Hper & _).
  set (per := num_simulations c1 / 3) in *.
  pose proof (runPositionShuffle_post per e) as H1.
  destruct (runPositionShuffle per e) as [[s1 e1]|ex1]; cbn [bind];
    [|reflexivity].
  pose proof (runReturnPermutation_post per e1) as H2.
  destruct (runReturnPermutation per e1) as [[s2 e2]|ex2]; cbn [bind];
    [|reflexivity].
  pose proof (runBootstrap_post per e2) as H3.
  destruct (runBootstrap per e2) as [[s3 e3]|ex3]; cbn [bind];
    [|reflexivity].
  rewrite !aggregate_metadata.
  set (r := aggregate uninitialised s1 s2 s3).
  assert (Hs : simulations r = (([] ++ s1) ++ s2) ++ s3)
    by apply aggregate_simulations.
  cbn [seed_used num_trials set_seed_used set_num_trials simulations].
  split; [reflexivity|]. split; [repeat split|].
  repeat (split; [reflexivity|]).
  rewrite Hs, !length_app. cbn [length].
  destruct H1 as (_ & Hl1 & _), H2 as (_ & Hl2 & _), H3 as (_ & Hl3 & _).
  lia.
Qed.


End AnalysisClaims.

(** ** The histogram *)

Lemma increment_length (bin : nat) (hist : list Z) :
  length (increment bin hist) = length hist.
Proof.
  revert bin. induction hist as [|c hist IH]; intros [|bin]; simpl; auto.
Qed.

Lemma increment_total (bin : nat) (hist : list Z) :
  (bin < length hist)%nat ->
  fold_right Z.add 0 (increment bin hist) = fold_right Z.add 0 hist + 1.
Proof.
  revert bin. induction hist as [|c hist IH]; intros [|bin] Hb; simpl in *;
    try lia.
  rewrite IH by lia. lia.
Qed.

Lemma histogram_add_total (dmin bin_width ret : double) (hist : list Z) :
  length hist = 20%nat ->
  length (histogram_add dmin bin_width hist ret) = 20%nat
  /\ fold_right Z.add 0 (histogram_add dmin bin_width hist ret)
     = fold_right Z.add 0 hist
       + (if counted dmin bin_width ret then 1 else 0).
Proof.
  intros Hlen. unfold histogram_add, counted.
  set (bin := static_cast_int _).
  destruct ((0 <=? bin) && (bin <? 20)) eqn:Hbin.
  - apply andb_true_iff in Hbin. destruct Hbin as [H0 H20].
    apply Z.leb_le in H0. apply Z.ltb_lt in H20.
    rewrite increment_length, increment_total by lia. auto.
  - split; [assumption|lia].
Qed.

(** The buckets grow by one for each value that passes the range test. *)
Lemma histogram_loop_total (dmin bin_width : double) (returns : list double)
    (hist : list Z) :
  length hist = 20%nat ->
  fold_right Z.add 0 (fold_left (histogram_add dmin bin_width) returns hist)
  = fold_right Z.add 0 hist
    + Z.of_nat (length (filter (counted dmin bin_width) returns)).
Proof.
  revert hist. induction returns as [|ret returns IH]; intros hist Hlen;
    cbn [fold_left filter length].
  - cbn. lia.
  - destruct (histogram_add_total dmin bin_width ret hist Hlen) as [Hl Hs].
    rewrite IH, Hs by assumption.
    destruct (counted dmin bin_width ret); cbn [length]; lia.
Qed.

(** What the histogram block leaves in a report whose bucket vector was
    empty: twenty buckets whose sum is the number of pooled values that
    passed the range test (none when the bin width is not positive or the
    pool is empty), which is at most the size of the pool. *)
Lemma build_histogram_total (returns : list double)
    (result : MonteCarloAnalysis) :
  return_distribution result = [] ->
  let report := build_histogram returns result in
  length (return_distribution report) = 20%nat
  /\ fold_right Z.add 0 (return_distribution report)
     = match distribution_min report, distribution_max report with
       | Some dmin, Some dmax =>
           if (0 <? (dmax - dmin) / 20)%float
           then Z.of_nat
                  (length
                     (filter (counted dmin ((dmax - dmin) / 20)%float)
                        returns))
           else 0
       | _, _ => 0
       end
  /\ fold_right Z.add 0 (return_distribution report)
     <= Z.of_nat (length returns).
Proof.
  intros Hempty. unfold build_histogram. rewrite Hempty.
  change (resize 20 0 []) with (repeat 0 20).
  destruct returns as [|r0 rs].
  - cbn. repeat split; try reflexivity; try lia.
    destruct (distribution_min result) as [dmin|],
      (distribution_max result) as [dmax|]; try reflexivity.
    destruct (0 <? (dmax - dmin) / 20)%float; reflexivity.
  - cbn [min_element max_element].
    set (dmin := fold_left (fun m y => if (y <? m)%float then y else m) rs r0).
    set (dmax := fold_left (fun m y => if (m <? y)%float then y else m) rs r0).
    destruct (0 <? (dmax - dmin) / 20)%float eqn:Hw;
      cbn [return_distribution set_return_distribution set_distribution_min
             set_distribution_max distribution_min distribution_max].
    + rewrite Hw.
      pose proof (histogram_loop_total dmin ((dmax - dmin) / 20)%float
                    (r0 :: rs) (repeat 0 20) eq_refl) as Hsum.
      change (fold_right Z.add 0 (repeat 0 20)) with 0 in Hsum.
      rewrite Hsum.
      split.
      { clear. generalize (repeat 0 20) (eq_refl : length (repeat 0 20) = 20%nat).
        generalize (r0 :: rs). intros l. induction l as [|x l IH]; intros h Hh.
        - exact Hh.
        - cbn [fold_left]. apply IH.
          apply (histogram_add_total dmin _ x h Hh). }
      split; [lia|].
      pose proof (filter_length_le (counted dmin ((dmax - dmin) / 20)%float)
                    (r0 :: rs)). lia.
    + rewrite Hw. cbn. repeat split; lia.
Qed.

Lemma SFcompare_refl (x : spec_float) :
  SFcompare x x = Some Eq \/ SFcompare x x = None.
Proof.
  destruct x as [s|s| |s m e]; simpl; auto; destruct s; auto;
    rewrite Z.compare_refl, Pos.compare_cont_refl; auto.
Qed.

Lemma ltb_irrefl (x : double) : (x <? x)%float = false.
Proof.
  rewrite ltb_spec. unfold SFltb.
  destruct (SFcompare_refl (Prim2SF x)) as [-> | ->]; reflexivity.
Qed.

(** [x - x] is a zero, or NaN when [x] is not finite. *)
Lemma SFsub_self (x : spec_float) :
  (exists s, SFsub prec emax x x = S754_zero s)
  \/ SFsub prec emax x x = S754_nan.
Proof.
  destruct x as [s|s| |s m e]; cbn [SFsub].
  - left. destruct s; eauto.
  - right. destruct s; reflexivity.
  - right. reflexivity.
  - left. rewrite Z.sub_diag. cbn [binary_normalize]. eauto.
Qed.

(** A pool whose values are all equal has bin width 0 (or NaN). *)
Lemma zero_bin_width (v : double) : (0 <? (v - v) / 20)%float = false.
Proof.
  rewrite ltb_spec, div_spec, sub_spec. unfold SF64div, SF64sub.
  change (Prim2SF 20) with (S754_finite false 5629499534213120 (-48)).
  change (Prim2SF 0) with (S754_zero false).
  destruct (SFsub_self (Prim2SF v)) as [[s ->] | ->]; reflexivity.
Qed.

Lemma min_element_constant (v : double) (rest : list double) :
  Forall (eq v) rest -> min_element (v :: rest) = Some v.
Proof.
  intros H. cbn [min_element]. f_equal.
  induction H as [|y rest <- _ IH]; cbn [fold_left]; [reflexivity|].
  now rewrite ltb_irrefl.
Qed.

Lemma max_element_constant (v : double) (rest : list double) :
  Forall (eq v) rest -> max_element (v :: rest) = Some v.
Proof.
  intros H. cbn [max_element]. f_equal.
  induction H as [|y rest <- _ IH]; cbn [fold_left]; [reflexivity|].
  now rewrite ltb_irrefl.
Qed.

(** When all pooled returns are the same value, both bounds are that value
    and no bucket is incremented. *)
Lemma build_histogram_constant (v : double) (rest : list double)
    (result : MonteCarloAnalysis) :
  Forall (eq v) rest ->
  return_distribution result = [] ->
  let report := build_histogram (v :: rest) result in
  distribution_min report = Some v
  /\ distribution_max report = Some v
  /\ return_distribution report = repeat 0 20.
Proof.
  intros Hall Hempty. unfold build_histogram.
  rewrite (min_element_constant v rest Hall),
    (max_element_constant v rest Hall), zero_bin_width, Hempty.
  repeat split; reflexivity.
Qed.

Section HistogramOfReport.

Context {RNG : StdRandom} {SORT : StdSort}.

(** The histogram of a report never counts more paths than the pool
    holds. *)
Lemma aggregate_histogram (r : MonteCarloAnalysis)
    (s1 s2 s3 : list SimulationResult) :
  return_distribution r = [] ->
  let report := aggregate r s1 s2 s3 in
  length (return_distribution report) = 20%nat
  /\ fold_right Z.add 0 (return_distribution report)
     <= Z.of_nat (length (simulations report)).
Proof.
  intros Hempty report.
  pose proof (aggregate_simulations r s1 s2 s3) as Hs. fold report in Hs.
  rewrite Hs. subst report. unfold aggregate, computePercentiles.
  cbn [simulations set_simulations].
  set (sims := ((simulations r ++ s1) ++ s2) ++ s3).
  destruct (map total_return_pct sims) as [|v vs] eqn:Hpool.
  - cbv zeta.
    match goal with
    | |- context [build_histogram [] ?res] =>
        destruct (build_histogram_total [] res) as (Hlen & _ & Hle);
          [exact Hempty|]
    end.
    split; [exact Hlen|]. cbn [length] in Hle. lia.
  - cbv zeta. set (sorted := std_sort (v :: vs)).
    match goal with
    | |- context [build_histogram sorted ?res] =>
        destruct (build_histogram_total sorted res) as (Hlen & _ & Hle);
          [exact Hempty|]
    end.
    split; [exact Hlen|].
    eapply Z.le_trans; [exact Hle|].
    unfold sorted.
    rewrite <- (Permutation_length (std_sort_permutation (v :: vs))).
    rewrite <- Hpool, length_map. lia.
Qed.

End HistogramOfReport.

(** ** Worked examples

    The cases the specification gives as tests, evaluated on the model. *)

Example get_percentile_median :
  get_percentile [1; 2; 3; 4; 5]%float 50%float = 3%float.
Proof. vm_compute. reflexivity. Qed.

Example calculateMaxDrawdown_one_decline :
  calculateMaxDrawdown [100000; 120000; 90000; 110000]%float = 25%float.
Proof. vm_compute. reflexivity. Qed.

Example calculateSharpeRatio_single_point :
  calculateSharpeRatio [100%float] = 0%float.
Proof. vm_compute. reflexivity. Qed.

Example calculateSharpeRatio_flat_curve :
  calculateSharpeRatio [100; 100; 100]%float = 0%float.
Proof. vm_compute. reflexivity. Qed.

Example computePValue_counts_ties :
  computePValue 2%float [1; 2; 3]%float = (2 / 3)%float.
Proof. vm_compute. reflexivity. Qed.

(** ** Concrete runs

    The lemmas of this part run the engine, with the reference
    implementation of the two interfaces, on sample inputs. *)

(** Evaluates a call that returns and supplies its two results. *)
Ltac run_returned :=
  match goal with
  | |- exists a b, ?run = Returned (a, b) /\ _ =>
      let v := eval vm_compute in run in
      match v with
      | Returned (?x, ?y) => exists x, y; split; [reflexivity|]
      end
  end.

(** C1, counterexample: one stored daily return and one requested path.
    The permuted sequence has length 1 and the result has
    [num_trades = 0]. *)
Lemma return_permutation_num_trades_counterexample :
  let e := setReturns [0.25%float] (new_engine 42 0) in
  exists sims e',
    runReturnPermutation 1 e = Returned (sims, e')
    /\ return_permutation_outcomes 1 e = [[0.25%float]]
    /\ map num_trades sims = [0]
    /\ ~ Forall2 (fun seq sim => num_trades sim = Z.of_nat (length seq))
           (return_permutation_outcomes 1 e) sims.
Proof.
  cbv zeta. run_returned.
  assert (Hout : return_permutation_outcomes 1
                   (setReturns [0.25%float] (new_engine 42 0))
                 = [[0.25%float]]) by (vm_compute; reflexivity).
  rewrite Hout. split; [reflexivity|]. split; [reflexivity|].
  intros H. inversion H as [|? ? ? ? Hhead _]. discriminate Hhead.
Qed.

(** [generators_num_trades] on the sample engine, for four paths. *)
Lemma generators_num_trades_witness :
  let e := setReturns Samples.returns
             (setTrades Samples.trades (new_engine 42 0)) in
  0 <= 4
  /\ Z.of_nat (length (original_trades_ e)) <= INT_MAX
  /\ Z.of_nat (length (daily_returns_ e)) < INT_MAX
  /\ ((exists sims e',
          runPositionShuffle 4 e = Returned (sims, e')
          /\ Forall2
               (fun seq sim =>
                  sim = trade_path_result seq
                  /\ num_trades sim = Z.of_nat (length seq))
               (position_shuffle_outcomes 4 e) sims)
      /\ (exists sims e',
             runBootstrap 4 e = Returned (sims, e')
             /\ Forall2
                  (fun seq sim =>
                     sim = trade_path_result seq
                     /\ num_trades sim = Z.of_nat (length seq))
                  (bootstrap_outcomes 4 e) sims)
      /\ (exists sims e',
             runReturnPermutation 4 e = Returned (sims, e')
             /\ Forall2
                  (fun seq sim =>
                     return_path_result
                       (Z.of_nat (length (daily_returns_ e))) seq
                     = Returned sim
                     /\ num_trades sim = Z.of_nat (length seq) / 20)
                  (return_permutation_outcomes 4 e) sims)).
Proof.
  cbv zeta.
  assert (H1 : 0 <= 4) by lia.
  assert (H2 : Z.of_nat
                 (length
                    (original_trades_
                       (setReturns Samples.returns
                          (setTrades Samples.trades (new_engine 42 0)))))
               <= INT_MAX) by (vm_compute; discriminate).
  assert (H3 : Z.of_nat
                 (length
                    (daily_returns_
                       (setReturns Samples.returns
                          (setTrades Samples.trades (new_engine 42 0)))))
               < INT_MAX) by (vm_compute; reflexivity).
  split; [exact H1|].
  split; [exact H2|].
  split; [exact H3|].
  exact (generators_num_trades 4 _ H1 H2 H3).
Defined.

(** [runPositionShuffle_paths] on the sample trades, for four paths. *)
Lemma runPositionShuffle_paths_witness :
  let e := setTrades Samples.trades (new_engine 42 0) in
  0 <= 4
  /\ original_trades_ e <> []
  /\ Z.of_nat (length (original_trades_ e)) <= INT_MAX
  /\ exists sims e',
       runPositionShuffle 4 e = Returned (sims, e')
       /\ length sims = Z.to_nat 4
       /\ Forall2
            (fun seq sim =>
               sim = trade_path_result seq
               /\ Permutation (trade_pnls_of (original_trades_ e)) seq
               /\ num_trades sim = Z.of_nat (length (original_trades_ e))
               /\ win_rate sim
                  = (double_of_int
                       (Z.of_nat
                          (length (filter (fun pnl => (0 <? pnl)%float) seq)))
                     / double_of_size (length seq) * 100)%float)
            (position_shuffle_outcomes 4 e) sims.
Proof.
  cbv zeta.
  assert (H1 : 0 <= 4) by lia.
  assert (H2 : original_trades_ (setTrades Samples.trades (new_engine 42 0))
               <> []) by (vm_compute; discriminate).
  assert (H3 : Z.of_nat
                 (length
                    (original_trades_
                       (setTrades Samples.trades (new_engine 42 0))))
               <= INT_MAX) by (vm_compute; discriminate).
  split; [exact H1|].
  split; [exact H2|].
  split; [exact H3|].
  exact (runPositionShuffle_paths 4 _ H1 H2 H3).
Defined.

(** C2, the failing input: one trade of +50%, one daily return of +25%,
    three requested paths.  The pool is [50; 25; 50], so
    [distribution_max = 50 > 25 = distribution_min]; both paths at the
    maximum get bucket index 20 and are not counted: the buckets sum to 1,
    not to 3. *)
Lemma histogram_misses_the_maximum :
  let e := setReturns [0.25%float]
             (setTrades [Samples.trade 50%float] (new_engine 42 0)) in
  exists report e',
    runAnalysis (Samples.config 3 42) e = Returned (report, e')
    /\ pooled_returns report = [50%float; 25%float; 50%float]
    /\ distribution_min report = Some 25%float
    /\ distribution_max report = Some 50%float
    /\ return_distribution report = 1 :: repeat 0 19
    /\ fold_right Z.add 0 (return_distribution report) = 1
    /\ length (pooled_returns report) = 3%nat
    /\ static_cast_int ((50 - 25) / ((50 - 25) / 20))%float = 20.
Proof.
  cbv zeta. run_returned. repeat split; vm_compute; reflexivity.
Qed.




(** Without an explicit seed the report depends on what
    [std::random_device] yields: the hypothesis [seed <> 0] of
    [runAnalysis_deterministic] cannot be dropped. *)
Lemma unseeded_engines_differ :
  let run entropy :=
    runAnalysis (Samples.config 9 0)
      (setReturns Samples.returns
         (setTrades Samples.trades (new_engine 0 entropy))) in
  run 1 <> run 2.
Proof.
  intros run H.
  set (first_value r :=
         match r : result (MonteCarloAnalysis * MonteCarloEngine) with
         | Returned (report, _) =>
             hd 0%float (map final_value (simulations report))
         | Thrown _ => 0%float
         end).
  assert (Hf : PrimFloat.eqb (first_value (run 1)) (first_value (run 2))
               = PrimFloat.eqb (first_value (run 2)) (first_value (run 2)))
    by (rewrite H; reflexivity).
  vm_compute in Hf. discriminate Hf.
Qed.

(** [runAnalysis_config_fields] for two configurations that share only
    [num_simulations]. *)
Lemma runAnalysis_config_fields_witness :
  let e := setReturns Samples.returns
             (setTrades Samples.trades (new_engine 42 0)) in
  let c1 := Samples.config 30 42 in
  let c2 := Samples.other_config 30 7 in
  is_uint32 (num_simulations c1)
  /\ num_simulations c1 = num_simulations c2
  /\ same_analysis c1 c2 (3 * (num_simulations c1 / 3))
       (runAnalysis c1 e) (runAnalysis c2 e).
Proof.
  cbv zeta.
  assert (H1 : is_uint32 (num_simulations (Samples.config 30 42)))
    by (unfold is_uint32, UINT32_MAX; simpl; lia).
  assert (H2 : num_simulations (Samples.config 30 42)
               = num_simulations (Samples.other_config 30 7))
    by reflexivity.
  split; [exact H1|].
  split; [exact H2|].
  exact (runAnalysis_config_fields _ _ _ H1 H2).
Defined.

(** [runAnalysis_percentiles] on the sample engine, for thirty requested
    paths. *)
Lemma runAnalysis_percentiles_witness :
  let e := setReturns Samples.returns
             (setTrades Samples.trades (new_engine 42 0)) in
  let config := Samples.config 30 42 in
  is_uint32 (num_simulations config)
  /\ Z.of_nat (length (daily_returns_ e)) < INT_MAX
  /\ exists report e',
       runAnalysis config e = Returned (report, e')
       /\ let pool := pooled_returns report in
          let sorted := std_sort pool in
          let rank (p : Z) :=
            Z.to_nat (p * (Z.of_nat (length pool) - 1) / 100) in
          Permutation pool sorted
          /\ (Forall not_nan pool -> Sorted double_le sorted)
          /\ (pool <> [] ->
              percentile_5 report = Some (nth (rank 5) sorted 0%float)
              /\ percentile_25 report = Some (nth (rank 25) sorted 0%float)
              /\ percentile_50 report = Some (nth (rank 50) sorted 0%float)
              /\ percentile_75 report = Some (nth (rank 75) sorted 0%float)
              /\ percentile_95 report = Some (nth (rank 95) sorted 0%float)
              /\ (rank 95%Z < length pool)%nat)
          /\ (pool = [] ->
              percentile_5 report = Some 0%float
              /\ percentile_25 report = Some 0%float
              /\ percentile_50 report = Some 0%float
              /\ percentile_75 report = Some 0%float
              /\ percentile_95 report = Some 0%float)
          /\ ci_lower_95 report = percentile_5 report
          /\ ci_upper_95 report = percentile_95 report.
Proof.
  cbv zeta.
  assert (H1 : is_uint32 (num_simulations (Samples.config 30 42)))
    by (unfold is_uint32, UINT32_MAX; simpl; lia).
  assert (H2 : Z.of_nat
                 (length
                    (daily_returns_
                       (setReturns Samples.returns
                          (setTrades Samples.trades (new_engine 42 0)))))
               < INT_MAX) by (vm_compute; reflexivity).
  split; [exact H1|].
  split; [exact H2|].
  exact (runAnalysis_percentiles _ _ H1 H2).
Defined.



(** * Further properties *)

(** ** The order of doubles *)

Lemma SFcompare_rank (x y : spec_float) :
  x <> S754_nan -> y <> S754_nan ->
  SFcompare x y = Some (lex_compare (sf_rank x) (sf_rank y)).
Proof.
  destruct x as [sx|sx| |sx mx ex], y as [sy|sy| |sy my ey]; intros Hx Hy;
    try congruence; try destruct sx; try destruct sy; try reflexivity.
  cbn [SFcompare sf_rank lex_compare].
  change (-1 ?= -1) with Eq. cbv iota.
  rewrite Z.compare_opp, (Z.compare_antisym ex ey).
  destruct (ex ?= ey); reflexivity.
Qed.

Lemma lex_compare_Lt (a1 a2 a3 b1 b2 b3 : Z) :
  lex_compare (a1, a2, a3) (b1, b2, b3) = Lt
  <-> a1 < b1 \/ (a1 = b1 /\ (a2 < b2 \/ (a2 = b2 /\ a3 < b3))).
Proof.
  cbn [lex_compare].
  destruct (Z.compare_spec a1 b1), (Z.compare_spec a2 b2),
    (Z.compare_spec a3 b3); split; intros K; try discriminate; try lia;
    reflexivity.
Qed.

Lemma lex_compare_Eq (a1 a2 a3 b1 b2 b3 : Z) :
  lex_compare (a1, a2, a3) (b1, b2, b3) = Eq
  <-> a1 = b1 /\ a2 = b2 /\ a3 = b3.
Proof.
  cbn [lex_compare].
  destruct (Z.compare_spec a1 b1), (Z.compare_spec a2 b2),
    (Z.compare_spec a3 b3); split; intros K; try discriminate; try lia;
    reflexivity.
Qed.

Lemma lex_compare_Gt (a1 a2 a3 b1 b2 b3 : Z) :
  lex_compare (a1, a2, a3) (b1, b2, b3) = Gt
  <-> b1 < a1 \/ (a1 = b1 /\ (b2 < a2 \/ (a2 = b2 /\ b3 < a3))).
Proof.
  cbn [lex_compare].
  destruct (Z.compare_spec a1 b1), (Z.compare_spec a2 b2),
    (Z.compare_spec a3 b3); split; intros K; try discriminate; try lia;
    reflexivity.
Qed.

(** The three comparisons of doubles, read on ranks. *)
Lemma compare_not_nan (x y : double) :
  not_nan x -> not_nan y ->
  SFcompare (Prim2SF x) (Prim2SF y) = Some (lex_compare (double_rank x) (double_rank y)).
Proof.
  intros Hx Hy. apply SFcompare_rank; now apply Prim2SF_nan.
Qed.

Lemma SFcompare_nan_l (y : spec_float) : SFcompare S754_nan y = None.
Proof. reflexivity. Qed.

Lemma SFcompare_nan_r (x : spec_float) : SFcompare x S754_nan = None.
Proof. destruct x as [s|s| |s m e]; reflexivity. Qed.

Lemma not_nan_Prim2SF (x : double) :
  Prim2SF x <> S754_nan -> not_nan x.
Proof.
  intros H. unfold not_nan. destruct (is_nan x) eqn:E; [|reflexivity].
  exfalso. apply H. unfold Prim2SF. now rewrite E.
Qed.

Lemma compared_not_nan (x y : double) (c : comparison) :
  SFcompare (Prim2SF x) (Prim2SF y) = Some c -> not_nan x /\ not_nan y.
Proof.
  intros H. split; apply not_nan_Prim2SF; intros E; rewrite E in H.
  - discriminate H.
  - rewrite SFcompare_nan_r in H. discriminate H.
Qed.

Lemma ltb_true_rank (x y : double) :
  (x <? y)%float = true
  <-> not_nan x /\ not_nan y /\ lex_compare (double_rank x) (double_rank y) = Lt.
Proof.
  rewrite ltb_spec. unfold SFltb. split.
  - destruct (SFcompare _ _) as [c|] eqn:E; [|discriminate].
    destruct (compared_not_nan x y c E) as [Hx Hy].
    rewrite (compare_not_nan x y Hx Hy) in E. injection E as ->.
    destruct c; try discriminate. auto.
  - intros (Hx & Hy & H). now rewrite (compare_not_nan x y Hx Hy), H.
Qed.

Lemma leb_true_rank (x y : double) :
  (x <=? y)%float = true
  <-> not_nan x /\ not_nan y /\ lex_compare (double_rank x) (double_rank y) <> Gt.
Proof.
  rewrite leb_spec. unfold SFleb. split.
  - destruct (SFcompare _ _) as [c|] eqn:E; [|discriminate].
    destruct (compared_not_nan x y c E) as [Hx Hy].
    rewrite (compare_not_nan x y Hx Hy) in E. injection E as ->.
    destruct c; try discriminate; intros _; repeat split; auto; discriminate.
  - intros (Hx & Hy & H). rewrite (compare_not_nan x y Hx Hy).
    destruct (lex_compare _ _); congruence.
Qed.

Lemma eqb_true_rank (x y : double) :
  (x =? y)%float = true
  <-> not_nan x /\ not_nan y /\ double_rank x = double_rank y.
Proof.
  rewrite eqb_spec. unfold SFeqb. split.
  - destruct (SFcompare _ _) as [c|] eqn:E; [|discriminate].
    destruct (compared_not_nan x y c E) as [Hx Hy].
    rewrite (compare_not_nan x y Hx Hy) in E. injection E as <-.
    destruct (double_rank x) as [[a1 a2] a3], (double_rank y) as [[b1 b2] b3].
    destruct (lex_compare (a1, a2, a3) (b1, b2, b3)) eqn:El;
      try discriminate.
    apply lex_compare_Eq in El. intros _. repeat split; auto.
    destruct El as (-> & -> & ->). reflexivity.
  - intros (Hx & Hy & Heq).
    rewrite (compare_not_nan x y Hx Hy), Heq.
    destruct (double_rank y) as [[b1 b2] b3].
    now rewrite (proj2 (lex_compare_Eq b1 b2 b3 b1 b2 b3)).
Qed.

(** [<=] on doubles is transitive (a comparison with a NaN is false). *)
Lemma double_le_trans (x y z : double) :
  double_le x y -> double_le y z -> double_le x z.
Proof.
  unfold double_le. rewrite !leb_true_rank.
  destruct (double_rank x) as [[a1 a2] a3], (double_rank y) as [[b1 b2] b3],
    (double_rank z) as [[c1 c2] c3].
  intros (Hx & Hy & Hxy) (_ & Hz & Hyz). repeat split; auto.
  intros H. apply lex_compare_Gt in H.
  assert (Hxy' : ~ (b1 < a1 \/ (a1 = b1 /\ (b2 < a2 \/ (a2 = b2 /\ b3 < a3)))))
    by (intros K; apply Hxy, lex_compare_Gt, K).
  assert (Hyz' : ~ (c1 < b1 \/ (b1 = c1 /\ (c2 < b2 \/ (b2 = c2 /\ c3 < b3)))))
    by (intros K; apply Hyz, lex_compare_Gt, K).
  lia.
Qed.

(** ** Behaviour of the generators *)

Section GeneratorBehaviour.

Context {RNG : StdRandom} {SORT : StdSort}.

(** X1: a negative requested count makes each generator throw
    [std::length_error], whatever the engine holds: [results.reserve]
    comes before the test for empty input. *)
Theorem generators_reject_negative (n : Z) (e : MonteCarloEngine) :
  n < 0 ->
  runPositionShuffle n e = Thrown length_error
  /\ runReturnPermutation n e = Thrown length_error
  /\ runBootstrap n e = Thrown length_error.
Proof.
  intros Hn.
  unfold runPositionShuffle, runReturnPermutation, runBootstrap.
  rewrite (reserve_negative n Hn). repeat split; reflexivity.
Qed.

Lemma with_rng_same (e : MonteCarloEngine) : with_rng e (rng_ e) = e.
Proof. destruct e; reflexivity. Qed.

Lemma with_rng_twice (e : MonteCarloEngine) (g g' : rng_state) :
  with_rng (with_rng e g) g' = with_rng e g'.
Proof. reflexivity. Qed.

(** A generator that returns has changed the state of [rng_] only. *)
Lemma runPositionShuffle_frame (n : Z) (e e' : MonteCarloEngine)
    (sims : list SimulationResult) :
  runPositionShuffle n e = Returned (sims, e') -> e' = with_rng e (rng_ e').
Proof.
  unfold runPositionShuffle.
  destruct (reserve n); cbn [bind]; [|discriminate].
  destruct (original_trades_ e).
  - intros [= _ <-]. symmetry. apply with_rng_same.
  - destruct (position_shuffle_loop _ _ _) as [rs g].
    intros [= _ <-]. reflexivity.
Qed.

Lemma runBootstrap_frame (n : Z) (e e' : MonteCarloEngine)
    (sims : list SimulationResult) :
  runBootstrap n e = Returned (sims, e') -> e' = with_rng e (rng_ e').
Proof.
  unfold runBootstrap.
  destruct (reserve n); cbn [bind]; [|discriminate].
  destruct (original_trades_ e).
  - intros [= _ <-]. symmetry. apply with_rng_same.
  - destruct (bootstrap_loop _ _ _) as [rs g].
    intros [= _ <-]. reflexivity.
Qed.

Lemma runReturnPermutation_frame (n : Z) (e e' : MonteCarloEngine)
    (sims : list SimulationResult) :
  runReturnPermutation n e = Returned (sims, e') ->
  e' = with_rng e (rng_ e').
Proof.
  unfold runReturnPermutation.
  destruct (reserve n); cbn [bind]; [|discriminate].
  destruct (daily_returns_ e).
  - intros [= _ <-]. symmetry. apply with_rng_same.
  - destruct (return_permutation_loop _ _ _ _) as [[rs g]|ex]; cbn [bind];
      [|discriminate].
    intros [= _ <-]. reflexivity.
Qed.

Lemma runAnalysis_frame (config : SimulationConfig)
    (e e' : MonteCarloEngine) (report : MonteCarloAnalysis) :
  runAnalysis config e = Returned (report, e') -> e' = with_rng e (rng_ e').
Proof.
  unfold runAnalysis.
  set (per := to_int (num_simulations config / 3)).
  destruct (runPositionShuffle per e) as [[s1 e1]|ex] eqn:H1; cbn [bind];
    [|discriminate].
  destruct (runReturnPermutation per e1) as [[s2 e2]|ex] eqn:H2;
    cbn [bind]; [|discriminate].
  destruct (runBootstrap per e2) as [[s3 e3]|ex] eqn:H3; cbn [bind];
    [|discriminate].
  intros [= _ <-].
  apply runPositionShuffle_frame in H1.
  apply runReturnPermutation_frame in H2.
  apply runBootstrap_frame in H3.
  rewrite H3, H2, H1. reflexivity.
Qed.

(** X2: [runAnalysis] leaves the engine as it found it but for the state
    of the random generator: stored trades, returns and prices are
    unchanged, so a later call works on the same data with the stream
    continued. *)
Theorem runAnalysis_only_advances_generator (config : SimulationConfig)
    (e : MonteCarloEngine) :
  is_uint32 (num_simulations config) ->
  Z.of_nat (length (daily_returns_ e)) < INT_MAX ->
  exists report e',
    runAnalysis config e = Returned (report, e')
    /\ e' = with_rng e (rng_ e')
    /\ original_trades_ e' = original_trades_ e
    /\ daily_returns_ e' = daily_returns_ e
    /\ prices_ e' = prices_ e.
Proof.
  intros Hn Hdays.
  destruct (runAnalysis_returns config e Hn Hdays)
    as (s1 & s2 & s3 & e' & Hrun & _).
  eexists _, e'. split; [exact Hrun|].
  pose proof (runAnalysis_frame _ _ _ _ Hrun) as Hf.
  split; [exact Hf|]. rewrite Hf. repeat split; reflexivity.
Qed.

Lemma return_path_result_win_rate (num_days : Z) (seq : list double)
    (sim : SimulationResult) :
  return_path_result num_days seq = Returned sim ->
  win_rate sim = 50%float
  /\ final_value sim = fst (compound 100000%float [100000%float] seq).
Proof.
  unfold return_path_result, reserve.
  destruct (num_days + 1 <? 0); cbn [bind]; [discriminate|].
  destruct (compound _ _ seq) as [capital curve].
  intros [= <-]. split; reflexivity.
Qed.

Lemma return_permutation_outcomes_length (n : Z) (e : MonteCarloEngine) :
  daily_returns_ e <> [] ->
  length (return_permutation_outcomes n e) = Z.to_nat n.
Proof.
  unfold return_permutation_outcomes.
  destruct (daily_returns_ e); [congruence|].
  intros _. apply shuffle_sequences_length.
Qed.

(** X3: for a non-empty return series and [n >= 0], [runReturnPermutation]
    returns exactly [n] results; each is the evaluation of a rearrangement
    of the stored daily returns, and each reports the fixed win rate 50,
    whatever the returns are. *)
Theorem runReturnPermutation_paths (n : Z) (e : MonteCarloEngine) :
  0 <= n ->
  daily_returns_ e <> [] ->
  Z.of_nat (length (daily_returns_ e)) < INT_MAX ->
  exists sims e',
    runReturnPermutation n e = Returned (sims, e')
    /\ length sims = Z.to_nat n
    /\ Forall2
         (fun seq sim =>
            Permutation (daily_returns_ e) seq
            /\ final_value sim = fst (compound 100000%float [100000%float] seq)
            /\ win_rate sim = 50%float)
         (return_permutation_outcomes n e) sims.
Proof.
  intros Hn Hne Hdays.
  destruct (runReturnPermutation_returns n e Hn Hdays)
    as (sims & e' & Hrun & Hall).
  exists sims, e'. split; [exact Hrun|]. split.
  - rewrite <- (Forall2_length Hall).
    now apply return_permutation_outcomes_length.
  - pose proof (return_permutation_outcomes_permutation n e) as Hperm.
    rewrite Forall_forall in Hperm.
    eapply Forall2_weaken; [|exact Hall].
    intros seq sim Hin Hres.
    destruct (return_path_result_win_rate _ _ _ Hres) as [Hw Hf].
    auto.
Qed.

Lemma bootstrap_sample_members (draws : nat) (l : list double)
    (g : rng_state) :
  l <> [] ->
  Forall (fun v => In v l) (fst (bootstrap_sample draws l g)).
Proof.
  intros Hne. revert g.
  induction draws as [|draws IH]; intros g; simpl; [constructor|].
  pose proof (uniform_int_distribution_range (length l - 1) g) as Hidx.
  destruct (uniform_int_distribution _ g) as [idx g1]. simpl in Hidx.
  specialize (IH g1). destruct (bootstrap_sample draws l g1) as [sample g2].
  simpl in *. constructor; [|exact IH].
  apply nth_In. destruct l; [congruence|]. simpl in *. lia.
Qed.

Lemma bootstrap_sequences_members (count : nat) (l : list double)
    (g : rng_state) :
  l <> [] ->
  Forall (Forall (fun v => In v l)) (bootstrap_sequences count l g).
Proof.
  intros Hne. revert g.
  induction count as [|count IH]; intros g; simpl; [constructor|].
  pose proof (bootstrap_sample_members (length l) l g Hne) as Hs.
  destruct (bootstrap_sample _ l g) as [s g1]. simpl in Hs.
  constructor; auto.
Qed.

Lemma bootstrap_outcomes_length (n : Z) (e : MonteCarloEngine) :
  original_trades_ e <> [] ->
  length (bootstrap_outcomes n e) = Z.to_nat n.
Proof.
  unfold bootstrap_outcomes.
  destruct (original_trades_ e); [congruence|].
  intros _. apply bootstrap_sequences_length.
Qed.

(** X4: for a non-empty trade list and [n >= 0], [runBootstrap] returns
    exactly [n] results; each is the evaluation of a sample that has as
    many entries as there are stored trades, every entry being the
    fractional P&L of one of them. *)
Theorem runBootstrap_paths (n : Z) (e : MonteCarloEngine) :
  0 <= n ->
  original_trades_ e <> [] ->
  exists sims e',
    runBootstrap n e = Returned (sims, e')
    /\ length sims = Z.to_nat n
    /\ Forall2
         (fun seq sim =>
            sim = trade_path_result seq
            /\ length seq = length (original_trades_ e)
            /\ Forall (fun v => In v (trade_pnls_of (original_trades_ e)))
                 seq)
         (bootstrap_outcomes n e) sims.
Proof.
  intros Hn Hne.
  destruct (runBootstrap_returns n e Hn) as [e' Hrun].
  eexists _, e'. split; [exact Hrun|]. split.
  - rewrite length_map. now apply bootstrap_outcomes_length.
  - apply Forall2_map_right.
    pose proof (bootstrap_outcomes_sizes n e) as Hsizes.
    assert (Hmem : Forall
                     (Forall
                        (fun v => In v (trade_pnls_of (original_trades_ e))))
                     (bootstrap_outcomes n e)).
    { unfold bootstrap_outcomes.
      destruct (original_trades_ e) as [|t ts] eqn:Ht; [constructor|].
      apply bootstrap_sequences_members. discriminate. }
    rewrite Forall_forall in Hsizes, Hmem |- *.
    intros seq Hin. split; [reflexivity|]. split; auto.
Qed.

End GeneratorBehaviour.

(** ** Single trades, composition and what is read *)

Section ReportComposition.

Context {RNG : StdRandom} {SORT : StdSort}.

Lemma shuffle_sequences_single (count : nat) (x : double) (g : rng_state) :
  shuffle_sequences count [x] g = repeat [x] count.
Proof.
  revert g. induction count as [|count IH]; intros g; simpl; [reflexivity|].
  pose proof (std_shuffle_permutation [x] g) as Hp.
  destruct (std_shuffle [x] g) as [s g1]. simpl in Hp.
  apply Permutation_length_1_inv in Hp. subst s. now rewrite IH.
Qed.

Lemma bootstrap_sequences_single (count : nat) (x : double) (g : rng_state) :
  bootstrap_sequences count [x] g = repeat [x] count.
Proof.
  revert g. induction count as [|count IH]; intros g; simpl; [reflexivity|].
  pose proof (uniform_int_distribution_range 0 g) as Hidx.
  destruct (uniform_int_distribution 0 g) as [idx g1]. simpl in Hidx.
  assert (idx = 0%nat) by lia. subst idx. simpl. now rewrite IH.
Qed.

Lemma runPositionShuffle_single_trade (n : Z) (e : MonteCarloEngine)
    (t : Trade) :
  0 <= n ->
  original_trades_ e = [t] ->
  exists e1,
    runPositionShuffle n e
    = Returned
        (repeat (trade_path_result [(pnl_pct t / 100)%float]) (Z.to_nat n),
         e1).
Proof.
  intros Hn Ht.
  destruct (runPositionShuffle_returns n e Hn) as [e1 H1].
  exists e1. rewrite H1.
  unfold position_shuffle_outcomes. rewrite Ht.
  cbn [trade_pnls_of map].
  now rewrite shuffle_sequences_single, map_repeat.
Qed.

Lemma runBootstrap_single_trade (n : Z) (e : MonteCarloEngine) (t : Trade) :
  0 <= n ->
  original_trades_ e = [t] ->
  exists e1,
    runBootstrap n e
    = Returned
        (repeat (trade_path_result [(pnl_pct t / 100)%float]) (Z.to_nat n),
         e1).
Proof.
  intros Hn Ht.
  destruct (runBootstrap_returns n e Hn) as [e1 H1].
  exists e1. rewrite H1.
  unfold bootstrap_outcomes. rewrite Ht.
  cbn [trade_pnls_of map].
  now rewrite bootstrap_sequences_single, map_repeat.
Qed.

(** X5: with exactly one stored trade, every path of [runPositionShuffle]
    and of [runBootstrap] is the same result, the evaluation of that one
    trade, whatever the random generator does. *)
Theorem single_trade_paths (n : Z) (e : MonteCarloEngine) (t : Trade) :
  0 <= n ->
  original_trades_ e = [t] ->
  let sim := trade_path_result [(pnl_pct t / 100)%float] in
  exists e1 e2,
    runPositionShuffle n e = Returned (repeat sim (Z.to_nat n), e1)
    /\ runBootstrap n e = Returned (repeat sim (Z.to_nat n), e2).
Proof.
  intros Hn Ht sim.
  destruct (runPositionShuffle_single_trade n e t Hn Ht) as [e1 H1].
  destruct (runBootstrap_single_trade n e t Hn Ht) as [e2 H2].
  exists e1, e2. split; [exact H1|exact H2].
Qed.

Lemma filter_length_permutation {A : Type} (f : A -> bool) (l l' : list A) :
  Permutation l l' -> length (filter f l) = length (filter f l').
Proof.
  induction 1 as [|x l l' _ IH|x y l|l l' l'' _ IH1 _ IH2]; simpl.
  - reflexivity.
  - destruct (f x); simpl; congruence.
  - destruct (f x), (f y); reflexivity.
  - congruence.
Qed.

Lemma trade_path_result_permutation (pnls seq : list double) :
  Permutation pnls seq ->
  win_rate (trade_path_result seq) = win_rate (trade_path_result pnls)
  /\ num_trades (trade_path_result seq) = num_trades (trade_path_result pnls).
Proof.
  intros Hp. rewrite !trade_path_result_win_rate, !trade_path_result_num_trades.
  pose proof (Permutation_length Hp) as Hl.
  rewrite !count_wins_filter,
    (filter_length_permutation (fun pnl => (0 <? pnl)%float) _ _ Hp), Hl.
  split; [|reflexivity].
  destruct pnls, seq; try discriminate; reflexivity.
Qed.

(** X6: shuffling changes neither the trade count nor the win rate: every
    result of [runPositionShuffle] reports the [num_trades] and the
    [win_rate] of the stored trades in their original order. *)
Theorem runPositionShuffle_same_win_rate (n : Z) (e : MonteCarloEngine) :
  0 <= n ->
  let original := trade_path_result (trade_pnls_of (original_trades_ e)) in
  exists sims e',
    runPositionShuffle n e = Returned (sims, e')
    /\ Forall
         (fun sim =>
            win_rate sim = win_rate original
            /\ num_trades sim = num_trades original)
         sims.
Proof.
  intros Hn original.
  destruct (runPositionShuffle_returns n e Hn) as [e' Hrun].
  eexists _, e'. split; [exact Hrun|].
  rewrite Forall_map.
  eapply Forall_impl; [|apply position_shuffle_outcomes_permutation].
  intros seq Hperm. now apply trade_path_result_permutation.
Qed.

(** [runAnalysis] is the three generators called in turn on the engine,
    each on the state the one before left, with [aggregate] applied to
    their results. *)
Lemma runAnalysis_chain (config : SimulationConfig) (e : MonteCarloEngine) :
  is_uint32 (num_simulations config) ->
  Z.of_nat (length (daily_returns_ e)) < INT_MAX ->
  let per := num_simulations config / 3 in
  exists s1 e1 s2 e2 s3 e3,
    runPositionShuffle per e = Returned (s1, e1)
    /\ runReturnPermutation per e1 = Returned (s2, e2)
    /\ runBootstrap per e2 = Returned (s3, e3)
    /\ runAnalysis config e
       = Returned
           (aggregate
              (set_num_trials (set_seed_used uninitialised (seed config))
                 (num_simulations config)) s1 s2 s3, e3).
Proof.
  intros Hn Hdays per. unfold runAnalysis.
  destruct (per_generator_range _ Hn) as (-> & Hper & _). fold per.
  destruct (runPositionShuffle_returns per e Hper) as [e1 Hr1].
  pose proof (runPositionShuffle_frame _ _ _ _ Hr1) as Hf1.
  destruct (runReturnPermutation_returns per e1 Hper) as (s2 & e2 & Hr2 & _);
    [rewrite Hf1; exact Hdays|].
  destruct (runBootstrap_returns per e2 Hper) as [e3 Hr3].
  eexists _, e1, s2, e2, _, e3.
  rewrite Hr1. cbn [bind]. rewrite Hr2. cbn [bind]. rewrite Hr3. cbn [bind].
  repeat split; reflexivity.
Qed.

(** X7: the report pools the results of the three public generators in the
    order shuffle, permutation, bootstrap, the second and third generator
    starting from the generator state the one before left. *)
Theorem runAnalysis_pools_generators (config : SimulationConfig)
    (e : MonteCarloEngine) :
  is_uint32 (num_simulations config) ->
  Z.of_nat (length (daily_returns_ e)) < INT_MAX ->
  let per := num_simulations config / 3 in
  exists s1 e1 s2 e2 s3 e3 report,
    runPositionShuffle per e = Returned (s1, e1)
    /\ runReturnPermutation per e1 = Returned (s2, e2)
    /\ runBootstrap per e2 = Returned (s3, e3)
    /\ runAnalysis config e = Returned (report, e3)
    /\ simulations report = s1 ++ s2 ++ s3.
Proof.
  intros Hn Hdays per.
  destruct (runAnalysis_chain config e Hn Hdays)
    as (s1 & e1 & s2 & e2 & s3 & e3 & H1 & H2 & H3 & Hrun).
  eexists s1, e1, s2, e2, s3, e3, _.
  repeat (split; [eassumption|]).
  rewrite aggregate_simulations. cbn [simulations set_num_trials
    set_seed_used uninitialised app]. now rewrite <- app_assoc.
Qed.

(** X8: the number of paths in the report.  Each generator that has input
    contributes [floor(num_simulations / 3)] paths (the shuffle and the
    bootstrap need a trade, the permutation a daily return); the remainder
    of the division is dropped. *)
Theorem runAnalysis_path_count (config : SimulationConfig)
    (e : MonteCarloEngine) :
  is_uint32 (num_simulations config) ->
  Z.of_nat (length (daily_returns_ e)) < INT_MAX ->
  exists report e',
    runAnalysis config e = Returned (report, e')
    /\ Z.of_nat (length (simulations report))
       = (num_simulations config / 3)
         * ((match original_trades_ e with [] => 0 | _ :: _ => 2 end)
            + (match daily_returns_ e with [] => 0 | _ :: _ => 1 end)).
Proof.
  intros Hn Hdays.
  destruct (runAnalysis_chain config e Hn Hdays)
    as (s1 & e1 & s2 & e2 & s3 & e3 & H1 & H2 & H3 & Hrun).
  set (report := aggregate _ s1 s2 s3) in Hrun.
  assert (Hs : simulations report = (s1 ++ s2) ++ s3).
  { unfold report. rewrite aggregate_simulations.
    cbn [simulations set_num_trials set_seed_used uninitialised app].
    reflexivity. }
  destruct (per_generator_range _ Hn) as (_ & Hper & _).
  set (per := num_simulations config / 3) in *.
  exists report, e3. split; [exact Hrun|].
  pose proof (runPositionShuffle_frame _ _ _ _ H1) as Hf1.
  pose proof (runReturnPermutation_frame _ _ _ _ H2) as Hf2.
  assert (Ht2 : original_trades_ e2 = original_trades_ e)
    by (rewrite Hf2, Hf1; reflexivity).
  assert (Hd1 : daily_returns_ e1 = daily_returns_ e)
    by (rewrite Hf1; reflexivity).
  destruct (runPositionShuffle_returns per e Hper) as [e1' K1].
  rewrite K1 in H1. injection H1 as <- _.
  destruct (runBootstrap_returns per e2 Hper) as [e3' K3].
  rewrite K3 in H3. injection H3 as <- _.
  assert (Hl2 : length s2
                = match daily_returns_ e with
                  | [] => 0%nat
                  | _ :: _ => Z.to_nat per
                  end).
  { assert (Hdays1 : Z.of_nat (length (daily_returns_ e1)) < INT_MAX)
      by (rewrite Hd1; exact Hdays).
    destruct (runReturnPermutation_returns per e1 Hper Hdays1)
      as (s2' & e2' & K2 & Hall).
    rewrite K2 in H2. injection H2 as <- _.
    rewrite <- (Forall2_length Hall).
    unfold return_permutation_outcomes. rewrite Hd1.
    destruct (daily_returns_ e); [reflexivity|].
    apply shuffle_sequences_length. }
  rewrite Hs, !length_app, !length_map, Hl2.
  unfold position_shuffle_outcomes, bootstrap_outcomes. rewrite Ht2.
  destruct (original_trades_ e), (daily_returns_ e);
    rewrite ?shuffle_sequences_length, ?bootstrap_sequences_length;
    cbn [length]; lia.
Qed.

Lemma trade_pnls_of_pnl_pct (t1 t2 : list Trade) :
  map pnl_pct t1 = map pnl_pct t2 -> trade_pnls_of t1 = trade_pnls_of t2.
Proof.
  intros H. unfold trade_pnls_of.
  rewrite <- (map_map pnl_pct (fun p => (p / 100)%float) t1),
    <- (map_map pnl_pct (fun p => (p / 100)%float) t2).
  now rewrite H.
Qed.

Lemma same_read_input_with_rng (e1 e2 : MonteCarloEngine) (g : rng_state) :
  same_read_input e1 e2 -> same_read_input (with_rng e1 g) (with_rng e2 g).
Proof. intros (_ & Ht & Hd). repeat split; assumption. Qed.

Lemma runPositionShuffle_reads (n : Z) (e1 e2 : MonteCarloEngine) :
  same_read_input e1 e2 ->
  same_outcome (runPositionShuffle n e1) (runPositionShuffle n e2).
Proof.
  intros Hsame. pose proof Hsame as (Hg & Ht & Hd).
  unfold runPositionShuffle, same_outcome.
  destruct (reserve n); cbn [bind]; [|reflexivity].
  pose proof (trade_pnls_of_pnl_pct _ _ Ht) as Hp.
  destruct (original_trades_ e1) as [|t1 ts1], (original_trades_ e2)
    as [|t2 ts2]; try discriminate Ht.
  - split; [reflexivity|exact Hsame].
  - rewrite Hp, Hg.
    destruct (position_shuffle_loop _ _ _) as [rs g].
    split; [reflexivity|]. apply same_read_input_with_rng. exact Hsame.
Qed.

Lemma runBootstrap_reads (n : Z) (e1 e2 : MonteCarloEngine) :
  same_read_input e1 e2 ->
  same_outcome (runBootstrap n e1) (runBootstrap n e2).
Proof.
  intros Hsame. pose proof Hsame as (Hg & Ht & Hd).
  unfold runBootstrap, same_outcome.
  destruct (reserve n); cbn [bind]; [|reflexivity].
  pose proof (trade_pnls_of_pnl_pct _ _ Ht) as Hp.
  destruct (original_trades_ e1) as [|t1 ts1], (original_trades_ e2)
    as [|t2 ts2]; try discriminate Ht.
  - split; [reflexivity|exact Hsame].
  - rewrite Hp, Hg.
    destruct (bootstrap_loop _ _ _) as [rs g].
    split; [reflexivity|]. apply same_read_input_with_rng. exact Hsame.
Qed.

Lemma runReturnPermutation_reads (n : Z) (e1 e2 : MonteCarloEngine) :
  same_read_input e1 e2 ->
  same_outcome (runReturnPermutation n e1) (runReturnPermutation n e2).
Proof.
  intros Hsame. pose proof Hsame as (Hg & Ht & Hd).
  unfold runReturnPermutation, same_outcome.
  destruct (reserve n); cbn [bind]; [|reflexivity].
  rewrite Hd, Hg.
  destruct (daily_returns_ e2) as [|r rs].
  - split; [reflexivity|exact Hsame].
  - destruct (return_permutation_loop _ _ _ _) as [[sims g]|ex]; cbn [bind];
      [|reflexivity].
    split; [reflexivity|]. apply same_read_input_with_rng. exact Hsame.
Qed.

(** X9: what [runAnalysis] reads of the engine is the generator state, the
    [pnl_pct] of each trade and the daily returns.  Two engines that agree
    on these (they may differ in [prices_] and in the prices, holding
    times and win flags of the trades) give the same report or throw the
    same exception, and still agree afterwards. *)
Theorem runAnalysis_reads (config : SimulationConfig)
    (e1 e2 : MonteCarloEngine) :
  same_read_input e1 e2 ->
  same_outcome (runAnalysis config e1) (runAnalysis config e2).
Proof.
  intros Hsame. unfold runAnalysis.
  set (per := to_int (num_simulations config / 3)).
  pose proof (runPositionShuffle_reads per e1 e2 Hsame) as H1.
  unfold same_outcome in H1 |- *.
  destruct (runPositionShuffle per e1) as [[s1 a1]|x1],
    (runPositionShuffle per e2) as [[s1' a1']|x1']; cbn [bind];
    try contradiction; [|exact H1].
  destruct H1 as [<- Hsame1].
  pose proof (runReturnPermutation_reads per a1 a1' Hsame1) as H2.
  unfold same_outcome in H2.
  destruct (runReturnPermutation per a1) as [[s2 a2]|x2],
    (runReturnPermutation per a1') as [[s2' a2']|x2']; cbn [bind];
    try contradiction; [|exact H2].
  destruct H2 as [<- Hsame2].
  pose proof (runBootstrap_reads per a2 a2' Hsame2) as H3.
  unfold same_outcome in H3.
  destruct (runBootstrap per a2) as [[s3 a3]|x3],
    (runBootstrap per a2') as [[s3' a3']|x3']; cbn [bind];
    try contradiction; [|exact H3].
  destruct H3 as [<- Hsame3].
  split; [reflexivity|exact Hsame3].
Qed.

End ReportComposition.

(** ** Order of the percentiles and the histogram bounds *)

Lemma double_le_refl (x : double) : not_nan x -> double_le x x.
Proof.
  intros Hx. apply leb_true_rank. repeat split; try assumption.
  destruct (double_rank x) as [[a b] c]. intros H.
  apply lex_compare_Gt in H. lia.
Qed.

Lemma ltb_not_nan (x y : double) :
  (x <? y)%float = true -> not_nan x /\ not_nan y.
Proof. intros H. apply ltb_true_rank in H. tauto. Qed.

Lemma leb_not_nan (x y : double) : double_le x y -> not_nan x /\ not_nan y.
Proof. intros H. apply leb_true_rank in H. tauto. Qed.

Lemma double_le_transitive : Relations_1.Transitive double_le.
Proof. intros x y z. apply double_le_trans. Qed.

(** [std::min_element] on doubles without NaN yields a member that no
    member is below. *)
Lemma min_fold_spec (rest : list double) (acc : double) :
  not_nan acc -> Forall not_nan rest ->
  let m := fold_left (fun m y => if (y <? m)%float then y else m) rest acc in
  (m = acc \/ In m rest) /\ double_le m acc /\ Forall (double_le m) rest.
Proof.
  revert acc.
  induction rest as [|y rest IH]; intros acc Hacc Hrest; cbn [fold_left].
  - repeat split; auto using double_le_refl.
  - inversion Hrest as [|? ? Hy Hrest']; subst.
    destruct (y <? acc)%float eqn:E.
    + destruct (IH y Hy Hrest') as (Hin & Hm & Hall).
      cbv zeta. split; [|split].
      * destruct Hin as [Hin | Hin];
          [right; left; symmetry; exact Hin|right; right; exact Hin].
      * eapply double_le_trans; [exact Hm|apply ltb_leb; exact E].
      * constructor; [exact Hm|exact Hall].
    + destruct (IH acc Hacc Hrest') as (Hin & Hm & Hall).
      cbv zeta. split; [|split].
      * destruct Hin as [Hin | Hin]; [left; exact Hin|right; right; exact Hin].
      * exact Hm.
      * constructor; [|exact Hall].
        eapply double_le_trans; [exact Hm|]. apply ltb_false_leb; assumption.
Qed.

Lemma max_fold_spec (rest : list double) (acc : double) :
  not_nan acc -> Forall not_nan rest ->
  let m := fold_left (fun m y => if (m <? y)%float then y else m) rest acc in
  (m = acc \/ In m rest) /\ double_le acc m
  /\ Forall (fun y => double_le y m) rest.
Proof.
  revert acc.
  induction rest as [|y rest IH]; intros acc Hacc Hrest; cbn [fold_left].
  - repeat split; auto using double_le_refl.
  - inversion Hrest as [|? ? Hy Hrest']; subst.
    destruct (acc <? y)%float eqn:E.
    + destruct (IH y Hy Hrest') as (Hin & Hm & Hall).
      cbv zeta. split; [|split].
      * destruct Hin as [Hin | Hin];
          [right; left; symmetry; exact Hin|right; right; exact Hin].
      * eapply double_le_trans; [apply ltb_leb; exact E|exact Hm].
      * constructor; [exact Hm|exact Hall].
    + destruct (IH acc Hacc Hrest') as (Hin & Hm & Hall).
      cbv zeta. split; [|split].
      * destruct Hin as [Hin | Hin]; [left; exact Hin|right; right; exact Hin].
      * exact Hm.
      * constructor; [|exact Hall].
        eapply double_le_trans; [|exact Hm]. apply ltb_false_leb; assumption.
Qed.

Lemma min_element_spec (l : list double) :
  l <> [] -> Forall not_nan l ->
  exists m, min_element l = Some m /\ In m l /\ Forall (double_le m) l.
Proof.
  destruct l as [|x rest]; [congruence|]. intros _ Hl.
  inversion Hl as [|? ? Hx Hrest]; subst.
  destruct (min_fold_spec rest x Hx Hrest) as (Hin & Hm & Hall).
  eexists. split; [reflexivity|]. split.
  - destruct Hin as [-> | Hin]; [left; reflexivity|right; exact Hin].
  - constructor; assumption.
Qed.

Lemma max_element_spec (l : list double) :
  l <> [] -> Forall not_nan l ->
  exists m, max_element l = Some m /\ In m l
            /\ Forall (fun y => double_le y m) l.
Proof.
  destruct l as [|x rest]; [congruence|]. intros _ Hl.
  inversion Hl as [|? ? Hx Hrest]; subst.
  destruct (max_fold_spec rest x Hx Hrest) as (Hin & Hm & Hall).
  eexists. split; [reflexivity|]. split.
  - destruct Hin as [-> | Hin]; [left; reflexivity|right; exact Hin].
  - constructor; assumption.
Qed.

(** In a sorted vector without NaN, a lower index holds a value that is
    not above the one at a higher index. *)
Lemma sorted_nth_le (l : list double) (i j : nat) :
  Sorted double_le l -> Forall not_nan l ->
  (i <= j < length l)%nat ->
  double_le (nth i l 0%float) (nth j l 0%float).
Proof.
  intros Hs Hn. apply Sorted_StronglySorted in Hs; [|exact double_le_transitive].
  revert i j. induction Hs as [|x l Hs IH Hx]; intros i j Hij; cbn [length] in Hij.
  - lia.
  - inversion Hn as [|? ? Hnx Hnl]; subst.
    destruct i as [|i], j as [|j]; cbn [nth]; try lia.
    + apply double_le_refl; exact Hnx.
    + rewrite Forall_forall in Hx. apply Hx. apply nth_In. lia.
    + apply IH; [exact Hnl|lia].
Qed.

Section Ordered.

Context {RNG : StdRandom} {SORT : StdSort}.

(** The bounds of the histogram are the smallest and the largest element
    of the sorted pool. *)
Lemma aggregate_bounds (r : MonteCarloAnalysis)
    (s1 s2 s3 : list SimulationResult) :
  let report := aggregate r s1 s2 s3 in
  let pool := map total_return_pct (((simulations r ++ s1) ++ s2) ++ s3) in
  pool <> [] ->
  distribution_min report = min_element (std_sort pool)
  /\ distribution_max report = max_element (std_sort pool).
Proof.
  cbv zeta. unfold aggregate, computePercentiles.
  cbn [simulations set_simulations].
  destruct (map total_return_pct _) as [|v vs] eqn:Hpool; [congruence|].
  intros _. cbv zeta. unfold build_histogram.
  pose proof (Permutation_length (std_sort_permutation (v :: vs))) as Hl.
  destruct (std_sort (v :: vs)) as [|w ws] eqn:Hsorted; [discriminate Hl|].
  cbn [min_element max_element].
  destruct (_ <? _)%float; split; reflexivity.
Qed.

(** X10: when no pooled return is a NaN and the pool is not empty, the
    report is ordered: [distribution_min <= percentile_5 <= percentile_25
    <= percentile_50 <= percentile_75 <= percentile_95 <=
    distribution_max], and each of the seven values is the return of one
    of the paths. *)
Theorem runAnalysis_percentiles_ordered (config : SimulationConfig)
    (e : MonteCarloEngine) :
  is_uint32 (num_simulations config) ->
  Z.of_nat (length (daily_returns_ e)) < INT_MAX ->
  exists report e',
    runAnalysis config e = Returned (report, e')
    /\ (pooled_returns report <> [] ->
        Forall not_nan (pooled_returns report) ->
        exists lo p5 p25 p50 p75 p95 hi,
          distribution_min report = Some lo
          /\ percentile_5 report = Some p5
          /\ percentile_25 report = Some p25
          /\ percentile_50 report = Some p50
          /\ percentile_75 report = Some p75
          /\ percentile_95 report = Some p95
          /\ distribution_max report = Some hi
          /\ double_le lo p5 /\ double_le p5 p25 /\ double_le p25 p50
          /\ double_le p50 p75 /\ double_le p75 p95 /\ double_le p95 hi
          /\ Forall (fun v => In v (pooled_returns report))
               [lo; p5; p25; p50; p75; p95; hi]).
Proof.
  intros Hn Hdays.
  destruct (runAnalysis_returns config e Hn Hdays)
    as (s1 & s2 & s3 & e' & Hrun & Hlen).
  eexists _, e'. split; [exact Hrun|].
  set (r0 := set_num_trials _ _) in *.
  pose proof (aggregate_percentiles r0 s1 s2 s3) as Hp.
  pose proof (aggregate_simulations r0 s1 s2 s3) as Hs.
  pose proof (aggregate_bounds r0 s1 s2 s3) as Hb.
  unfold pooled_returns. rewrite Hs.
  cbv zeta in Hp, Hb.
  set (pool := map total_return_pct _) in *.
  intros Hne Hnn.
  destruct (Hb Hne) as [Hmin Hmax]. clear Hb.
  destruct Hp as (H5 & H25 & H50 & H75 & H95 & _).
  assert (Hcount : Z.of_nat (length pool) <= 2 ^ 32).
  { unfold pool. rewrite length_map, !length_app. cbn [length r0 simulations
      set_num_trials set_seed_used uninitialised].
    destruct (per_generator_range _ Hn) as (_ & Hper & Hle).
    unfold is_uint32, UINT32_MAX in Hn.
    assert (2 ^ 32 = 4294967296) as -> by reflexivity. lia. }
  destruct pool as [|v vs] eqn:Hpool; [congruence|].
  cbv iota in H5, H25, H50, H75, H95.
  rewrite <- Hpool in *.
  set (sorted := std_sort pool) in *.
  pose proof (std_sort_permutation pool) as Hperm. fold sorted in Hperm.
  pose proof (Permutation_length Hperm) as Hl.
  pose proof (std_sort_sorted pool Hnn) as Hsorted. fold sorted in Hsorted.
  assert (Hsnn : Forall not_nan sorted).
  { rewrite Forall_forall in Hnn |- *. intros x Hx. apply Hnn.
    eapply Permutation_in; [apply Permutation_sym; exact Hperm|exact Hx]. }
  assert (Hsne : sorted <> []).
  { intros Hnil. rewrite Hnil, Hpool in Hl. discriminate. }
  assert (Hlen0 : (0 < length sorted)%nat).
  { destruct sorted; [congruence|cbn; lia]. }
  assert (Hlen32 : Z.of_nat (length sorted) <= 2 ^ 32) by (rewrite <- Hl; exact Hcount).
  destruct (min_element_spec sorted Hsne Hsnn) as (lo & Elo & Ilo & Alo).
  destruct (max_element_spec sorted Hsne Hsnn) as (hi & Ehi & Ihi & Ahi).
  destruct (get_percentile_rank sorted 5%float 5) as [E5 B5];
    [reflexivity|lia|assumption|assumption|].
  destruct (get_percentile_rank sorted 25%float 25) as [E25 B25];
    [reflexivity|lia|assumption|assumption|].
  destruct (get_percentile_rank sorted 50%float 50) as [E50 B50];
    [reflexivity|lia|assumption|assumption|].
  destruct (get_percentile_rank sorted 75%float 75) as [E75 B75];
    [reflexivity|lia|assumption|assumption|].
  destruct (get_percentile_rank sorted 95%float 95) as [E95 B95];
    [reflexivity|lia|assumption|assumption|].
  set (n := Z.of_nat (length sorted)) in *.
  assert (Hn1 : 0 <= n - 1) by (unfold n; lia).
  assert (Hmono : forall p q, 0 <= p <= q ->
            (Z.to_nat (p * (n - 1) / 100) <= Z.to_nat (q * (n - 1) / 100))%nat).
  { intros p q Hpq. apply Z2Nat.inj_le.
    - apply Z.div_pos; nia.
    - apply Z.div_pos; nia.
    - apply Z.div_le_mono; nia. }
  assert (Hin : forall i, (i < length sorted)%nat ->
            In (nth i sorted 0%float) pool).
  { intros i Hi. eapply Permutation_in; [apply Permutation_sym; exact Hperm|].
    apply nth_In. exact Hi. }
  assert (Hins : forall i, (i < length sorted)%nat ->
            In (nth i sorted 0%float) sorted).
  { intros i Hi. apply nth_In. exact Hi. }
  rewrite Forall_forall in Alo, Ahi.
  exists lo, (get_percentile sorted 5%float),
    (get_percentile sorted 25%float), (get_percentile sorted 50%float),
    (get_percentile sorted 75%float), (get_percentile sorted 95%float), hi.
  rewrite Hmin, Hmax.
  repeat (split; [assumption|]).
  rewrite E5, E25, E50, E75, E95.
  split; [apply Alo, Hins, B5|].
  split; [apply sorted_nth_le; auto; split; [apply Hmono; lia|exact B25]|].
  split; [apply sorted_nth_le; auto; split; [apply Hmono; lia|exact B50]|].
  split; [apply sorted_nth_le; auto; split; [apply Hmono; lia|exact B75]|].
  split; [apply sorted_nth_le; auto; split; [apply Hmono; lia|exact B95]|].
  split; [apply Ahi, Hins, B95|].
  repeat constructor; auto.
  - eapply Permutation_in; [apply Permutation_sym; exact Hperm|exact Ilo].
  - eapply Permutation_in; [apply Permutation_sym; exact Hperm|exact Ihi].
Qed.

End Ordered.

(** ** The histogram of a report *)

Lemma increment_nonneg (bin : nat) (hist : list Z) :
  Forall (Z.le 0) hist -> Forall (Z.le 0) (increment bin hist).
Proof.
  intros H. revert bin.
  induction H as [|c rest Hc Hrest IH]; intros bin;
    [destruct bin; constructor|].
  destruct bin as [|b]; cbn [increment]; constructor.
  - lia.
  - exact Hrest.
  - exact Hc.
  - apply IH.
Qed.

Lemma histogram_add_nonneg (dmin bin_width ret : double) (hist : list Z) :
  Forall (Z.le 0) hist -> Forall (Z.le 0) (histogram_add dmin bin_width hist ret).
Proof.
  intros H. unfold histogram_add.
  destruct (_ && _); [apply increment_nonneg|]; exact H.
Qed.

Lemma build_histogram_nonneg (returns : list double)
    (result : MonteCarloAnalysis) :
  return_distribution result = [] ->
  Forall (Z.le 0) (return_distribution (build_histogram returns result)).
Proof.
  intros Hempty. unfold build_histogram. rewrite Hempty.
  change (resize 20 0 []) with (repeat 0 20).
  assert (H0 : Forall (Z.le 0) (repeat 0 20)) by (repeat constructor; lia).
  destruct (min_element returns) as [dmin|], (max_element returns) as [dmax|];
    try exact H0.
  destruct (_ <? _)%float; [|exact H0].
  cbn [return_distribution set_return_distribution set_distribution_min
         set_distribution_max].
  generalize (repeat 0 20) H0. clear.
  induction returns as [|x l IH]; intros h Hh; cbn [fold_left]; [exact Hh|].
  apply IH. apply histogram_add_nonneg. exact Hh.
Qed.

Section ReportHistogram.

Context {RNG : StdRandom} {SORT : StdSort}.

Lemma aggregate_histogram_nonneg (r : MonteCarloAnalysis)
    (s1 s2 s3 : list SimulationResult) :
  return_distribution r = [] ->
  Forall (Z.le 0) (return_distribution (aggregate r s1 s2 s3)).
Proof.
  intros Hempty. unfold aggregate, computePercentiles.
  cbn [simulations set_simulations].
  destruct (map total_return_pct _) as [|v vs]; cbv zeta;
    apply build_histogram_nonneg; exact Hempty.
Qed.

(** X11: the histogram of every report has exactly 20 buckets, none of
    them negative, and their sum never exceeds the number of paths. *)
Theorem runAnalysis_histogram (config : SimulationConfig)
    (e : MonteCarloEngine) :
  is_uint32 (num_simulations config) ->
  Z.of_nat (length (daily_returns_ e)) < INT_MAX ->
  exists report e',
    runAnalysis config e = Returned (report, e')
    /\ length (return_distribution report) = 20%nat
    /\ Forall (Z.le 0) (return_distribution report)
    /\ fold_right Z.add 0 (return_distribution report)
       <= Z.of_nat (length (simulations report)).
Proof.
  intros Hn Hdays.
  destruct (runAnalysis_returns config e Hn Hdays)
    as (s1 & s2 & s3 & e' & Hrun & _).
  eexists _, e'. split; [exact Hrun|].
  set (r0 := set_num_trials _ _).
  destruct (aggregate_histogram r0 s1 s2 s3 eq_refl) as [Hlen Hsum].
  split; [exact Hlen|]. split; [|exact Hsum].
  apply aggregate_histogram_nonneg. reflexivity.
Qed.

Lemma Forall_eq_permutation (v : double) (l l' : list double) :
  Permutation l l' -> Forall (eq v) l -> Forall (eq v) l'.
Proof.
  intros Hp. rewrite !Forall_forall. intros H x Hx. apply H.
  eapply Permutation_in; [apply Permutation_sym; exact Hp|exact Hx].
Qed.

Lemma nth_constant (v : double) (l : list double) (i : nat) :
  Forall (eq v) l -> (i < length l)%nat -> nth i l 0%float = v.
Proof.
  intros H Hi. rewrite Forall_forall in H. symmetry. apply H, nth_In, Hi.
Qed.

(** A pool of equal values: the five percentiles and both bounds are that
    value, and no bucket of the histogram is incremented. *)
Lemma aggregate_constant (r : MonteCarloAnalysis)
    (s1 s2 s3 : list SimulationResult) (v : double) :
  return_distribution r = [] ->
  let report := aggregate r s1 s2 s3 in
  let pool := map total_return_pct (((simulations r ++ s1) ++ s2) ++ s3) in
  pool <> [] -> Forall (eq v) pool -> Z.of_nat (length pool) <= 2 ^ 32 ->
  percentile_5 report = Some v
  /\ percentile_25 report = Some v
  /\ percentile_50 report = Some v
  /\ percentile_75 report = Some v
  /\ percentile_95 report = Some v
  /\ distribution_min report = Some v
  /\ distribution_max report = Some v
  /\ return_distribution report = repeat 0 20.
Proof.
  intros Hempty report pool Hne Hall Hcount. subst report.
  unfold aggregate, computePercentiles.
  cbn [simulations set_simulations]. fold pool.
  destruct pool as [|w ws] eqn:Hpool; [congruence|].
  rewrite <- Hpool in *. cbv zeta.
  pose proof (std_sort_permutation pool) as Hperm.
  pose proof (Permutation_length Hperm) as Hl.
  pose proof (Forall_eq_permutation v _ _ Hperm Hall) as Hsall.
  set (sorted := std_sort pool) in *.
  assert (Hsne : sorted <> []).
  { intros Hnil. rewrite Hnil, Hpool in Hl. discriminate. }
  assert (Hlen32 : Z.of_nat (length sorted) <= 2 ^ 32)
    by (rewrite <- Hl; exact Hcount).
  assert (Hget : forall (p : double) (P : Z),
             Prim2SF p = canon P -> 0 < P <= 100 ->
             get_percentile sorted p = v).
  { intros p P Hp HP.
    destruct (get_percentile_rank sorted p P Hp HP Hsne Hlen32) as [-> Hlt].
    apply nth_constant; assumption. }
  rewrite (Hget 5%float 5), (Hget 25%float 25), (Hget 50%float 50),
    (Hget 75%float 75), (Hget 95%float 95) by (reflexivity || lia).
  destruct sorted as [|x rest] eqn:Hsorted; [congruence|].
  inversion Hsall as [|? ? Hx Hrest]; subst x.
  match goal with
  | |- context [build_histogram (v :: rest) ?res] =>
      destruct (build_histogram_constant v rest res Hrest)
        as (Hmin & Hmax & Hdist); [exact Hempty|]
  end.
  rewrite Hmin, Hmax, Hdist.
  unfold build_histogram.
  rewrite (min_element_constant v rest Hrest),
    (max_element_constant v rest Hrest), zero_bin_width.
  repeat split; reflexivity.
Qed.

Lemma runReturnPermutation_no_returns (n : Z) (e : MonteCarloEngine) :
  0 <= n -> daily_returns_ e = [] ->
  runReturnPermutation n e = Returned ([], e).
Proof.
  intros Hn Hd. unfold runReturnPermutation.
  rewrite (reserve_nonneg _ Hn), Hd. reflexivity.
Qed.

(** X12: an engine that holds one trade and no daily returns.  Every path
    is the evaluation of that trade, so for a request of at least three
    paths the five percentiles and both histogram bounds are the return of
    that one path, and the histogram counts nothing: all 20 buckets are 0
    although the report holds [2 * floor(n / 3)] paths. *)
Theorem single_trade_report (config : SimulationConfig)
    (e : MonteCarloEngine) (t : Trade) :
  is_uint32 (num_simulations config) ->
  3 <= num_simulations config ->
  original_trades_ e = [t] ->
  daily_returns_ e = [] ->
  let sim := trade_path_result [(pnl_pct t / 100)%float] in
  exists report e',
    runAnalysis config e = Returned (report, e')
    /\ simulations report
       = repeat sim (2 * Z.to_nat (num_simulations config / 3))
    /\ percentile_5 report = Some (total_return_pct sim)
    /\ percentile_25 report = Some (total_return_pct sim)
    /\ percentile_50 report = Some (total_return_pct sim)
    /\ percentile_75 report = Some (total_return_pct sim)
    /\ percentile_95 report = Some (total_return_pct sim)
    /\ distribution_min report = Some (total_return_pct sim)
    /\ distribution_max report = Some (total_return_pct sim)
    /\ return_distribution report = repeat 0 20.
Proof.
  intros Hn H3 Ht Hd sim.
  assert (Hdays : Z.of_nat (length (daily_returns_ e)) < INT_MAX)
    by (rewrite Hd; reflexivity).
  destruct (runAnalysis_chain config e Hn Hdays)
    as (s1 & e1 & s2 & e2 & s3 & e3 & H1 & H2 & H3' & Hrun).
  destruct (per_generator_range _ Hn) as (_ & Hper & Hle).
  set (per := num_simulations config / 3) in *.
  assert (Hper1 : 1 <= per) by (unfold per; Z.div_mod_to_equations; lia).
  pose proof (runPositionShuffle_frame _ _ _ _ H1) as Hf1.
  assert (Hd1 : daily_returns_ e1 = []) by (rewrite Hf1; exact Hd).
  rewrite (runReturnPermutation_no_returns per e1 Hper Hd1) in H2.
  injection H2 as <- <-.
  assert (Ht1 : original_trades_ e1 = [t]) by (rewrite Hf1; exact Ht).
  destruct (runPositionShuffle_single_trade per e t Hper Ht) as (a1 & K1).
  destruct (runBootstrap_single_trade per e1 t Hper Ht1) as (a3 & K3).
  fold sim in K1, K3.
  rewrite K1 in H1. injection H1 as <- _.
  rewrite K3 in H3'. injection H3' as <- _.
  exists (aggregate
            (set_num_trials (set_seed_used uninitialised (seed config))
               (num_simulations config))
            (repeat sim (Z.to_nat per)) [] (repeat sim (Z.to_nat per))), e3.
  split; [exact Hrun|].
  set (r0 := set_num_trials _ _).
  assert (Hsims : ((simulations r0 ++ repeat sim (Z.to_nat per)) ++ [])
                  ++ repeat sim (Z.to_nat per)
                  = repeat sim (2 * Z.to_nat per)).
  { cbn [r0 simulations set_num_trials set_seed_used uninitialised app].
    rewrite app_nil_r, <- repeat_app. f_equal. lia. }
  split; [rewrite aggregate_simulations; exact Hsims|].
  apply (aggregate_constant r0 _ _ _ (total_return_pct sim) eq_refl);
    rewrite Hsims, map_repeat.
  - destruct (Z.to_nat per) eqn:E; [lia|]. cbn. discriminate.
  - clear. induction (2 * Z.to_nat per)%nat; cbn [repeat]; constructor; auto.
  - rewrite repeat_length.
    unfold is_uint32, UINT32_MAX in Hn.
    assert (2 ^ 32 = 4294967296) as -> by reflexivity. lia.
Qed.

End ReportHistogram.

(** ** The maximum drawdown *)

Lemma iter_pos_invariant {A : Type} (P : A -> Prop) (f : A -> A) :
  (forall x, P x -> P (f x)) ->
  forall (p : positive) (x : A), P x -> P (iter_pos f p x).
Proof.
  intros Hf. induction p as [p IH|p IH|]; intros x Hx; cbn [iter_pos]; auto.
Qed.

Lemma shr_1_nonneg (mrs : shr_record) : 0 <= shr_m mrs -> 0 <= shr_m (shr_1 mrs).
Proof.
  destruct mrs as [m r s]. cbn [shr_m]. intros Hm.
  destruct m as [|p|p]; [cbn; lia| |lia].
  destruct p; cbn; lia.
Qed.

Lemma shr_fexp_nonneg (m e : Z) (l : location) :
  0 <= m -> 0 <= shr_m (fst (shr_fexp prec emax m e l)).
Proof.
  intros Hm. unfold shr_fexp, shr.
  assert (H0 : 0 <= shr_m (shr_record_of_loc m l))
    by (destruct (loc_of_shr_record_of_loc m l) as [_ ->]; exact Hm).
  destruct (fexp prec emax (Zdigits2 m + e) - e) as [|p|p]; cbn [fst];
    try exact H0.
  apply (iter_pos_invariant (fun r => 0 <= shr_m r)); [|exact H0].
  apply shr_1_nonneg.
Qed.

(** Rounding keeps the sign: a non-negative mantissa rounds to a zero, a
    positive number or positive infinity. *)
Lemma binary_round_aux_nonneg (mx ex : Z) (lx : location) :
  0 <= mx ->
  SFleb (S754_zero false) (binary_round_aux prec emax false mx ex lx) = true.
Proof.
  intros Hm. unfold binary_round_aux.
  pose proof (shr_fexp_nonneg mx ex lx Hm) as H1.
  destruct (shr_fexp prec emax mx ex lx) as [mrs' e']. cbn [fst] in H1.
  pose proof (round_nearest_even_bounds (shr_m mrs') (loc_of_shr_record mrs'))
    as Hr.
  assert (H2 : 0 <= round_nearest_even (shr_m mrs') (loc_of_shr_record mrs'))
    by lia.
  pose proof (shr_fexp_nonneg _ e' loc_Exact H2) as H3.
  destruct (shr_fexp prec emax _ e' loc_Exact) as [mrs'' e''].
  cbn [fst] in H3.
  destruct (shr_m mrs'') as [|p|p]; [reflexivity| |lia].
  destruct (e'' <=? emax - prec); reflexivity.
Qed.

Lemma mul_100_nonneg (x : double) :
  (0 <=? x)%float = true -> (0 <=? x * 100)%float = true.
Proof.
  rewrite !leb_spec, mul_spec. unfold SF64mul.
  change (Prim2SF 0) with (S754_zero false).
  change (Prim2SF 100) with (S754_finite false 7036874417766400 (-46)).
  destruct (Prim2SF x) as [s|s| |s m e]; cbn [SFmul xorb]; try discriminate.
  - intros _. destruct s; reflexivity.
  - destruct s; [discriminate|]. intros _. reflexivity.
  - destruct s; [discriminate|]. intros _.
    apply binary_round_aux_nonneg. lia.
Qed.

Lemma leb_ltb_trans (x y z : double) :
  (x <=? y)%float = true -> (y <? z)%float = true -> (x <=? z)%float = true.
Proof.
  intros Hxy Hyz. apply ltb_leb in Hyz.
  exact (double_le_trans x y z Hxy Hyz).
Qed.

(** The running maximum of the drawdown loop never falls below its
    initial value. *)
Lemma drawdown_loop_nonneg (l : list double) (peak max_dd : double) :
  (0 <=? max_dd)%float = true ->
  (0 <=? fst (fold_left
                (fun (st : double * double) (value : double) =>
                   let '(max_dd, peak) := st in
                   let peak := if (peak <? value)%float then value else peak in
                   let drawdown := ((peak - value) / peak)%float in
                   (if (max_dd <? drawdown)%float then drawdown else max_dd,
                    peak))
                l (max_dd, peak)))%float = true.
Proof.
  revert peak max_dd.
  induction l as [|value l IH]; intros peak max_dd H0; cbn [fold_left];
    [exact H0|].
  apply IH.
  destruct (max_dd <? _)%float eqn:E; [|exact H0].
  exact (leb_ltb_trans _ _ _ H0 E).
Qed.

(** X13: [calculateMaxDrawdown] never yields a negative number or a NaN,
    whatever the curve holds (NaN, infinities and negative capital
    included). *)
Theorem calculateMaxDrawdown_nonneg (equity_curve : list double) :
  (0 <=? calculateMaxDrawdown equity_curve)%float = true.
Proof.
  unfold calculateMaxDrawdown.
  destruct equity_curve as [|first rest]; [reflexivity|].
  apply mul_100_nonneg. apply drawdown_loop_nonneg. reflexivity.
Qed.

Lemma self_drawdown (x : double) : (0 <? (x - x) / x)%float = false.
Proof.
  rewrite ltb_spec, div_spec, sub_spec. unfold SF64div, SF64sub.
  change (Prim2SF 0) with (S754_zero false).
  destruct (SFsub_self (Prim2SF x)) as [[s Hs] | Hs]; rewrite Hs;
    [|reflexivity].
  destruct (Prim2SF x) as [sx|sx| |sx mx ex]; cbn [SFdiv]; try reflexivity;
    destruct (xorb s sx); reflexivity.
Qed.

Lemma sf_rank_eq (x y : spec_float) :
  x <> S754_nan -> y <> S754_nan -> sf_rank x = sf_rank y ->
  (exists s s', x = S754_zero s /\ y = S754_zero s') \/ x = y.
Proof.
  destruct x as [sx|sx| |sx mx ex], y as [sy|sy| |sy my ey]; intros Hx Hy;
    try congruence; try destruct sx; try destruct sy; cbn [sf_rank];
    intros H; try discriminate H; eauto;
    right; injection H as He Hm; f_equal; lia.
Qed.

(** Between a peak and a value that compare equal there is no drawdown. *)
Lemma tie_drawdown (peak value : double) :
  double_le peak value -> (peak <? value)%float = false ->
  (0 <? (peak - value) / peak)%float = false.
Proof.
  intros Hle Hlt.
  apply leb_true_rank in Hle. destruct Hle as (Hp & Hv & Hc).
  assert (Hr : double_rank peak = double_rank value).
  { destruct (lex_compare (double_rank peak) (double_rank value)) eqn:E.
    - destruct (double_rank peak) as [[a1 a2] a3],
        (double_rank value) as [[b1 b2] b3].
      apply lex_compare_Eq in E. destruct E as (-> & -> & ->). reflexivity.
    - assert (K : (peak <? value)%float = true)
        by (apply ltb_true_rank; auto).
      congruence.
    - congruence. }
  destruct (sf_rank_eq (Prim2SF peak) (Prim2SF value))
    as [(s & s' & Ep & Ev) | E]; auto using Prim2SF_nan.
  - rewrite ltb_spec, div_spec, sub_spec. unfold SF64div, SF64sub.
    rewrite Ep, Ev. destruct s, s'; reflexivity.
  - assert (peak = value) as ->.
    { rewrite <- (SF2Prim_Prim2SF peak), <- (SF2Prim_Prim2SF value).
      now rewrite E. }
    apply self_drawdown.
Qed.

Lemma drawdown_loop_sorted (l : list double) (peak : double) :
  StronglySorted double_le l -> Forall (double_le peak) l ->
  fst (fold_left
         (fun (st : double * double) (value : double) =>
            let '(max_dd, peak) := st in
            let peak := if (peak <? value)%float then value else peak in
            let drawdown := ((peak - value) / peak)%float in
            (if (max_dd <? drawdown)%float then drawdown else max_dd, peak))
         l (0%float, peak)) = 0%float.
Proof.
  intros Hs. revert peak.
  induction Hs as [|value l Hs IH Hv]; intros peak Hp; cbn [fold_left];
    [reflexivity|].
  inversion Hp as [|? ? Hpv Hpl]; subst.
  destruct (peak <? value)%float eqn:E.
  - rewrite self_drawdown. apply IH. exact Hv.
  - rewrite (tie_drawdown peak value Hpv E). apply IH. exact Hpl.
Qed.

(** X14: on an equity curve that never declines (each point at least the
    one before), [calculateMaxDrawdown] is exactly 0. *)
Theorem calculateMaxDrawdown_rising_curve (equity_curve : list double) :
  Sorted double_le equity_curve ->
  calculateMaxDrawdown equity_curve = 0%float.
Proof.
  intros Hs. unfold calculateMaxDrawdown.
  destruct equity_curve as [|first rest]; [reflexivity|].
  assert (H0 : (0 * 100 = 0)%float) by reflexivity.
  destruct rest as [|second rest].
  - cbn [fold_left fst]. rewrite ltb_irrefl, self_drawdown. exact H0.
  - rewrite drawdown_loop_sorted; [exact H0| |].
    + apply Sorted_StronglySorted; [exact double_le_transitive|exact Hs].
    + apply Sorted_StronglySorted in Hs; [|exact double_le_transitive].
      inversion Hs as [|? ? _ Hall]; subst.
      constructor; [|exact Hall].
      inversion Hall as [|? ? Hfs _]; subst.
      apply double_le_refl. apply (leb_not_nan _ _ Hfs).
Qed.

(** ** The extremes of the p-value *)

(** A finite number divided by itself is 1. *)
Lemma SFdiv_self (s : bool) (m : positive) (e : Z) :
  SFdiv prec emax (S754_finite s m e) (S754_finite s m e) = Prim2SF 1.
Proof.
  cbn [SFdiv]. unfold SFdiv_core_binary.
  replace (Zdigits2 (Z.pos m) + e - (Zdigits2 (Z.pos m) + e)) with 0 by lia.
  replace (e - e) with 0 by lia.
  change (Z.min (fexp prec emax 0) 0) with (-53).
  change (0 - -53) with 53.
  rewrite Z.shiftl_mul_pow2 by lia.
  rewrite div_eucl_div_mod.
  rewrite Z.mul_comm, Z.div_mul, Z.mod_mul by lia.
  rewrite new_location_zero.
  destruct s; reflexivity.
Qed.

Lemma div_self_size (n : nat) :
  0 < Z.of_nat n < 2 ^ 53 ->
  (double_of_size n / double_of_size n)%float = 1%float.
Proof.
  intros Hn.
  rewrite <- (SF2Prim_Prim2SF (_ / _)%float), div_spec.
  unfold SF64div. rewrite (Prim2SF_double_of_size n Hn).
  unfold canon. rewrite SFdiv_self. apply SF2Prim_Prim2SF.
Qed.

Lemma zero_div_size (n : nat) :
  0 < Z.of_nat n < 2 ^ 53 ->
  (double_of_size 0 / double_of_size n)%float = 0%float.
Proof.
  intros Hn.
  rewrite <- (SF2Prim_Prim2SF (_ / _)%float), div_spec.
  unfold SF64div. rewrite (Prim2SF_double_of_size n Hn).
  reflexivity.
Qed.

Lemma filter_all {A : Type} (f : A -> bool) (l : list A) :
  Forall (fun x => f x = true) l -> filter f l = l.
Proof.
  induction 1 as [|x l Hx _ IH]; cbn [filter]; [reflexivity|].
  now rewrite Hx, IH.
Qed.

Lemma filter_none {A : Type} (f : A -> bool) (l : list A) :
  Forall (fun x => f x = false) l -> filter f l = [].
Proof.
  induction 1 as [|x l Hx _ IH]; cbn [filter]; [reflexivity|].
  now rewrite Hx, IH.
Qed.

(** X15: when every simulated value is at least the observed one,
    [computePValue] is exactly 1 (for a population the [int] counter can
    count). *)
Theorem computePValue_all_reach (observed : double) (simulated : list double) :
  Z.of_nat (length simulated) <= INT_MAX ->
  Forall (fun v => (observed <=? v)%float = true) simulated ->
  computePValue observed simulated = 1%float.
Proof.
  intros Hlen Hall. unfold computePValue, INT_MAX in *.
  assert (H53 : 2 ^ 53 = 9007199254740992) by reflexivity.
  destruct simulated as [|v vs]; [reflexivity|].
  rewrite count_better_filter. unfold Spec.count_at_least.
  rewrite (filter_all (Spec.at_least observed) _ Hall), double_of_int_of_nat.
  apply div_self_size. cbn [length] in *. lia.
Qed.

(** X16: when no simulated value reaches the observed one (in particular
    when the observed value is a NaN) and the population is not empty,
    [computePValue] is exactly 0. *)
Theorem computePValue_none_reach (observed : double) (simulated : list double) :
  simulated <> [] ->
  Z.of_nat (length simulated) <= INT_MAX ->
  (is_nan observed = true
   \/ Forall (fun v => (observed <=? v)%float = false) simulated) ->
  computePValue observed simulated = 0%float.
Proof.
  intros Hne Hlen Hnone. unfold INT_MAX in Hlen.
  assert (H53 : 2 ^ 53 = 9007199254740992) by reflexivity.
  assert (Hall : Forall (fun v => (observed <=? v)%float = false) simulated).
  { destruct Hnone as [Hnan | H]; [|exact H].
    rewrite Forall_forall. intros v _.
    destruct (observed <=? v)%float eqn:E; [|reflexivity].
    apply (leb_not_nan observed v) in E. unfold not_nan in E.
    destruct E as [E _]. congruence. }
  unfold computePValue.
  destruct simulated as [|v vs]; [congruence|].
  rewrite count_better_filter. unfold Spec.count_at_least.
  rewrite (filter_none (Spec.at_least observed) _ Hall), double_of_int_of_nat.
  apply zero_div_size. cbn [length] in *. lia.
Qed.

(** ** The binding layer *)

Section BindingProperties.

Context {RNG : StdRandom} {SORT : StdSort}.

Lemma binding_config_uint32 (n sd : Z) :
  is_uint32 (num_simulations (binding_config n sd)).
Proof.
  unfold is_uint32, UINT32_MAX, binding_config. cbn [num_simulations].
  pose proof (Z.mod_pos_bound n (2 ^ 32) eq_refl) as H.
  assert (2 ^ 32 = 4294967296) as E by reflexivity. rewrite E in *. lia.
Qed.

(** [runMonteCarlo] returns whenever [runAnalysis] does, with an object
    built from the report. *)
Lemma runMonteCarlo_of_report (n sd : Z) (e e' : MonteCarloEngine)
    (report : MonteCarloAnalysis) :
  runAnalysis (binding_config n sd) e = Returned (report, e') ->
  exists obj,
    runMonteCarlo n sd e = Returned (obj, e')
    /\ js_seed_used obj = seed_used report
    /\ js_num_trials obj = num_trials report
    /\ js_original_return obj = original_return report
    /\ js_original_sharpe obj = original_sharpe report
    /\ js_original_max_dd obj = original_max_dd report
    /\ js_p_value_strategy_vs_random obj = p_value_strategy_vs_random report
    /\ js_p_value_strategy_vs_bootstrap obj
       = p_value_strategy_vs_bootstrap report
    /\ js_return_distribution obj = return_distribution report
    /\ sample_simulations obj = sample_of (simulations report)
    /\ mean_max_drawdown obj
       = summary_mean max_drawdown_pct (simulations report)
    /\ interpretation obj = interpretation_of report.
Proof.
  intros Hrun. unfold runMonteCarlo. rewrite Hrun. cbn [bind].
  eexists. split; [reflexivity|]. repeat split; reflexivity.
Qed.


(** X18: the text under [interpretation] is chosen by comparing
    [original_return], which [runAnalysis] never assigns: in every object
    [runMonteCarlo] returns, [interpretation], the three original-strategy
    metrics and the two p-values hold no determinate value. *)
Theorem runMonteCarlo_indeterminate (requested seed_arg : Z)
    (engine_ : MonteCarloEngine) :
  Z.of_nat (length (daily_returns_ engine_)) < INT_MAX ->
  exists obj engine',
    runMonteCarlo requested seed_arg engine_ = Returned (obj, engine')
    /\ interpretation obj = None
    /\ js_original_return obj = None
    /\ js_original_sharpe obj = None
    /\ js_original_max_dd obj = None
    /\ js_p_value_strategy_vs_random obj = None
    /\ js_p_value_strategy_vs_bootstrap obj = None.
Proof.
  intros Hdays.
  pose proof (binding_config_uint32 requested seed_arg) as Hn.
  destruct (runAnalysis_returns _ engine_ Hn Hdays)
    as (s1 & s2 & s3 & e' & Hrun & _).
  destruct (runMonteCarlo_of_report _ _ _ _ _ Hrun)
    as (obj & Hobj & _ & _ & Ho & Hsh & Hdd & Hp1 & Hp2 & _ & _ & _ & Hi).
  exists obj, e'. split; [exact Hobj|].
  set (r0 := set_num_trials _ _) in *.
  destruct (aggregate_untouched r0 s1 s2 s3)
    as (Hu1 & Hu2 & Hu3 & Hu4 & Hu5 & _).
  rewrite Hi, Ho, Hsh, Hdd, Hp1, Hp2. unfold interpretation_of.
  rewrite Hu1, Hu2, Hu3, Hu4, Hu5.
  repeat split; reflexivity.
Qed.

Lemma firstn_min_length {A : Type} (k : nat) (l : list A) :
  firstn (Nat.min k (length l)) l = firstn k l.
Proof.
  destruct (Nat.le_ge_cases k (length l)) as [H | H].
  - now rewrite Nat.min_l.
  - rewrite Nat.min_r by exact H. now rewrite !firstn_all2 by lia.
Qed.

Lemma sample_of_first_100 (sims : list SimulationResult) :
  Z.of_nat (length sims) <= INT_MAX -> sample_of sims = firstn 100 sims.
Proof.
  intros Hlen. unfold sample_of.
  rewrite to_int_small by (unfold INT_MAX in *; lia).
  rewrite <- (firstn_min_length 100 sims). f_equal. lia.
Qed.

(** X19: the sample of at most 100 paths is taken from the front of the
    report, where the position-shuffle paths are: for a request of 300 to
    [INT_MAX] paths on an engine that holds trades, [sample_simulations]
    holds exactly 100 paths, the first 100 of [runPositionShuffle], and no
    path of the other two generators. *)
Theorem runMonteCarlo_sample (requested seed_arg : Z)
    (engine_ : MonteCarloEngine) :
  300 <= requested <= INT_MAX ->
  original_trades_ engine_ <> [] ->
  Z.of_nat (length (daily_returns_ engine_)) < INT_MAX ->
  exists shuffle_results e1 obj engine',
    runPositionShuffle (requested / 3) engine_
    = Returned (shuffle_results, e1)
    /\ runMonteCarlo requested seed_arg engine_ = Returned (obj, engine')
    /\ sample_simulations obj = firstn 100 shuffle_results
    /\ length (sample_simulations obj) = 100%nat.
Proof.
  intros Hn Ht Hdays.
  pose proof (binding_config_uint32 requested seed_arg) as Hu.
  assert (Hmod : requested mod 2 ^ 32 = requested).
  { apply Z.mod_small. unfold INT_MAX in Hn.
    assert (2 ^ 32 = 4294967296) as -> by reflexivity. lia. }
  destruct (runAnalysis_chain _ engine_ Hu Hdays)
    as (s1 & e1 & s2 & e2 & s3 & e3 & H1 & H2 & H3 & Hrun).
  cbn [num_simulations binding_config] in H1, H2, H3.
  rewrite Hmod in H1, H2, H3.
  destruct (runMonteCarlo_of_report _ _ _ _ _ Hrun)
    as (obj & Hobj & _ & _ & _ & _ & _ & _ & _ & _ & Hsample & _).
  exists s1, e1, obj, e3. split; [exact H1|]. split; [exact Hobj|].
  set (r0 := set_num_trials _ _) in *.
  assert (Hper : 100 <= requested / 3)
    by (Z.div_mod_to_equations; lia).
  assert (Hl1 : length s1 = Z.to_nat (requested / 3)).
  { destruct (runPositionShuffle_returns (requested / 3) engine_)
      as [e1' K1]; [lia|].
    rewrite K1 in H1. injection H1 as <- _.
    rewrite length_map. apply position_shuffle_outcomes_length. exact Ht. }
  assert (Hcount : Z.of_nat (length (simulations (aggregate r0 s1 s2 s3)))
                   <= INT_MAX).
  { destruct (runAnalysis_returns _ engine_ Hu Hdays)
      as (t1 & t2 & t3 & e' & Hrun' & Hlen).
    rewrite Hrun in Hrun'. injection Hrun' as Hagg _.
    cbn [num_simulations binding_config] in Hlen.
    rewrite Hmod in Hlen.
    fold r0 in Hagg. rewrite Hagg, aggregate_simulations, !length_app.
    cbn [r0 simulations set_num_trials set_seed_used uninitialised length].
    assert (3 * (requested / 3) <= requested)
      by (Z.div_mod_to_equations; lia).
    lia. }
  rewrite Hsample, (sample_of_first_100 _ Hcount), aggregate_simulations.
  cbn [r0 simulations set_num_trials set_seed_used uninitialised app].
  rewrite <- !app_assoc, firstn_app.
  replace (100 - length s1)%nat with 0%nat by lia.
  rewrite firstn_O, app_nil_r.
  split; [reflexivity|]. rewrite length_firstn. lia.
Qed.

(** X20: the seed argument of [runMonteCarlo] is stored under [seed_used]
    and has no other effect: with another seed argument the same engine
    gives the same object, but for that key, and is left in the same
    state. *)
Theorem runMonteCarlo_seed_argument (requested seed_arg1 seed_arg2 : Z)
    (engine_ : MonteCarloEngine) :
  runMonteCarlo requested seed_arg2 engine_
  = match runMonteCarlo requested seed_arg1 engine_ with
    | Returned (obj, engine') =>
        Returned (with_js_seed_used obj (Some seed_arg2), engine')
    | Thrown ex => Thrown ex
    end.
Proof.
  unfold runMonteCarlo, runAnalysis.
  cbn [num_simulations seed binding_config].
  set (per := to_int (requested mod 2 ^ 32 / 3)).
  destruct (runPositionShuffle per engine_) as [[s1 e1]|ex]; cbn [bind];
    [|reflexivity].
  destruct (runReturnPermutation per e1) as [[s2 e2]|ex]; cbn [bind];
    [|reflexivity].
  destruct (runBootstrap per e2) as [[s3 e3]|ex]; cbn [bind];
    [|reflexivity].
  rewrite !aggregate_metadata.
  set (report := aggregate uninitialised s1 s2 s3).
  unfold interpretation_of, with_js_seed_used.
  reflexivity.
Qed.

End BindingProperties.

(** ** Drawdowns in the report and in the object *)

Lemma binary_normalize_nonneg (m e : Z) :
  0 <= m ->
  SFleb (S754_zero false) (binary_normalize prec emax m e false) = true.
Proof.
  intros Hm. destruct m as [|p|p]; [reflexivity| |lia].
  cbn [binary_normalize]. unfold binary_round.
  destruct (shl_align p e _) as [mz ez].
  apply binary_round_aux_nonneg. lia.
Qed.

Lemma add_nonneg (a b : double) :
  (0 <=? a)%float = true -> (0 <=? b)%float = true ->
  (0 <=? a + b)%float = true.
Proof.
  rewrite !leb_spec, add_spec. unfold SF64add.
  change (Prim2SF 0) with (S754_zero false).
  destruct (Prim2SF a) as [sa|sa| |sa ma ea],
    (Prim2SF b) as [sb|sb| |sb mb eb];
    try discriminate; try destruct sa; try destruct sb; try discriminate;
    intros _ _; try reflexivity.
  cbn [SFadd cond_Zopp]. apply binary_normalize_nonneg. lia.
Qed.

Lemma div_size_nonneg (a : double) (n : nat) :
  (0 <=? a)%float = true -> 0 < Z.of_nat n < 2 ^ 53 ->
  (0 <=? a / double_of_size n)%float = true.
Proof.
  rewrite !leb_spec, div_spec. unfold SF64div. intros Ha Hn.
  rewrite (Prim2SF_double_of_size n Hn). unfold canon.
  change (Prim2SF 0) with (S754_zero false) in *.
  destruct (Prim2SF a) as [sa|sa| |sa ma ea]; try discriminate;
    try destruct sa; try discriminate; try reflexivity.
  cbn [SFdiv xorb]. unfold SFdiv_core_binary.
  rewrite div_eucl_div_mod.
  apply binary_round_aux_nonneg.
  apply Z.div_pos; [|lia].
  destruct (_ - _ - _) as [|s|s]; try lia.
  rewrite Z.shiftl_mul_pow2 by lia. 
  apply Z.mul_nonneg_nonneg; [lia|]. apply Z.pow_nonneg. lia.
Qed.

Lemma fold_sum_nonneg (member : SimulationResult -> double)
    (sims : list SimulationResult) (acc : double) :
  Forall (fun sim => (0 <=? member sim)%float = true) sims ->
  (0 <=? acc)%float = true ->
  (0 <=? fold_left (fun acc sim => acc + member sim) sims acc)%float = true.
Proof.
  intros H. revert acc.
  induction H as [|sim sims Hsim _ IH]; intros acc Hacc; cbn [fold_left];
    [exact Hacc|].
  apply IH. apply add_nonneg; assumption.
Qed.

Section Drawdowns.

Context {RNG : StdRandom} {SORT : StdSort}.

Lemma summary_mean_nonneg (member : SimulationResult -> double)
    (sims : list SimulationResult) :
  Forall (fun sim => (0 <=? member sim)%float = true) sims ->
  Z.of_nat (length sims) < 2 ^ 53 ->
  (0 <=? summary_mean member sims)%float = true.
Proof.
  intros Hall Hlen. unfold summary_mean.
  pose proof (fold_sum_nonneg member sims 0%float Hall eq_refl) as Hsum.
  destruct sims as [|sim rest]; [exact Hsum|].
  apply div_size_nonneg; [exact Hsum|]. cbn [length] in *. lia.
Qed.

Lemma trade_path_result_drawdown (pnls : list double) :
  (0 <=? max_drawdown_pct (trade_path_result pnls))%float = true.
Proof.
  unfold trade_path_result.
  destruct (compound _ _ pnls) as [capital curve]. cbn [max_drawdown_pct].
  unfold calculateMaxDrawdown.
  destruct curve as [|first rest]; [reflexivity|].
  apply mul_100_nonneg. apply drawdown_loop_nonneg. reflexivity.
Qed.

Lemma return_path_result_drawdown (num_days : Z) (seq : list double)
    (sim : SimulationResult) :
  return_path_result num_days seq = Returned sim ->
  (0 <=? max_drawdown_pct sim)%float = true.
Proof.
  unfold return_path_result.
  destruct (reserve _); cbn [bind]; [|discriminate].
  destruct (compound _ _ seq) as [capital curve].
  intros [= <-]. cbn [max_drawdown_pct].
  unfold calculateMaxDrawdown.
  destruct curve as [|first rest]; [reflexivity|].
  apply mul_100_nonneg. apply drawdown_loop_nonneg. reflexivity.
Qed.

Lemma report_drawdowns (config : SimulationConfig) (e : MonteCarloEngine) :
  is_uint32 (num_simulations config) ->
  Z.of_nat (length (daily_returns_ e)) < INT_MAX ->
  exists report e',
    runAnalysis config e = Returned (report, e')
    /\ Forall (fun sim => (0 <=? max_drawdown_pct sim)%float = true)
         (simulations report)
    /\ Z.of_nat (length (simulations report)) <= num_simulations config.
Proof.
  intros Hn Hdays.
  destruct (runAnalysis_chain config e Hn Hdays)
    as (s1 & e1 & s2 & e2 & s3 & e3 & H1 & H2 & H3 & Hrun).
  destruct (per_generator_range _ Hn) as (_ & Hper & Hle).
  set (per := num_simulations config / 3) in *.
  eexists _, e3. split; [exact Hrun|].
  rewrite aggregate_simulations.
  cbn [simulations set_num_trials set_seed_used uninitialised app].
  pose proof (runPositionShuffle_frame _ _ _ _ H1) as Hf1.
  assert (Hdays1 : Z.of_nat (length (daily_returns_ e1)) < INT_MAX)
    by (rewrite Hf1; exact Hdays).
  destruct (runPositionShuffle_returns per e Hper) as [a1 K1].
  destruct (runReturnPermutation_returns per e1 Hper Hdays1)
    as (t2 & a2 & K2 & Hall2).
  destruct (runBootstrap_returns per e2 Hper) as [a3 K3].
  rewrite K1 in H1. injection H1 as <- _.
  rewrite K2 in H2. injection H2 as <- _.
  rewrite K3 in H3. injection H3 as <- _.
  split.
  - rewrite !Forall_app. repeat split.
    + rewrite Forall_map, Forall_forall. intros seq _.
      apply trade_path_result_drawdown.
    + clear - Hall2. induction Hall2 as [|seq sim seqs sims Hs _ IH];
        constructor; [|exact IH].
      exact (return_path_result_drawdown _ _ _ Hs).
    + rewrite Forall_map, Forall_forall. intros seq _.
      apply trade_path_result_drawdown.
  - destruct (runAnalysis_returns config e Hn Hdays)
      as (u1 & u2 & u3 & e' & Hrun' & Hlen).
    rewrite Hrun in Hrun'. injection Hrun' as Hagg _.
    apply (f_equal simulations) in Hagg.
    rewrite !aggregate_simulations in Hagg.
    cbn [simulations set_num_trials set_seed_used uninitialised app] in Hagg.
    rewrite Hagg, !length_app. fold per in Hlen. lia.
Qed.

(** X21: every path of a report has a [max_drawdown_pct] that is neither
    negative nor a NaN. *)
Theorem runAnalysis_drawdowns_nonneg (config : SimulationConfig)
    (e : MonteCarloEngine) :
  is_uint32 (num_simulations config) ->
  Z.of_nat (length (daily_returns_ e)) < INT_MAX ->
  exists report e',
    runAnalysis config e = Returned (report, e')
    /\ Forall (fun sim => (0 <=? max_drawdown_pct sim)%float = true)
         (simulations report).
Proof.
  intros Hn Hdays.
  destruct (report_drawdowns config e Hn Hdays)
    as (report & e' & Hrun & Hall & _).
  exists report, e'. split; assumption.
Qed.

(** X22: the [mean_max_drawdown] of the object [runMonteCarlo] returns is
    neither negative nor a NaN, for every pair of arguments. *)
Theorem runMonteCarlo_mean_drawdown (requested seed_arg : Z)
    (engine_ : MonteCarloEngine) :
  Z.of_nat (length (daily_returns_ engine_)) < INT_MAX ->
  exists obj engine',
    runMonteCarlo requested seed_arg engine_ = Returned (obj, engine')
    /\ (0 <=? mean_max_drawdown obj)%float = true.
Proof.
  intros Hdays.
  pose proof (binding_config_uint32 requested seed_arg) as Hn.
  destruct (report_drawdowns _ engine_ Hn Hdays)
    as (report & e' & Hrun & Hall & Hcount).
  destruct (runMonteCarlo_of_report _ _ _ _ _ Hrun)
    as (obj & Hobj & _ & _ & _ & _ & _ & _ & _ & _ & _ & Hmean & _).
  exists obj, e'. split; [exact Hobj|].
  unfold is_uint32, UINT32_MAX in Hn.
  assert (H53 : 2 ^ 53 = 9007199254740992) by reflexivity.
  rewrite Hmean. apply summary_mean_nonneg; [exact Hall|]. lia.
Qed.

End Drawdowns.

(** ** The equity curve *)

Lemma last_cons {A : Type} (a : A) (l : list A) (d : A) :
  last (a :: l) d = last l a.
Proof.
  revert a d. induction l as [|b l IH]; intros a d; [reflexivity|].
  change (last (a :: b :: l) d) with (last (b :: l) d).
  rewrite (IH b d), (IH b a). reflexivity.
Qed.

Lemma compound_appends (rets : list double) (capital : double)
    (equity_curve : list double) :
  exists tail,
    snd (compound capital equity_curve rets) = equity_curve ++ tail
    /\ length tail = length rets
    /\ fst (compound capital equity_curve rets) = last tail capital.
Proof.
  revert capital equity_curve.
  induction rets as [|r rest IH]; intros capital curve; cbn [compound].
  - exists []. rewrite app_nil_r. repeat split; reflexivity.
  - destruct (IH (capital * (1 + r))%float
                (curve ++ [(capital * (1 + r))%float]))
      as (tail & Hsnd & Hlen & Hfst).
    exists ((capital * (1 + r))%float :: tail).
    rewrite Hsnd, Hfst, <- app_assoc. cbn [app length].
    split; [reflexivity|]. split; [now rewrite Hlen|].
    symmetry. apply last_cons.
Qed.

(** X23: the compounding loop of the three generators leaves an equity
    curve with one point per return after the initial capital, which is
    its first point, and the capital it ends with is the last point. *)
Theorem compound_curve (initial : double) (rets : list double) :
  let '(capital, equity_curve) := compound initial [initial] rets in
  length equity_curve = S (length rets)
  /\ hd initial equity_curve = initial
  /\ last equity_curve initial = capital.
Proof.
  destruct (compound_appends rets initial [initial])
    as (tail & Hsnd & Hlen & Hfst).
  destruct (compound initial [initial] rets) as [capital curve].
  cbn [fst snd] in *. subst curve capital. cbn [app length hd].
  split; [now rewrite Hlen|]. split; [reflexivity|].
  apply last_cons.
Qed.

(** ** The first bucket of the histogram *)

Lemma is_finite_Prim2SF (x : double) :
  is_finite x = true ->
  (exists s, Prim2SF x = S754_zero s)
  \/ (exists s m e, Prim2SF x = S754_finite s m e).
Proof.
  unfold is_finite, is_nan, is_infinity.
  rewrite !eqb_spec, abs_spec.
  change (Prim2SF infinity) with (S754_infinity false).
  destruct (Prim2SF x) as [s|s| |s m e]; cbn; try discriminate; eauto.
  destruct s; discriminate.
Qed.

(** The smallest value of the pool falls into bucket 0. *)
Lemma minimum_bin (dmin bin_width : double) :
  is_finite dmin = true -> (0 <? bin_width)%float = true ->
  static_cast_int ((dmin - dmin) / bin_width)%float = 0.
Proof.
  intros Hfin Hw. unfold static_cast_int, trunc_double.
  rewrite div_spec, sub_spec. unfold SF64div, SF64sub.
  rewrite ltb_spec in Hw. change (Prim2SF 0) with (S754_zero false) in Hw.
  assert (Hz : exists s, SFsub prec emax (Prim2SF dmin) (Prim2SF dmin)
                         = S754_zero s).
  { destruct (is_finite_Prim2SF dmin Hfin) as [[s ->] | (s & m & e & ->)].
    - destruct s; cbn; eauto.
    - cbn [SFsub]. rewrite Z.sub_diag. cbn. eauto. }
  destruct Hz as [s ->].
  destruct (Prim2SF bin_width) as [sw|sw| |sw mw ew]; try discriminate;
    destruct sw; try discriminate; reflexivity.
Qed.

Lemma histogram_add_first (dmin bin_width ret : double) (hist : list Z) :
  nth 0 hist 0 <= nth 0 (histogram_add dmin bin_width hist ret) 0.
Proof.
  unfold histogram_add.
  destruct (_ && _); [|lia].
  destruct hist as [|c rest]; [destruct (Z.to_nat _); cbn; lia|].
  destruct (Z.to_nat _); cbn [increment nth]; lia.
Qed.

Lemma histogram_add_minimum (dmin bin_width : double) (hist : list Z) :
  is_finite dmin = true -> (0 <? bin_width)%float = true ->
  hist <> [] ->
  nth 0 (histogram_add dmin bin_width hist dmin) 0 = nth 0 hist 0 + 1.
Proof.
  intros Hfin Hw Hne. unfold histogram_add.
  rewrite (minimum_bin dmin bin_width Hfin Hw).
  destruct hist as [|c rest]; [congruence|]. reflexivity.
Qed.

Lemma histogram_add_nonempty (dmin bin_width ret : double) (hist : list Z) :
  hist <> [] -> histogram_add dmin bin_width hist ret <> [].
Proof.
  intros Hne Hnil. apply (f_equal (@length Z)) in Hnil.
  unfold histogram_add in Hnil.
  destruct (_ && _); [rewrite increment_length in Hnil|];
    destruct hist; cbn in Hnil; congruence.
Qed.

Lemma histogram_loop_first (dmin bin_width : double) (returns : list double)
    (hist : list Z) :
  nth 0 hist 0
  <= nth 0 (fold_left (histogram_add dmin bin_width) returns hist) 0.
Proof.
  revert hist. induction returns as [|r rs IH]; intros hist; cbn [fold_left];
    [lia|].
  eapply Z.le_trans; [apply (histogram_add_first dmin bin_width r)|apply IH].
Qed.

Lemma histogram_loop_minimum (dmin bin_width : double)
    (returns : list double) (hist : list Z) :
  is_finite dmin = true -> (0 <? bin_width)%float = true ->
  hist <> [] -> In dmin returns ->
  nth 0 hist 0 + 1
  <= nth 0 (fold_left (histogram_add dmin bin_width) returns hist) 0.
Proof.
  intros Hfin Hw. revert hist.
  induction returns as [|r rs IH]; intros hist Hne Hin; [destruct Hin|].
  cbn [fold_left]. destruct Hin as [-> | Hin].
  - rewrite <- (histogram_add_minimum dmin bin_width hist Hfin Hw Hne).
    apply histogram_loop_first.
  - eapply Z.le_trans; [|apply IH; [apply histogram_add_nonempty|]; assumption].
    pose proof (histogram_add_first dmin bin_width r hist). lia.
Qed.

Lemma min_element_member (l : list double) (m : double) :
  min_element l = Some m -> In m l.
Proof.
  destruct l as [|x rest]; [discriminate|]. cbn [min_element].
  intros [= <-]. revert x.
  induction rest as [|y rest IH]; intros x; cbn [fold_left]; [left; reflexivity|].
  destruct (IH (if (y <? x)%float then y else x)) as [H | H].
  - destruct (y <? x)%float; [right; left|left]; exact H.
  - right; right; exact H.
Qed.

Lemma build_histogram_first_bucket (returns : list double)
    (result : MonteCarloAnalysis) (lo hi : double) :
  return_distribution result = [] ->
  min_element returns = Some lo -> max_element returns = Some hi ->
  is_finite lo = true -> (0 <? (hi - lo) / 20)%float = true ->
  1 <= nth 0 (return_distribution (build_histogram returns result)) 0.
Proof.
  intros Hempty Hmin Hmax Hfin Hw. unfold build_histogram.
  rewrite Hmin, Hmax, Hw, Hempty.
  cbn [return_distribution set_return_distribution set_distribution_min
         set_distribution_max].
  change (resize 20 0 []) with (repeat 0 20).
  pose proof (histogram_loop_minimum lo ((hi - lo) / 20)%float returns
                (repeat 0 20) Hfin Hw) as H.
  change (nth 0 (repeat 0 20) 0) with 0 in H. apply H.
  - discriminate.
  - apply min_element_member. exact Hmin.
Qed.

Section FirstBucket.

Context {RNG : StdRandom} {SORT : StdSort}.

Lemma aggregate_first_bucket (r : MonteCarloAnalysis)
    (s1 s2 s3 : list SimulationResult) (lo hi : double) :
  return_distribution r = [] ->
  distribution_min r = None ->
  let report := aggregate r s1 s2 s3 in
  distribution_min report = Some lo -> distribution_max report = Some hi ->
  is_finite lo = true -> (0 <? (hi - lo) / 20)%float = true ->
  1 <= nth 0 (return_distribution report) 0.
Proof.
  intros Hempty Hnone report. subst report.
  unfold aggregate, computePercentiles.
  cbn [simulations set_simulations].
  destruct (map total_return_pct _) as [|v vs]; cbv zeta.
  - unfold build_histogram. cbn [min_element].
    cbn [distribution_min set_return_distribution set_ci_upper_95
           set_ci_lower_95 set_percentiles set_simulations].
    rewrite Hnone. discriminate.
  - pose proof (Permutation_length (std_sort_permutation (v :: vs))) as Hl.
    destruct (std_sort (v :: vs)) as [|w ws]; [discriminate Hl|].
    set (sorted := w :: ws).
    match goal with
    | |- context [build_histogram sorted ?res] => set (r' := res)
    end.
    assert (Hr' : return_distribution r' = []) by exact Hempty.
    intros Hmin Hmax Hfin Hw.
    assert (Hbounds : min_element sorted = Some lo
                      /\ max_element sorted = Some hi).
    { revert Hmin Hmax. unfold build_histogram, sorted.
      cbn [min_element max_element].
      intros Hmin Hmax.
      match type of Hmin with
      | context [if ?c then _ else _] => destruct c
      end;
        cbn [distribution_min distribution_max set_return_distribution
               set_distribution_min set_distribution_max] in Hmin, Hmax.
      all: split; [exact Hmin|exact Hmax]. }
    destruct Hbounds as [Hlo Hhi].
    exact (build_histogram_first_bucket sorted r' lo hi Hr' Hlo Hhi Hfin Hw).
Qed.

(** X24: whenever the histogram is filled (the bin width is positive) and
    the smallest pooled return is finite, that return is counted in the
    first bucket, so bucket 0 is never empty. *)
Theorem runAnalysis_counts_the_minimum (config : SimulationConfig)
    (e : MonteCarloEngine) :
  is_uint32 (num_simulations config) ->
  Z.of_nat (length (daily_returns_ e)) < INT_MAX ->
  exists report e',
    runAnalysis config e = Returned (report, e')
    /\ forall lo hi,
         distribution_min report = Some lo ->
         distribution_max report = Some hi ->
         is_finite lo = true ->
         (0 <? (hi - lo) / 20)%float = true ->
         1 <= nth 0 (return_distribution report) 0.
Proof.
  intros Hn Hdays.
  destruct (runAnalysis_returns config e Hn Hdays)
    as (s1 & s2 & s3 & e' & Hrun & _).
  eexists _, e'. split; [exact Hrun|].
  intros lo hi. apply aggregate_first_bucket; reflexivity.
Qed.

End FirstBucket.

(** ** The Sharpe ratio of a flat curve *)

Lemma step_returns_repeat (c : double) (n : nat) :
  step_returns (repeat c (S n)) = repeat ((c - c) / c)%float n.
Proof.
  induction n as [|n IH]; [reflexivity|].
  change (repeat c (S (S n))) with (c :: c :: repeat c n).
  rewrite step_returns_cons. cbn [repeat]. f_equal. exact IH.
Qed.

Lemma flat_step_zero (c : double) :
  is_finite c = true -> (c =? 0)%float = false ->
  exists s, Prim2SF ((c - c) / c)%float = S754_zero s.
Proof.
  intros Hfin Hnz. rewrite div_spec, sub_spec. unfold SF64div, SF64sub.
  rewrite eqb_spec in Hnz. change (Prim2SF 0) with (S754_zero false) in Hnz.
  destruct (is_finite_Prim2SF c Hfin) as [[s E] | (s & m & e & E)];
    rewrite E in *.
  - destruct s; discriminate.
  - cbn [SFsub]. rewrite Z.sub_diag. cbn. eauto.
Qed.

Lemma add_zeros (a b : double) :
  (exists s, Prim2SF a = S754_zero s) -> (exists s, Prim2SF b = S754_zero s) ->
  exists s, Prim2SF (a + b)%float = S754_zero s.
Proof.
  intros [sa Ha] [sb Hb]. rewrite add_spec, Ha, Hb.
  destruct sa, sb; cbn; eauto.
Qed.

Lemma sub_zeros (a b : double) :
  (exists s, Prim2SF a = S754_zero s) -> (exists s, Prim2SF b = S754_zero s) ->
  exists s, Prim2SF (a - b)%float = S754_zero s.
Proof.
  intros [sa Ha] [sb Hb]. rewrite sub_spec, Ha, Hb.
  destruct sa, sb; cbn; eauto.
Qed.

Lemma mul_zeros (a b : double) :
  (exists s, Prim2SF a = S754_zero s) -> (exists s, Prim2SF b = S754_zero s) ->
  exists s, Prim2SF (a * b)%float = S754_zero s.
Proof.
  intros [sa Ha] [sb Hb]. rewrite mul_spec, Ha, Hb. cbn. eauto.
Qed.

Lemma div_zero_size (a : double) (n : nat) :
  (exists s, Prim2SF a = S754_zero s) -> 0 < Z.of_nat n < 2 ^ 53 ->
  exists s, Prim2SF (a / double_of_size n)%float = S754_zero s.
Proof.
  intros [sa Ha] Hn.
  rewrite div_spec, Ha, (Prim2SF_double_of_size n Hn). cbn. eauto.
Qed.

Lemma sqrt_zero (a : double) :
  (exists s, Prim2SF a = S754_zero s) ->
  exists s, Prim2SF (sqrt a) = S754_zero s.
Proof. intros [sa Ha]. rewrite sqrt_spec, Ha. cbn. eauto. Qed.

Lemma zero_eqb (a : double) :
  (exists s, Prim2SF a = S754_zero s) -> (a =? 0)%float = true.
Proof.
  intros [sa Ha]. rewrite eqb_spec, Ha. reflexivity.
Qed.

Lemma sum_zeros (returns : list double) (acc : double) :
  Forall (fun r => exists s, Prim2SF r = S754_zero s) returns ->
  (exists s, Prim2SF acc = S754_zero s) ->
  exists s, Prim2SF (fold_left PrimFloat.add returns acc) = S754_zero s.
Proof.
  intros Hz. revert acc.
  induction Hz as [|r rs Hr _ IH]; intros acc Hacc; cbn [fold_left];
    [exact Hacc|].
  apply IH. apply add_zeros; assumption.
Qed.

Lemma square_sum_zeros (returns : list double) (mean acc : double) :
  Forall (fun r => exists s, Prim2SF r = S754_zero s) returns ->
  (exists s, Prim2SF mean = S754_zero s) ->
  (exists s, Prim2SF acc = S754_zero s) ->
  exists s,
    Prim2SF
      (fold_left (fun acc r => acc + (r - mean) * (r - mean))%float
         returns acc)
    = S754_zero s.
Proof.
  intros Hz Hm. revert acc.
  induction Hz as [|r rs Hr _ IH]; intros acc Hacc; cbn [fold_left];
    [exact Hacc|].
  apply IH. apply add_zeros; [exact Hacc|].
  apply mul_zeros; apply sub_zeros; assumption.
Qed.

Lemma constant_curve_logged (c : double) (points : nat) :
  is_finite c = true -> (c =? 0)%float = false ->
  Z.of_nat points < 2 ^ 53 ->
  calculateSharpeRatio_logged (repeat c points) = (0%float, []).
Proof.
  intros Hfin Hnz Hlen. unfold calculateSharpeRatio_logged.
  rewrite repeat_length.
  destruct points as [|[|n]]; try reflexivity.
  change (S (S n) <? 2)%nat with false. cbv iota.
  rewrite step_returns_repeat.
  pose proof (flat_step_zero c Hfin Hnz) as Hz.
  set (z := ((c - c) / c)%float) in *.
  assert (Hall : Forall (fun r => exists s, Prim2SF r = S754_zero s)
                   (repeat z (S n))).
  { clear - Hz. induction (S n); cbn [repeat]; constructor; assumption. }
  assert (Hsize : 0 < Z.of_nat (length (repeat z (S n))) < 2 ^ 53)
    by (rewrite repeat_length; lia).
  destruct (repeat z (S n)) as [|r rs]; [cbn in Hsize; lia|].
  assert (H0 : exists s, Prim2SF 0%float = S754_zero s)
    by (exists false; reflexivity).
  match goal with
  | |- context [if (?sd =? 0)%float then _ else _] =>
      assert (Hsd : exists s, Prim2SF sd = S754_zero s)
  end.
  { apply sqrt_zero, div_zero_size; [|exact Hsize].
    apply square_sum_zeros; [exact Hall| |exact H0].
    apply div_zero_size; [|exact Hsize].
    apply sum_zeros; assumption. }
  rewrite (zero_eqb _ Hsd). reflexivity.
Qed.

(** X25: on a curve that stays at one finite value other than zero, the
    step returns are all zero, the standard deviation compares equal to
    zero and [calculateSharpeRatio] answers 0 without executing the
    division by the standard deviation. *)
Theorem calculateSharpeRatio_constant_curve (c : double) (points : nat) :
  is_finite c = true -> (c =? 0)%float = false ->
  Z.of_nat points < 2 ^ 53 ->
  calculateSharpeRatio (repeat c points) = 0%float
  /\ snd (calculateSharpeRatio_logged (repeat c points)) = [].
Proof.
  intros Hfin Hnz Hlen. unfold calculateSharpeRatio.
  rewrite (constant_curve_logged c points Hfin Hnz Hlen).
  split; reflexivity.
Qed.

(** ** Requests for fewer than three paths *)

Section TooFew.

Context {RNG : StdRandom} {SORT : StdSort}.

Lemma generators_zero (e : MonteCarloEngine) :
  runPositionShuffle 0 e = Returned ([], e)
  /\ runReturnPermutation 0 e = Returned ([], e)
  /\ runBootstrap 0 e = Returned ([], e).
Proof.
  unfold runPositionShuffle, runReturnPermutation, runBootstrap.
  rewrite (reserve_nonneg 0) by lia. cbn [bind].
  change (Z.to_nat 0) with 0%nat.
  cbn [position_shuffle_loop return_permutation_loop bootstrap_loop bind].
  rewrite with_rng_same.
  destruct (original_trades_ e), (daily_returns_ e); repeat split; reflexivity.
Qed.

(** X26: a request for fewer than three paths runs no simulation at all,
    also on an engine that holds trades and returns: each generator is
    asked for [floor(n / 3) = 0] paths.  The report holds no path, its
    percentiles and confidence bounds are 0, its histogram bounds are
    never assigned and its 20 buckets are 0, while [num_trials] still
    repeats the request; the engine, its generator state included, is
    unchanged. *)
Theorem runAnalysis_too_few (config : SimulationConfig)
    (e : MonteCarloEngine) :
  0 <= num_simulations config < 3 ->
  exists report,
    runAnalysis config e = Returned (report, e)
    /\ simulations report = []
    /\ percentile_5 report = Some 0%float
    /\ percentile_25 report = Some 0%float
    /\ percentile_50 report = Some 0%float
    /\ percentile_75 report = Some 0%float
    /\ percentile_95 report = Some 0%float
    /\ ci_lower_95 report = Some 0%float
    /\ ci_upper_95 report = Some 0%float
    /\ distribution_min report = None
    /\ distribution_max report = None
    /\ return_distribution report = repeat 0 20
    /\ num_trials report = Some (num_simulations config).
Proof.
  intros Hn. unfold runAnalysis.
  assert (Hper : num_simulations config / 3 = 0)
    by (apply Z.div_small; exact Hn).
  rewrite Hper. change (to_int 0) with 0.
  destruct (generators_zero e) as (H1 & H2 & H3).
  rewrite H1. cbn [bind]. rewrite H2. cbn [bind]. rewrite H3. cbn [bind].
  eexists. split; [reflexivity|].
  repeat split; reflexivity.
Qed.

End TooFew.


(** ** Capital that stays non-negative *)

(** The product of a non-negative capital and a positive, finite growth
    factor is non-negative (and not a NaN). *)
Lemma growth_nonneg (capital factor : double) :
  (0 <=? capital)%float = true ->
  (0 <? factor)%float = true -> (factor <? infinity)%float = true ->
  (0 <=? capital * factor)%float = true.
Proof.
  rewrite !leb_spec, !ltb_spec, mul_spec. unfold SF64mul.
  change (Prim2SF 0) with (S754_zero false).
  change (Prim2SF infinity) with (S754_infinity false).
  destruct (Prim2SF capital) as [sc|sc| |sc mc ec],
    (Prim2SF factor) as [sf|sf| |sf mf ef];
    try discriminate; try destruct sc; try destruct sf; try discriminate;
    intros _ _ _; try reflexivity.
  cbn [SFmul xorb]. apply binary_round_aux_nonneg. lia.
Qed.

Lemma compound_nonneg_loop (rets : list double) (capital : double)
    (equity_curve : list double) :
  (0 <=? capital)%float = true ->
  Forall (fun v => (0 <=? v)%float = true) equity_curve ->
  Forall (fun r => (0 <? 1 + r)%float = true
                   /\ (1 + r <? infinity)%float = true) rets ->
  (0 <=? fst (compound capital equity_curve rets))%float = true
  /\ Forall (fun v => (0 <=? v)%float = true)
       (snd (compound capital equity_curve rets)).
Proof.
  intros Hc Hcurve Hrets. revert capital equity_curve Hc Hcurve.
  induction Hrets as [|r rest [Hpos Hfin] _ IH]; intros capital curve Hc Hcurve;
    cbn [compound fst snd]; [split; assumption|].
  pose proof (growth_nonneg capital (1 + r)%float Hc Hpos Hfin) as Hnext.
  apply IH; [exact Hnext|].
  apply Forall_app. split; [exact Hcurve|]. constructor; [exact Hnext|constructor].
Qed.

(** X27: when every growth factor [1 + r] is positive and finite (no
    return of -100% or worse), the compounding loop started on a
    non-negative capital never leaves a negative capital or a NaN: every
    point of the equity curve, the final capital included, is [>= 0]. *)
Theorem compound_nonneg (initial : double) (rets : list double) :
  (0 <=? initial)%float = true ->
  Forall (fun r => (0 <? 1 + r)%float = true
                   /\ (1 + r <? infinity)%float = true) rets ->
  let '(capital, equity_curve) := compound initial [initial] rets in
  (0 <=? capital)%float = true
  /\ Forall (fun v => (0 <=? v)%float = true) equity_curve.
Proof.
  intros Hinit Hrets.
  destruct (compound_nonneg_loop rets initial [initial] Hinit) as [Hc Hcurve];
    [repeat constructor; exact Hinit|exact Hrets|].
  destruct (compound initial [initial] rets) as [capital curve].
  split; assumption.
Qed.

(** ** The sign of the total return *)

(** The mantissa of a double is below [2^53], and at least [2^52] unless
    the exponent is the smallest one. *)
Lemma valid_mantissa (s : bool) (m : positive) (e : Z) :
  valid_binary (S754_finite s m e) = true ->
  -1074 <= e /\ Zpos m < 2 ^ 53 /\ (-1074 < e -> 2 ^ 52 <= Zpos m).
Proof.
  unfold SpecFloat.valid_binary, bounded, canonical_mantissa.
  rewrite andb_true_iff, Z.eqb_eq. intros [Hcanon _].
  change (Z.pos (digits2_pos m)) with (Zdigits2 (Zpos m)) in Hcanon.
  rewrite Zdigits2_log2 in Hcanon by lia.
  unfold fexp, SpecFloat.emin, prec, emax in Hcanon.
  pose proof (Z.log2_spec (Zpos m) eq_refl) as [Hlo Hhi].
  pose proof (Z.log2_nonneg (Zpos m)) as Hlog.
  replace (Z.succ (Z.log2 (Zpos m))) with (Z.log2 (Zpos m) + 1) in Hhi by lia.
  assert (Hle : Z.log2 (Zpos m) + 1 <= 53) by lia.
  split; [lia|]. split.
  - eapply Z.lt_le_trans; [exact Hhi|].
    apply Z.pow_le_mono_r; lia.
  - intros He. assert (Z.log2 (Zpos m) = 52) as E by lia.
    rewrite E in Hlo. exact Hlo.
Qed.

Lemma shl_align_value (m : positive) (e e' : Z) :
  e' <= e -> Zpos (fst (shl_align m e e')) = Zpos m * 2 ^ (e - e').
Proof.
  intros Hle. unfold shl_align.
  destruct (e' - e) as [|d|d] eqn:Hd; cbn [fst].
  - replace (e - e') with 0 by lia. lia.
  - lia.
  - change (PosDef.Pos.iter xO m d) with (Pos.iter xO m d).
    rewrite pos_iter_xO. f_equal. f_equal. lia.
Qed.

(** Rounding keeps the sign of the number rounded. *)
Lemma binary_round_aux_nonpos (mx ex : Z) (lx : location) :
  0 <= mx ->
  SFleb (binary_round_aux prec emax true mx ex lx) (S754_zero false) = true.
Proof.
  intros Hm. unfold binary_round_aux.
  pose proof (shr_fexp_nonneg mx ex lx Hm) as H1.
  destruct (shr_fexp prec emax mx ex lx) as [mrs' e']. cbn [fst] in H1.
  pose proof (round_nearest_even_bounds (shr_m mrs') (loc_of_shr_record mrs'))
    as Hr.
  assert (H2 : 0 <= round_nearest_even (shr_m mrs') (loc_of_shr_record mrs'))
    by lia.
  pose proof (shr_fexp_nonneg _ e' loc_Exact H2) as H3.
  destruct (shr_fexp prec emax _ e' loc_Exact) as [mrs'' e''].
  cbn [fst] in H3.
  destruct (shr_m mrs'') as [|p|p]; [reflexivity| |lia].
  destruct (e'' <=? emax - prec); reflexivity.
Qed.

Lemma binary_normalize_nonpos (m e : Z) :
  m <= 0 ->
  SFleb (binary_normalize prec emax m e false) (S754_zero false) = true.
Proof.
  intros Hm. destruct m as [|p|p]; [reflexivity|lia|].
  cbn [binary_normalize]. unfold binary_round.
  destruct (shl_align p e _) as [mz ez].
  apply binary_round_aux_nonpos. lia.
Qed.

(** The exact difference behind [x - y] for two positive doubles has the
    sign their comparison tells. *)
Lemma aligned_difference (mx my : positive) (ex ey : Z) :
  valid_binary (S754_finite false mx ex) = true ->
  valid_binary (S754_finite false my ey) = true ->
  let ez := Z.min ex ey in
  let d := Zpos (fst (shl_align mx ex ez)) - Zpos (fst (shl_align my ey ez)) in
  match SFcompare (S754_finite false mx ex) (S754_finite false my ey) with
  | Some Lt => d < 0
  | Some _ => 0 <= d
  | None => False
  end.
Proof.
  intros Hx Hy ez d. subst d ez.
  destruct (valid_mantissa _ _ _ Hx) as (Hex & Hmx & Hnx).
  destruct (valid_mantissa _ _ _ Hy) as (Hey & Hmy & Hny).
  rewrite !shl_align_value by lia.
  cbn [SFcompare].
  assert (H53 : 2 ^ 53 = 2 * 2 ^ 52) by reflexivity.
  assert (H52 : 0 < 2 ^ 52) by reflexivity.
  destruct (Z.compare_spec ex ey) as [Heq | Hlt | Hgt].
  - subst ey. rewrite Z.min_id, Z.sub_diag, !Z.mul_1_r.
    change (PosDef.Pos.compare_cont Eq mx my) with (Pos.compare mx my).
    destruct (Pos.compare_spec mx my); lia.
  - rewrite Z.min_l by lia. rewrite Z.sub_diag, Z.mul_1_r.
    assert (Hp : 2 <= 2 ^ (ey - ex)).
    { change 2 with (2 ^ 1) at 1. apply Z.pow_le_mono_r; lia. }
    specialize (Hny ltac:(lia)). nia.
  - rewrite Z.min_r by lia. rewrite Z.sub_diag, Z.mul_1_r.
    assert (Hp : 2 <= 2 ^ (ex - ey)).
    { change 2 with (2 ^ 1) at 1. apply Z.pow_le_mono_r; lia. }
    specialize (Hnx ltac:(lia)). nia.
Qed.

(** Subtracting a positive finite double: the difference is not negative
    when the minuend is at least the subtrahend, and not positive when it
    is below. *)
Lemma sub_sign (x y : double) (my : positive) (ey : Z) :
  Prim2SF y = S754_finite false my ey ->
  ((y <=? x)%float = true -> (0 <=? x - y)%float = true)
  /\ ((x <? y)%float = true -> (x - y <=? 0)%float = true).
Proof.
  intros Hy.
  pose proof (Prim2SF_valid x) as Vx. pose proof (Prim2SF_valid y) as Vy.
  rewrite !leb_spec, ltb_spec, sub_spec. unfold SF64sub, SFleb, SFltb.
  change (Prim2SF 0) with (S754_zero false).
  rewrite Hy in *.
  destruct (Prim2SF x) as [sx|sx| |sx mx ex].
  - cbn. split; [discriminate|reflexivity].
  - destruct sx; cbn; split; try discriminate; reflexivity.
  - cbn. split; discriminate.
  - destruct sx.
    + split; [cbn; discriminate|]. intros _.
      cbn [SFsub cond_Zopp]. apply binary_normalize_nonpos. lia.
    + pose proof (aligned_difference mx my ex ey Vx Vy) as Hd.
      cbv zeta in Hd. cbn [SFsub cond_Zopp].
      change (IntDef.Z.min ex ey) with (Z.min ex ey).
      rewrite (SFcompare_antisym (S754_finite false mx ex)
                 (S754_finite false my ey)).
      destruct (SFcompare (S754_finite false mx ex) (S754_finite false my ey))
        as [[| |]|]; cbn [option_map CompOpp];
        (split; intros H; try (cbn in H; discriminate H); clear H).
      * apply (binary_normalize_nonneg _ _ Hd).
      * apply binary_normalize_nonpos. lia.
      * apply (binary_normalize_nonneg _ _ Hd).
Qed.

(** Dividing and multiplying by a positive finite double keep the sign. *)
Lemma div_positive_sign (a d : double) (md : positive) (ed : Z) :
  Prim2SF d = S754_finite false md ed ->
  ((0 <=? a)%float = true -> (0 <=? a / d)%float = true)
  /\ ((a <=? 0)%float = true -> (a / d <=? 0)%float = true).
Proof.
  intros Hd. rewrite !leb_spec, div_spec. unfold SF64div.
  change (Prim2SF 0) with (S754_zero false). rewrite Hd.
  assert (Hq : forall ma ea,
             0 <= fst (fst (SFdiv_core_binary prec emax (Zpos ma) ea
                              (Zpos md) ed))).
  { intros ma ea. unfold SFdiv_core_binary. rewrite div_eucl_div_mod.
    cbn [fst]. apply Z.div_pos; [|lia].
    destruct (_ - _ - _) as [|s|s]; try lia.
    rewrite Z.shiftl_mul_pow2 by lia.
    apply Z.mul_nonneg_nonneg; [lia|]. apply Z.pow_nonneg. lia. }
  destruct (Prim2SF a) as [sa|sa| |sa ma ea]; try (split; discriminate).
  - destruct sa; split; reflexivity.
  - destruct sa; split; try discriminate; reflexivity.
  - specialize (Hq ma ea). cbn [SFdiv].
    destruct (SFdiv_core_binary prec emax (Zpos ma) ea (Zpos md) ed)
      as [[mz ez] lz]. cbn [fst] in Hq.
    destruct sa; cbn [xorb]; split; try discriminate; intros _.
    + apply binary_round_aux_nonpos. exact Hq.
    + apply binary_round_aux_nonneg. exact Hq.
Qed.

Lemma mul_positive_sign (a d : double) (md : positive) (ed : Z) :
  Prim2SF d = S754_finite false md ed ->
  ((0 <=? a)%float = true -> (0 <=? a * d)%float = true)
  /\ ((a <=? 0)%float = true -> (a * d <=? 0)%float = true).
Proof.
  intros Hd. rewrite !leb_spec, mul_spec. unfold SF64mul.
  change (Prim2SF 0) with (S754_zero false). rewrite Hd.
  destruct (Prim2SF a) as [sa|sa| |sa ma ea]; try (split; discriminate).
  - destruct sa; split; reflexivity.
  - destruct sa; split; try discriminate; reflexivity.
  - cbn [SFmul].
    destruct sa; cbn [xorb]; split; try discriminate; intros _.
    + apply binary_round_aux_nonpos. lia.
    + apply binary_round_aux_nonneg. lia.
Qed.

(** The expression the three generators assign to [total_return_pct]. *)
Lemma total_return_sign (capital : double) :
  ((100000 <=? capital)%float = true ->
   (0 <=? (capital - 100000) / 100000 * 100)%float = true)
  /\ ((capital <? 100000)%float = true ->
      ((capital - 100000) / 100000 * 100 <=? 0)%float = true).
Proof.
  assert (H1 : Prim2SF 100000 = S754_finite false 6871947673600000 (-36))
    by reflexivity.
  assert (H2 : Prim2SF 100 = S754_finite false 7036874417766400 (-46))
    by reflexivity.
  destruct (sub_sign capital 100000%float _ _ H1) as [Hs1 Hs2].
  destruct (div_positive_sign (capital - 100000)%float 100000%float _ _ H1)
    as [Hd1 Hd2].
  destruct (mul_positive_sign ((capital - 100000) / 100000)%float 100%float
              _ _ H2) as [Hm1 Hm2].
  split; intros H; auto.
Qed.

Section ReturnSign.

Context {RNG : StdRandom} {SORT : StdSort}.

Lemma trade_path_result_sign (pnls : list double) :
  let sim := trade_path_result pnls in
  ((100000 <=? final_value sim)%float = true ->
   (0 <=? total_return_pct sim)%float = true)
  /\ ((final_value sim <? 100000)%float = true ->
      (total_return_pct sim <=? 0)%float = true).
Proof.
  cbv zeta. unfold trade_path_result.
  destruct (compound _ _ pnls) as [capital curve].
  cbn [final_value total_return_pct]. apply total_return_sign.
Qed.

Lemma return_path_result_sign (num_days : Z) (seq : list double)
    (sim : SimulationResult) :
  return_path_result num_days seq = Returned sim ->
  ((100000 <=? final_value sim)%float = true ->
   (0 <=? total_return_pct sim)%float = true)
  /\ ((final_value sim <? 100000)%float = true ->
      (total_return_pct sim <=? 0)%float = true).
Proof.
  unfold return_path_result.
  destruct (reserve _); cbn [bind]; [|discriminate].
  destruct (compound _ _ seq) as [capital curve].
  intros [= <-]. cbn [final_value total_return_pct]. apply total_return_sign.
Qed.

(** X28: in every path of a report the sign of [total_return_pct] agrees
    with the final value: a path that ends at or above the initial
    capital of 100000 has a return that is [>= 0], and a path that ends
    below it has a return that is [<= 0]; rounding never turns a gain
    into a loss. *)
Theorem runAnalysis_return_sign (config : SimulationConfig)
    (e : MonteCarloEngine) :
  is_uint32 (num_simulations config) ->
  Z.of_nat (length (daily_returns_ e)) < INT_MAX ->
  exists report e',
    runAnalysis config e = Returned (report, e')
    /\ Forall
         (fun sim =>
            ((100000 <=? final_value sim)%float = true ->
             (0 <=? total_return_pct sim)%float = true)
            /\ ((final_value sim <? 100000)%float = true ->
                (total_return_pct sim <=? 0)%float = true))
         (simulations report).
Proof.
  intros Hn Hdays.
  destruct (runAnalysis_chain config e Hn Hdays)
    as (s1 & e1 & s2 & e2 & s3 & e3 & H1 & H2 & H3 & Hrun).
  destruct (per_generator_range _ Hn) as (_ & Hper & Hle).
  set (per := num_simulations config / 3) in *.
  eexists _, e3. split; [exact Hrun|].
  rewrite aggregate_simulations.
  cbn [simulations set_num_trials set_seed_used uninitialised app].
  pose proof (runPositionShuffle_frame _ _ _ _ H1) as Hf1.
  assert (Hdays1 : Z.of_nat (length (daily_returns_ e1)) < INT_MAX)
    by (rewrite Hf1; exact Hdays).
  destruct (runPositionShuffle_returns per e Hper) as [a1 K1].
  destruct (runReturnPermutation_returns per e1 Hper Hdays1)
    as (t2 & a2 & K2 & Hall2).
  destruct (runBootstrap_returns per e2 Hper) as [a3 K3].
  rewrite K1 in H1. injection H1 as <- _.
  rewrite K2 in H2. injection H2 as <- _.
  rewrite K3 in H3. injection H3 as <- _.
  rewrite !Forall_app. repeat split.
  - rewrite Forall_map, Forall_forall. intros seq _.
    apply trade_path_result_sign.
  - clear - Hall2. induction Hall2 as [|seq sim seqs sims Hs _ IH];
      constructor; [|exact IH].
    exact (return_path_result_sign _ _ _ Hs).
  - rewrite Forall_map, Forall_forall. intros seq _.
    apply trade_path_result_sign.
Qed.

End ReturnSign.

(** ** Concrete runs for the further properties

    Each lemma of this part applies one of the theorems above to the
    sample engine, with the reference implementation of the two
    interfaces. *)

Lemma not_nan_checked (l : list double) :
  forallb (fun v => negb (is_nan v)) l = true -> Forall not_nan l.
Proof.
  rewrite forallb_forall, Forall_forall. intros H v Hv.
  specialize (H v Hv). unfold not_nan. now destruct (is_nan v).
Qed.

(** [generators_reject_negative] on the sample trades, for a request of
    -1 paths. *)
Lemma generators_reject_negative_witness :
  let e := setTrades Samples.trades (new_engine 42 0) in
  -1 < 0
  /\ runPositionShuffle (-1) e = Thrown length_error
  /\ runReturnPermutation (-1) e = Thrown length_error
  /\ runBootstrap (-1) e = Thrown length_error.
Proof.
  cbv zeta.
  assert (H : -1 < 0) by lia.
  split; [exact H|].
  exact (generators_reject_negative (-1) _ H).
Defined.

(** [runAnalysis_only_advances_generator] on the sample engine, for thirty
    requested paths. *)
Lemma runAnalysis_only_advances_generator_witness :
  let e := setReturns Samples.returns
             (setTrades Samples.trades (new_engine 42 0)) in
  let config := Samples.config 30 42 in
  is_uint32 (num_simulations config)
  /\ Z.of_nat (length (daily_returns_ e)) < INT_MAX
  /\ exists report e',
       runAnalysis config e = Returned (report, e')
       /\ e' = with_rng e (rng_ e')
       /\ original_trades_ e' = original_trades_ e
       /\ daily_returns_ e' = daily_returns_ e
       /\ prices_ e' = prices_ e.
Proof.
  cbv zeta.
  assert (H1 : is_uint32 (num_simulations (Samples.config 30 42)))
    by (unfold is_uint32, UINT32_MAX; simpl; lia).
  assert (H2 : Z.of_nat
                 (length
                    (daily_returns_
                       (setReturns Samples.returns
                          (setTrades Samples.trades (new_engine 42 0)))))
               < INT_MAX) by (vm_compute; reflexivity).
  split; [exact H1|].
  split; [exact H2|].
  exact (runAnalysis_only_advances_generator _ _ H1 H2).
Defined.

(** [runReturnPermutation_paths] on the sample returns, for four paths. *)
Lemma runReturnPermutation_paths_witness :
  let e := setReturns Samples.returns (new_engine 42 0) in
  0 <= 4
  /\ daily_returns_ e <> []
  /\ Z.of_nat (length (daily_returns_ e)) < INT_MAX
  /\ exists sims e',
       runReturnPermutation 4 e = Returned (sims, e')
       /\ length sims = Z.to_nat 4
       /\ Forall2
            (fun seq sim =>
               Permutation (daily_returns_ e) seq
               /\ final_value sim
                  = fst (compound 100000%float [100000%float] seq)
               /\ win_rate sim = 50%float)
            (return_permutation_outcomes 4 e) sims.
Proof.
  cbv zeta.
  assert (H1 : 0 <= 4) by lia.
  assert (H2 : daily_returns_ (setReturns Samples.returns (new_engine 42 0))
               <> []) by (vm_compute; discriminate).
  assert (H3 : Z.of_nat
                 (length
                    (daily_returns_
                       (setReturns Samples.returns (new_engine 42 0))))
               < INT_MAX) by (vm_compute; reflexivity).
  split; [exact H1|].
  split; [exact H2|].
  split; [exact H3|].
  exact (runReturnPermutation_paths 4 _ H1 H2 H3).
Defined.

(** [runBootstrap_paths] on the sample trades, for four paths. *)
Lemma runBootstrap_paths_witness :
  let e := setTrades Samples.trades (new_engine 42 0) in
  0 <= 4
  /\ original_trades_ e <> []
  /\ exists sims e',
       runBootstrap 4 e = Returned (sims, e')
       /\ length sims = Z.to_nat 4
       /\ Forall2
            (fun seq sim =>
               sim = trade_path_result seq
               /\ length seq = length (original_trades_ e)
               /\ Forall (fun v => In v (trade_pnls_of (original_trades_ e)))
                    seq)
            (bootstrap_outcomes 4 e) sims.
Proof.
  cbv zeta.
  assert (H1 : 0 <= 4) by lia.
  assert (H2 : original_trades_ (setTrades Samples.trades (new_engine 42 0))
               <> []) by (vm_compute; discriminate).
  split; [exact H1|].
  split; [exact H2|].
  exact (runBootstrap_paths 4 _ H1 H2).
Defined.

(** [single_trade_paths] on an engine that holds one trade of +50%. *)
Lemma single_trade_paths_witness :
  let t := Samples.trade 50%float in
  let e := setTrades [t] (new_engine 42 0) in
  let sim := trade_path_result [(pnl_pct t / 100)%float] in
  0 <= 4
  /\ original_trades_ e = [t]
  /\ exists e1 e2,
       runPositionShuffle 4 e = Returned (repeat sim (Z.to_nat 4), e1)
       /\ runBootstrap 4 e = Returned (repeat sim (Z.to_nat 4), e2).
Proof.
  cbv zeta.
  assert (H1 : 0 <= 4) by lia.
  assert (H2 : original_trades_
                 (setTrades [Samples.trade 50%float] (new_engine 42 0))
               = [Samples.trade 50%float]) by reflexivity.
  split; [exact H1|].
  split; [exact H2|].
  exact (single_trade_paths 4 _ _ H1 H2).
Defined.

(** [runPositionShuffle_same_win_rate] on the sample trades, for four
    paths. *)
Lemma runPositionShuffle_same_win_rate_witness :
  let e := setTrades Samples.trades (new_engine 42 0) in
  let original := trade_path_result (trade_pnls_of (original_trades_ e)) in
  0 <= 4
  /\ exists sims e',
       runPositionShuffle 4 e = Returned (sims, e')
       /\ Forall
            (fun sim =>
               win_rate sim = win_rate original
               /\ num_trades sim = num_trades original)
            sims.
Proof.
  cbv zeta.
  assert (H1 : 0 <= 4) by lia.
  split; [exact H1|].
  exact (runPositionShuffle_same_win_rate 4 _ H1).
Defined.

(** [runAnalysis_pools_generators] on the sample engine, for thirty
    requested paths. *)
Lemma runAnalysis_pools_generators_witness :
  let e := setReturns Samples.returns
             (setTrades Samples.trades (new_engine 42 0)) in
  let config := Samples.config 30 42 in
  let per := num_simulations config / 3 in
  is_uint32 (num_simulations config)
  /\ Z.of_nat (length (daily_returns_ e)) < INT_MAX
  /\ exists s1 e1 s2 e2 s3 e3 report,
       runPositionShuffle per e = Returned (s1, e1)
       /\ runReturnPermutation per e1 = Returned (s2, e2)
       /\ runBootstrap per e2 = Returned (s3, e3)
       /\ runAnalysis config e = Returned (report, e3)
       /\ simulations report = s1 ++ s2 ++ s3.
Proof.
  cbv zeta.
  assert (H1 : is_uint32 (num_simulations (Samples.config 30 42)))
    by (unfold is_uint32, UINT32_MAX; simpl; lia).
  assert (H2 : Z.of_nat
                 (length
                    (daily_returns_
                       (setReturns Samples.returns
                          (setTrades Samples.trades (new_engine 42 0)))))
               < INT_MAX) by (vm_compute; reflexivity).
  split; [exact H1|].
  split; [exact H2|].
  exact (runAnalysis_pools_generators _ _ H1 H2).
Defined.

(** [runAnalysis_path_count] on the sample engine, for thirty requested
    paths. *)
Lemma runAnalysis_path_count_witness :
  let e := setReturns Samples.returns
             (setTrades Samples.trades (new_engine 42 0)) in
  let config := Samples.config 30 42 in
  is_uint32 (num_simulations config)
  /\ Z.of_nat (length (daily_returns_ e)) < INT_MAX
  /\ exists report e',
       runAnalysis config e = Returned (report, e')
       /\ Z.of_nat (length (simulations report))
          = (num_simulations config / 3)
            * ((match original_trades_ e with [] => 0 | _ :: _ => 2 end)
               + (match daily_returns_ e with [] => 0 | _ :: _ => 1 end)).
Proof.
  cbv zeta.
  assert (H1 : is_uint32 (num_simulations (Samples.config 30 42)))
    by (unfold is_uint32, UINT32_MAX; simpl; lia).
  assert (H2 : Z.of_nat
                 (length
                    (daily_returns_
                       (setReturns Samples.returns
                          (setTrades Samples.trades (new_engine 42 0)))))
               < INT_MAX) by (vm_compute; reflexivity).
  split; [exact H1|].
  split; [exact H2|].
  exact (runAnalysis_path_count _ _ H1 H2).
Defined.

(** Two engines that differ in everything the generators do not read:
    the prices and holding times of the trades, their win flags, and the
    price series. *)
Lemma runAnalysis_reads_witness :
  let e1 := setReturns Samples.returns
              (setTrades Samples.trades (new_engine 42 0)) in
  let e2 := setPrices [1%float; 2%float]
              (setReturns Samples.returns
                 (setTrades
                    (map (fun t =>
                            {| entry_price := 7%float;
                               exit_price := 8%float;
                               days_held := 1;
                               pnl_pct := pnl_pct t;
                               is_win := false |})
                       Samples.trades)
                    (new_engine 42 0))) in
  let config := Samples.config 30 42 in
  same_read_input e1 e2
  /\ same_outcome (runAnalysis config e1) (runAnalysis config e2).
Proof.
  cbv zeta.
  assert (H : same_read_input
                (setReturns Samples.returns
                   (setTrades Samples.trades (new_engine 42 0)))
                (setPrices [1%float; 2%float]
                   (setReturns Samples.returns
                      (setTrades
                         (map (fun t =>
                                 {| entry_price := 7%float;
                                    exit_price := 8%float;
                                    days_held := 1;
                                    pnl_pct := pnl_pct t;
                                    is_win := false |})
                            Samples.trades)
                         (new_engine 42 0)))))
    by (split; [reflexivity|split; reflexivity]).
  split; [exact H|].
  exact (runAnalysis_reads _ _ _ H).
Defined.

(** [runAnalysis_histogram] on the sample engine, for thirty requested
    paths. *)
Lemma runAnalysis_histogram_witness :
  let e := setReturns Samples.returns
             (setTrades Samples.trades (new_engine 42 0)) in
  let config := Samples.config 30 42 in
  is_uint32 (num_simulations config)
  /\ Z.of_nat (length (daily_returns_ e)) < INT_MAX
  /\ exists report e',
       runAnalysis config e = Returned (report, e')
       /\ length (return_distribution report) = 20%nat
       /\ Forall (Z.le 0) (return_distribution report)
       /\ fold_right Z.add 0 (return_distribution report)
          <= Z.of_nat (length (simulations report)).
Proof.
  cbv zeta.
  assert (H1 : is_uint32 (num_simulations (Samples.config 30 42)))
    by (unfold is_uint32, UINT32_MAX; simpl; lia).
  assert (H2 : Z.of_nat
                 (length
                    (daily_returns_
                       (setReturns Samples.returns
                          (setTrades Samples.trades (new_engine 42 0)))))
               < INT_MAX) by (vm_compute; reflexivity).
  split; [exact H1|].
  split; [exact H2|].
  exact (runAnalysis_histogram _ _ H1 H2).
Defined.

(** [single_trade_report] on an engine that holds one trade of +50%, for
    thirty requested paths. *)
Lemma single_trade_report_witness :
  let t := Samples.trade 50%float in
  let e := setTrades [t] (new_engine 42 0) in
  let config := Samples.config 30 42 in
  let sim := trade_path_result [(pnl_pct t / 100)%float] in
  is_uint32 (num_simulations config)
  /\ 3 <= num_simulations config
  /\ original_trades_ e = [t]
  /\ daily_returns_ e = []
  /\ exists report e',
       runAnalysis config e = Returned (report, e')
       /\ simulations report
          = repeat sim (2 * Z.to_nat (num_simulations config / 3))
       /\ percentile_5 report = Some (total_return_pct sim)
       /\ percentile_25 report = Some (total_return_pct sim)
       /\ percentile_50 report = Some (total_return_pct sim)
       /\ percentile_75 report = Some (total_return_pct sim)
       /\ percentile_95 report = Some (total_return_pct sim)
       /\ distribution_min report = Some (total_return_pct sim)
       /\ distribution_max report = Some (total_return_pct sim)
       /\ return_distribution report = repeat 0 20.
Proof.
  cbv zeta.
  assert (H1 : is_uint32 (num_simulations (Samples.config 30 42)))
    by (unfold is_uint32, UINT32_MAX; simpl; lia).
  assert (H2 : 3 <= num_simulations (Samples.config 30 42))
    by (simpl; lia).
  assert (H3 : original_trades_
                 (setTrades [Samples.trade 50%float] (new_engine 42 0))
               = [Samples.trade 50%float]) by reflexivity.
  assert (H4 : daily_returns_
                 (setTrades [Samples.trade 50%float] (new_engine 42 0))
               = []) by reflexivity.
  split; [exact H1|].
  split; [exact H2|].
  split; [exact H3|].
  split; [exact H4|].
  exact (single_trade_report _ _ _ H1 H2 H3 H4).
Defined.

(** [calculateMaxDrawdown_rising_curve] on a curve with one flat step. *)
Lemma calculateMaxDrawdown_rising_curve_witness :
  Sorted double_le [100000; 110000; 110000; 120000]%float
  /\ calculateMaxDrawdown [100000; 110000; 110000; 120000]%float = 0%float.
Proof.
  assert (H : Sorted double_le [100000; 110000; 110000; 120000]%float)
    by (repeat first [apply Sorted_nil | apply Sorted_cons
                     | apply HdRel_nil | apply HdRel_cons | reflexivity]).
  split; [exact H|].
  exact (calculateMaxDrawdown_rising_curve _ H).
Defined.

(** [computePValue_all_reach] for the observed value 2 among 2, 3 and 5. *)
Lemma computePValue_all_reach_witness :
  Z.of_nat (length [2; 3; 5]%float) <= INT_MAX
  /\ Forall (fun v => (2 <=? v)%float = true) [2; 3; 5]%float
  /\ computePValue 2%float [2; 3; 5]%float = 1%float.
Proof.
  assert (H1 : Z.of_nat (length [2; 3; 5]%float) <= INT_MAX)
    by (vm_compute; discriminate).
  assert (H2 : Forall (fun v => (2 <=? v)%float = true) [2; 3; 5]%float)
    by (repeat constructor).
  split; [exact H1|].
  split; [exact H2|].
  exact (computePValue_all_reach _ _ H1 H2).
Defined.

(** [computePValue_none_reach] for the observed value 4 among 1, 2 and 3. *)
Lemma computePValue_none_reach_witness :
  [1; 2; 3]%float <> []
  /\ Z.of_nat (length [1; 2; 3]%float) <= INT_MAX
  /\ (is_nan 4%float = true
      \/ Forall (fun v => (4 <=? v)%float = false) [1; 2; 3]%float)
  /\ computePValue 4%float [1; 2; 3]%float = 0%float.
Proof.
  assert (H1 : [1; 2; 3]%float <> []) by discriminate.
  assert (H2 : Z.of_nat (length [1; 2; 3]%float) <= INT_MAX)
    by (vm_compute; discriminate).
  assert (H3 : is_nan 4%float = true
               \/ Forall (fun v => (4 <=? v)%float = false) [1; 2; 3]%float)
    by (right; repeat constructor).
  split; [exact H1|].
  split; [exact H2|].
  split; [exact H3|].
  exact (computePValue_none_reach _ _ H1 H2 H3).
Defined.


(** [runMonteCarlo_indeterminate] on the sample engine. *)
Lemma runMonteCarlo_indeterminate_witness :
  let engine_ := setReturns Samples.returns
                   (setTrades Samples.trades (new_engine 42 0)) in
  Z.of_nat (length (daily_returns_ engine_)) < INT_MAX
  /\ exists obj engine',
       runMonteCarlo 30 42 engine_ = Returned (obj, engine')
       /\ interpretation obj = None
       /\ js_original_return obj = None
       /\ js_original_sharpe obj = None
       /\ js_original_max_dd obj = None
       /\ js_p_value_strategy_vs_random obj = None
       /\ js_p_value_strategy_vs_bootstrap obj = None.
Proof.
  cbv zeta.
  assert (H : Z.of_nat
                (length
                   (daily_returns_
                      (setReturns Samples.returns
                         (setTrades Samples.trades (new_engine 42 0)))))
              < INT_MAX) by (vm_compute; reflexivity).
  split; [exact H|].
  exact (runMonteCarlo_indeterminate 30 42 _ H).
Defined.

(** [runMonteCarlo_sample] on the sample engine, for 300 requested paths. *)
Lemma runMonteCarlo_sample_witness :
  let engine_ := setReturns Samples.returns
                   (setTrades Samples.trades (new_engine 42 0)) in
  300 <= 300 <= INT_MAX
  /\ original_trades_ engine_ <> []
  /\ Z.of_nat (length (daily_returns_ engine_)) < INT_MAX
  /\ exists shuffle_results e1 obj engine',
       runPositionShuffle (300 / 3) engine_ = Returned (shuffle_results, e1)
       /\ runMonteCarlo 300 42 engine_ = Returned (obj, engine')
       /\ sample_simulations obj = firstn 100 shuffle_results
       /\ length (sample_simulations obj) = 100%nat.
Proof.
  cbv zeta.
  assert (H1 : 300 <= 300 <= INT_MAX) by (unfold INT_MAX; lia).
  assert (H2 : original_trades_
                 (setReturns Samples.returns
                    (setTrades Samples.trades (new_engine 42 0)))
               <> []) by (vm_compute; discriminate).
  assert (H3 : Z.of_nat
                 (length
                    (daily_returns_
                       (setReturns Samples.returns
                          (setTrades Samples.trades (new_engine 42 0)))))
               < INT_MAX) by (vm_compute; reflexivity).
  split; [exact H1|].
  split; [exact H2|].
  split; [exact H3|].
  exact (runMonteCarlo_sample 300 42 _ H1 H2 H3).
Defined.

(** [runAnalysis_drawdowns_nonneg] on the sample engine. *)
Lemma runAnalysis_drawdowns_nonneg_witness :
  let e := setReturns Samples.returns
             (setTrades Samples.trades (new_engine 42 0)) in
  let config := Samples.config 30 42 in
  is_uint32 (num_simulations config)
  /\ Z.of_nat (length (daily_returns_ e)) < INT_MAX
  /\ exists report e',
       runAnalysis config e = Returned (report, e')
       /\ Forall (fun sim => (0 <=? max_drawdown_pct sim)%float = true)
            (simulations report).
Proof.
  cbv zeta.
  assert (H1 : is_uint32 (num_simulations (Samples.config 30 42)))
    by (unfold is_uint32, UINT32_MAX; simpl; lia).
  assert (H2 : Z.of_nat
                 (length
                    (daily_returns_
                       (setReturns Samples.returns
                          (setTrades Samples.trades (new_engine 42 0)))))
               < INT_MAX) by (vm_compute; reflexivity).
  split; [exact H1|].
  split; [exact H2|].
  exact (runAnalysis_drawdowns_nonneg _ _ H1 H2).
Defined.

(** [runMonteCarlo_mean_drawdown] on the sample engine. *)
Lemma runMonteCarlo_mean_drawdown_witness :
  let engine_ := setReturns Samples.returns
                   (setTrades Samples.trades (new_engine 42 0)) in
  Z.of_nat (length (daily_returns_ engine_)) < INT_MAX
  /\ exists obj engine',
       runMonteCarlo 30 42 engine_ = Returned (obj, engine')
       /\ (0 <=? mean_max_drawdown obj)%float = true.
Proof.
  cbv zeta.
  assert (H : Z.of_nat
                (length
                   (daily_returns_
                      (setReturns Samples.returns
                         (setTrades Samples.trades (new_engine 42 0)))))
              < INT_MAX) by (vm_compute; reflexivity).
  split; [exact H|].
  exact (runMonteCarlo_mean_drawdown 30 42 _ H).
Defined.

(** [calculateSharpeRatio_constant_curve] on five points at 100000. *)
Lemma calculateSharpeRatio_constant_curve_witness :
  is_finite 100000%float = true
  /\ (100000 =? 0)%float = false
  /\ Z.of_nat 5 < 2 ^ 53
  /\ calculateSharpeRatio (repeat 100000%float 5) = 0%float
  /\ snd (calculateSharpeRatio_logged (repeat 100000%float 5)) = [].
Proof.
  assert (H1 : is_finite 100000%float = true) by reflexivity.
  assert (H2 : (100000 =? 0)%float = false) by reflexivity.
  assert (H3 : Z.of_nat 5 < 2 ^ 53) by (vm_compute; reflexivity).
  split; [exact H1|].
  split; [exact H2|].
  split; [exact H3|].
  exact (calculateSharpeRatio_constant_curve _ _ H1 H2 H3).
Defined.

(** Names the report and the engine state of a run that returns. *)
Ltac evaluate_run Hrun :=
  match type of Hrun with
  | ?run = Returned (?report, ?e') =>
      let v := eval vm_compute in run in
      match v with
      | Returned (?x, ?y) =>
          let Hv := fresh "Hv" in
          assert (Hv : run = Returned (x, y)) by reflexivity;
          rewrite Hv in Hrun;
          injection Hrun as <- <-;
          clear Hv
      end
  end.

(** [runAnalysis_percentiles_ordered] on the sample engine: the thirty
    pooled returns are not empty and hold no NaN, and the seven values
    are in order. *)
Lemma runAnalysis_percentiles_ordered_witness :
  let e := setReturns Samples.returns
             (setTrades Samples.trades (new_engine 42 0)) in
  let config := Samples.config 30 42 in
  is_uint32 (num_simulations config)
  /\ Z.of_nat (length (daily_returns_ e)) < INT_MAX
  /\ exists report e',
       runAnalysis config e = Returned (report, e')
       /\ pooled_returns report <> []
       /\ Forall not_nan (pooled_returns report)
       /\ exists lo p5 p25 p50 p75 p95 hi,
            distribution_min report = Some lo
            /\ percentile_5 report = Some p5
            /\ percentile_25 report = Some p25
            /\ percentile_50 report = Some p50
            /\ percentile_75 report = Some p75
            /\ percentile_95 report = Some p95
            /\ distribution_max report = Some hi
            /\ double_le lo p5 /\ double_le p5 p25 /\ double_le p25 p50
            /\ double_le p50 p75 /\ double_le p75 p95 /\ double_le p95 hi
            /\ Forall (fun v => In v (pooled_returns report))
                 [lo; p5; p25; p50; p75; p95; hi].
Proof.
  cbv zeta.
  assert (H1 : is_uint32 (num_simulations (Samples.config 30 42)))
    by (unfold is_uint32, UINT32_MAX; simpl; lia).
  assert (H2 : Z.of_nat
                 (length
                    (daily_returns_
                       (setReturns Samples.returns
                          (setTrades Samples.trades (new_engine 42 0)))))
               < INT_MAX) by (vm_compute; reflexivity).
  split; [exact H1|].
  split; [exact H2|].
  destruct (runAnalysis_percentiles_ordered _ _ H1 H2)
    as (report & e' & Hrun & Hordered).
  exists report, e'. split; [exact Hrun|].
  evaluate_run Hrun.
  match type of Hordered with
  | ?P -> ?Q -> _ =>
      assert (Hne : P) by (vm_compute; discriminate);
      assert (Hnn : Q) by (apply not_nan_checked; vm_compute; reflexivity)
  end.
  split; [exact Hne|].
  split; [exact Hnn|].
  exact (Hordered Hne Hnn).
Defined.

(** [runAnalysis_counts_the_minimum] on the sample engine: the smallest
    pooled return is finite, the bin width is positive, and the first
    bucket is not empty. *)
Lemma runAnalysis_counts_the_minimum_witness :
  let e := setReturns Samples.returns
             (setTrades Samples.trades (new_engine 42 0)) in
  let config := Samples.config 30 42 in
  is_uint32 (num_simulations config)
  /\ Z.of_nat (length (daily_returns_ e)) < INT_MAX
  /\ exists report e' lo hi,
       runAnalysis config e = Returned (report, e')
       /\ distribution_min report = Some lo
       /\ distribution_max report = Some hi
       /\ is_finite lo = true
       /\ (0 <? (hi - lo) / 20)%float = true
       /\ 1 <= nth 0 (return_distribution report) 0.
Proof.
  cbv zeta.
  assert (H1 : is_uint32 (num_simulations (Samples.config 30 42)))
    by (unfold is_uint32, UINT32_MAX; simpl; lia).
  assert (H2 : Z.of_nat
                 (length
                    (daily_returns_
                       (setReturns Samples.returns
                          (setTrades Samples.trades (new_engine 42 0)))))
               < INT_MAX) by (vm_compute; reflexivity).
  split; [exact H1|].
  split; [exact H2|].
  destruct (runAnalysis_counts_the_minimum _ _ H1 H2)
    as (report & e' & Hrun & Hcounted).
  exists report, e'.
  pose proof Hrun as Hrun'.
  evaluate_run Hrun'.
  match goal with
  | |- exists lo hi, _ /\ distribution_min ?r = _ /\ _ =>
      let dmin := eval vm_compute in (distribution_min r) in
      let dmax := eval vm_compute in (distribution_max r) in
      match dmin with
      | Some ?lo =>
          match dmax with
          | Some ?hi =>
              exists lo, hi;
              assert (Hmin : distribution_min r = Some lo)
                by (vm_compute; reflexivity);
              assert (Hmax : distribution_max r = Some hi)
                by (vm_compute; reflexivity);
              assert (Hfin : is_finite lo = true)
                by (vm_compute; reflexivity);
              assert (Hw : (0 <? (hi - lo) / 20)%float = true)
                by (vm_compute; reflexivity)
          end
      end
  end.
  split; [exact Hrun|].
  split; [exact Hmin|].
  split; [exact Hmax|].
  split; [exact Hfin|].
  split; [exact Hw|].
  exact (Hcounted _ _ Hmin Hmax Hfin Hw).
Defined.

(** [runAnalysis_too_few] on the sample engine, for a request of two
    paths. *)
Lemma runAnalysis_too_few_witness :
  let e := setReturns Samples.returns
             (setTrades Samples.trades (new_engine 42 0)) in
  let config := Samples.config 2 42 in
  0 <= num_simulations config < 3
  /\ exists report,
       runAnalysis config e = Returned (report, e)
       /\ simulations report = []
       /\ percentile_5 report = Some 0%float
       /\ percentile_25 report = Some 0%float
       /\ percentile_50 report = Some 0%float
       /\ percentile_75 report = Some 0%float
       /\ percentile_95 report = Some 0%float
       /\ ci_lower_95 report = Some 0%float
       /\ ci_upper_95 report = Some 0%float
       /\ distribution_min report = None
       /\ distribution_max report = None
       /\ return_distribution report = repeat 0 20
       /\ num_trials report = Some (num_simulations config).
Proof.
  cbv zeta.
  assert (H : 0 <= num_simulations (Samples.config 2 42) < 3)
    by (simpl; lia).
  split; [exact H|].
  exact (runAnalysis_too_few _ _ H).
Defined.

(** [compound_nonneg] on the sample returns. *)
Lemma compound_nonneg_witness :
  (0 <=? 100000)%float = true
  /\ Forall (fun r => (0 <? 1 + r)%float = true
                      /\ (1 + r <? infinity)%float = true) Samples.returns
  /\ let '(capital, equity_curve) :=
       compound 100000%float [100000%float] Samples.returns in
     (0 <=? capital)%float = true
     /\ Forall (fun v => (0 <=? v)%float = true) equity_curve.
Proof.
  assert (H1 : (0 <=? 100000)%float = true) by reflexivity.
  assert (H2 : Forall (fun r => (0 <? 1 + r)%float = true
                                /\ (1 + r <? infinity)%float = true)
                 Samples.returns)
    by (repeat constructor).
  split; [exact H1|].
  split; [exact H2|].
  exact (compound_nonneg 100000%float Samples.returns H1 H2).
Defined.

(** [runAnalysis_return_sign] on the sample engine. *)
Lemma runAnalysis_return_sign_witness :
  let e := setReturns Samples.returns
             (setTrades Samples.trades (new_engine 42 0)) in
  let config := Samples.config 30 42 in
  is_uint32 (num_simulations config)
  /\ Z.of_nat (length (daily_returns_ e)) < INT_MAX
  /\ exists report e',
       runAnalysis config e = Returned (report, e')
       /\ Forall
            (fun sim =>
               ((100000 <=? final_value sim)%float = true ->
                (0 <=? total_return_pct sim)%float = true)
               /\ ((final_value sim <? 100000)%float = true ->
                   (total_return_pct sim <=? 0)%float = true))
            (simulations report).
Proof.
  cbv zeta.
  assert (H1 : is_uint32 (num_simulations (Samples.config 30 42)))
    by (unfold is_uint32, UINT32_MAX; simpl; lia).
  assert (H2 : Z.of_nat
                 (length
                    (daily_returns_
                       (setReturns Samples.returns
                          (setTrades Samples.trades (new_engine 42 0)))))
               < INT_MAX) by (vm_compute; reflexivity).
  split; [exact H1|].
  split; [exact H2|].
  exact (runAnalysis_return_sign _ _ H1 H2).
Defined.
